(** * portafilter: a shallow embedding of the validation engine

    The development follows [portafilter/rules.py] (the rule predicates,
    [Ruleset], [RuleList]) and [portafilter/validator.py] ([Validator]).
    Python objects that are mutated in place are modelled by explicit state
    passing: every method that mutates [self] returns the new object.

    Exceptions are values of [exn]; a call that may raise returns a
    [result].  An exception other than [ValidationError] is what the
    specification calls a configuration error. *)

From Stdlib Require Import ZArith QArith List Bool String Ascii DecimalString.
From stdpp Require Import base strings gmap list.

Set Warnings "-register-all".

Local Open Scope string_scope.
Local Open Scope list_scope.

(** ** Exceptions *)

Inductive exn : Type :=
| ValidationError
| InvalidRule (msg : string)
| NotImplementedError
| ValueError
| IndexError
| TypeError
| AttributeError.

Inductive result (A : Type) : Type :=
| Ok (a : A)
| Raise (e : exn).

Arguments Ok {A} a.
Arguments Raise {A} e.

Definition bind {A B : Type} (m : result A) (k : A -> result B) : result B :=
  match m with
  | Ok a => k a
  | Raise e => Raise e
  end.

Definition fmap_result {A B : Type} (f : A -> B) (m : result A) : result B :=
  bind m (fun a => Ok (f a)).

Notation "x <- m ;; k" := (bind m (fun x => k))
  (at level 100, m at next level, right associativity, only parsing).

(** [try: m except Exception: d] *)
Definition except_Exception {A : Type} (m : result A) (d : A) : A :=
  match m with
  | Ok a => a
  | Raise _ => d
  end.

Definition is_ValidationError (e : exn) : bool :=
  match e with
  | ValidationError => true
  | _ => false
  end.

(** ** The methods of [str] the program uses

    A Python [str] is modelled by [string], one character per code point;
    [capitalize] is given on ASCII letters. *)

Module Str.

(** [s.split(sep)] for a one-character separator *)
Fixpoint split (sep : ascii) (s : string) : list string :=
  match s with
  | EmptyString => [EmptyString]
  | String c s' =>
      if Ascii.eqb c sep then EmptyString :: split sep s'
      else match split sep s' with
           | w :: ws => String c w :: ws
           | [] => [String c EmptyString]
           end
  end.

(** [sep.join(l)] *)
Fixpoint join (sep : string) (l : list string) : string :=
  match l with
  | [] => ""
  | [w] => w
  | w :: ws => w +:+ sep +:+ join sep ws
  end.

Fixpoint drop (n : nat) (s : string) : string :=
  match n, s with
  | O, _ => s
  | S n', String _ s' => drop n' s'
  | S _, EmptyString => EmptyString
  end.

(** [s.replace(old, new, 1)]: the first occurrence only *)
Fixpoint replace_first (old new s : string) : string :=
  if String.prefix old s then new +:+ drop (String.length old) s
  else match s with
       | EmptyString => EmptyString
       | String c s' => String c (replace_first old new s')
       end.

Definition upper (c : ascii) : ascii :=
  let n := nat_of_ascii c in
  if (97 <=? n)%nat && (n <=? 122)%nat then ascii_of_nat (n - 32) else c.

Definition lower (c : ascii) : ascii :=
  let n := nat_of_ascii c in
  if (65 <=? n)%nat && (n <=? 90)%nat then ascii_of_nat (n + 32) else c.

Fixpoint map_chars (f : ascii -> ascii) (s : string) : string :=
  match s with
  | EmptyString => EmptyString
  | String c s' => String (f c) (map_chars f s')
  end.

(** [s.capitalize()] *)
Definition capitalize (s : string) : string :=
  match s with
  | EmptyString => EmptyString
  | String c s' => String (upper c) (map_chars lower s')
  end.

(** [str(n)] for a list index *)
Definition of_nat (n : nat) : string :=
  NilEmpty.string_of_uint (Nat.to_uint n).

(** the characters of a string, each as a one-character string (what
    iterating or unpacking a [str] yields) *)
Fixpoint chars (s : string) : list string :=
  match s with
  | EmptyString => []
  | String c s' => String c EmptyString :: chars s'
  end.

End Str.

(** ** Input data

    The validated data is JSON-like.  A [float] is modelled by the rational
    it denotes (Python compares an [int] with a [float] exactly); a [dict]
    by its items in insertion order. *)

Inductive value : Type :=
| VNone
| VBool (b : bool)
| VInt (z : Z)
| VFloat (q : Q)
| VStr (s : string)
| VList (l : list value)
| VDict (d : list (string * value)).

(** [isinstance(value, Number)]: [bool] is a subclass of [int] *)
Definition is_Number (v : value) : bool :=
  match v with
  | VBool _ | VInt _ | VFloat _ => true
  | _ => false
  end.

(** [isinstance(value, int)] *)
Definition is_int (v : value) : bool :=
  match v with
  | VBool _ | VInt _ => true
  | _ => false
  end.

Definition is_bool (v : value) : bool :=
  match v with VBool _ => true | _ => false end.

Definition is_str (v : value) : bool :=
  match v with VStr _ => true | _ => false end.

Definition is_list (v : value) : bool :=
  match v with VList _ => true | _ => false end.

Definition is_dict (v : value) : bool :=
  match v with VDict _ => true | _ => false end.

(** [value is None] *)
Definition is_None (v : value) : bool :=
  match v with VNone => true | _ => false end.

(** the number a numeric value denotes ([True] is 1) *)
Definition number_of (v : value) : option Q :=
  match v with
  | VBool b => Some (if b then 1%Q else 0%Q)
  | VInt z => Some (inject_Z z)
  | VFloat q => Some q
  | _ => None
  end.

(** [True if value else False] *)
Definition truthy (v : value) : bool :=
  match v with
  | VNone => false
  | VBool b => b
  | VInt z => negb (Z.eqb z 0)
  | VFloat q => negb (Qeq_bool q 0)
  | VStr s => negb (String.eqb s "")
  | VList l => match l with [] => false | _ => true end
  | VDict d => match d with [] => false | _ => true end
  end.

(** [d.get(key)] on a dict given by its items *)
Fixpoint dict_get {A : Type} (key : string) (d : list (string * A)) : option A :=
  match d with
  | [] => None
  | (k, x) :: d' => if String.eqb k key then Some x else dict_get key d'
  end.

(** [a == b] *)
Fixpoint py_eq (a b : value) {struct a} : bool :=
  match a, b with
  | VNone, VNone => true
  | VStr s, VStr t => String.eqb s t
  | VList l, VList m =>
      (fix eq_list (l : list value) (m : list value) {struct l} : bool :=
         match l, m with
         | [], [] => true
         | x :: l', y :: m' => py_eq x y && eq_list l' m'
         | _, _ => false
         end) l m
  | VDict d, VDict e =>
      Nat.eqb (length d) (length e) &&
      (fix eq_items (d : list (string * value)) {struct d} : bool :=
         match d with
         | [] => true
         | (k, x) :: d' =>
             match dict_get k e with
             | Some y => py_eq x y && eq_items d'
             | None => false
             end
         end) d
  | _, _ =>
      match number_of a, number_of b with
      | Some p, Some q => Qeq_bool p q
      | _, _ => false
      end
  end.

(** ** Value types *)

(** Modelled from the spec: the enumeration [portafilter.enums.ValueType],
    whose module is not among the sources at hand.  The specification gives
    it as the closed enumeration {string, integer, numeric, list, dict}; each
    member has its own name as value. *)

Inductive ValueType : Type := STRING | INTEGER | NUMERIC | LIST | DICT.

(** [ValueType(name)]: [None] stands for the [ValueError] of a name that is
    no member. *)
Definition ValueType_of (name : string) : option ValueType :=
  if String.eqb name "string" then Some STRING
  else if String.eqb name "integer" then Some INTEGER
  else if String.eqb name "numeric" then Some NUMERIC
  else if String.eqb name "list" then Some LIST
  else if String.eqb name "dict" then Some DICT
  else None.

Definition ValueType_eqb (a b : ValueType) : bool :=
  match a, b with
  | STRING, STRING | INTEGER, INTEGER | NUMERIC, NUMERIC
  | LIST, LIST | DICT, DICT => true
  | _, _ => false
  end.

(** ** What the path resolver returns

    [JsonSchema.get_value_details] returns either a tuple
    [(value, value_exists)] or, for a path with a wildcard, a list of
    tuples [(index, details)]. *)

Inductive details : Type :=
| Single (v : value) (value_exists : bool)
| Multi (items : list (nat * details)).

(** ** Rule parameters

    The parameters of a rule are the strings of its rule expression;
    [Validator._modify_dependent_rules] appends what the resolver returned
    for the other field to the parameters of [same]. *)

Inductive param : Type :=
| PStr (s : string)
| PDetails (d : details).

(** A Python [float]: the rational it denotes, an infinity or NaN. *)
Inductive pyfloat : Type :=
| FNum (q : Q)
| FInf (negative : bool)
| FNaN.

(** [n >= x] and [n <= x] for an [int] n and a [float] x *)
Definition int_ge_float (n : Z) (x : pyfloat) : bool :=
  match x with
  | FNum q => Qle_bool q (inject_Z n)
  | FInf negative => negative
  | FNaN => false
  end.

Definition int_le_float (n : Z) (x : pyfloat) : bool :=
  match x with
  | FNum q => Qle_bool (inject_Z n) q
  | FInf negative => negb negative
  | FNaN => false
  end.

(** ** External collaborators

    The message service, the date service, the regular-expression engine and
    the builtins [float] and [str] are used through their interfaces only. *)

Class Externals : Type := {
  (** [portafilter.utils.trans(key, attributes=...)] *)
  trans : string -> list (string * param) -> string;
  (** [float(s)] on a [str]; [None] is its [ValueError] *)
  float_of_string : string -> option pyfloat;
  (** [str(x)] of what the resolver returned *)
  str_of_details : details -> string;
  (** [re.match(pattern, s)] found a match *)
  regex_match : string -> string -> bool;
  (** [Sandglass.is_parse_special_key(value)] *)
  is_parse_special_key : value -> bool;
  (** [Sandglass(value, date_format=...)]: the instant the text denotes, or
      the exception of a text that does not parse *)
  Sandglass : value -> option string -> result Z;
  (** [sandglass.start_of_day()] *)
  start_of_day : Z -> Z
}.

(** [float(p)] on a rule parameter *)
Definition float `{Externals} (p : param) : result pyfloat :=
  match p with
  | PStr s =>
      match float_of_string s with
      | Some x => Ok x
      | None => Raise ValueError
      end
  | PDetails _ => Raise TypeError
  end.

(** [str(p)] on a rule parameter, as an f-string formats it *)
Definition str `{Externals} (p : param) : string :=
  match p with
  | PStr s => s
  | PDetails d => str_of_details d
  end.

(** a rule parameter passed where the date service expects the text *)
Definition value_of_param (p : param) : result value :=
  match p with
  | PStr s => Ok (VStr s)
  | PDetails _ => Raise TypeError
  end.

(** [params[i]] *)
Definition index {A : Type} (l : list A) (i : nat) : result A :=
  match nth_error l i with
  | Some x => Ok x
  | None => Raise IndexError
  end.

(** [','.join(params)] *)
Fixpoint strings_of (params : list param) : result (list string) :=
  match params with
  | [] => Ok []
  | PStr s :: ps => ss <- strings_of ps ;; Ok (s :: ss)
  | PDetails _ :: _ => Raise TypeError
  end.

Definition join_params (params : list param) : result string :=
  ss <- strings_of params ;; Ok (Str.join "," ss).

(** ** The path resolver *)

Module JsonSchema.

Fixpoint enumerate {A : Type} (start : nat) (l : list A) : list (nat * A) :=
  match l with
  | [] => []
  | x :: l' => (start, x) :: enumerate (S start) l'
  end.

Definition index_of_segment (seg : string) : option nat :=
  match seg with
  | EmptyString => None
  | _ => option_map Nat.of_uint (NilEmpty.uint_of_string seg)
  end.

(** Modelled from the spec: [JsonSchema.get_value_details], whose module
    [portafilter.json_schema] is not among the sources at hand.  Section 4.1
    of the specification: without a wildcard the segments are walked, a map
    lookup that misses or indexing into something that is neither a map nor a
    sequence yields [(None, False)], a present key yields [(value, True)]; at
    a wildcard the node must be a sequence (anything else resolves to the
    empty result), and the rest of the path is resolved for every element,
    giving the list of [(index, sub-result)].  A sequence is indexed by a
    segment that is a decimal number. *)
Fixpoint resolve (segments : list string) (node : value) {struct segments} : details :=
  match segments with
  | [] => Single node true
  | seg :: rest =>
      if String.eqb seg "*" then
        match node with
        | VList l =>
            Multi (map (fun ix => (fst ix, resolve rest (snd ix))) (enumerate 0 l))
        | _ => Multi []
        end
      else
        match node with
        | VDict d =>
            match dict_get seg d with
            | Some x => resolve rest x
            | None => Single VNone false
            end
        | VList l =>
            match index_of_segment seg with
            | Some i =>
                match nth_error l i with
                | Some x => resolve rest x
                | None => Single VNone false
                end
            | None => Single VNone false
            end
        | _ => Single VNone false
        end
  end.

Definition get_value_details (data : value) (attribute : string) : details :=
  resolve (Str.split "." attribute) data.

End JsonSchema.

(** ** Rules *)

(** The built-in rule classes of [rules.py]. *)
Inductive rule_class : Type :=
| cRequired | cNullable | cString | cMin | cMax | cInteger | cNumeric
| cBoolean | cIn | cNotIn | cSame | cEmail | cList | cDict | cDate
| cAfter | cAfterOrEqual | cBefore | cBeforeOrEqual.

(** The metadata of a rule: a dict with the keys below; [None] is a key that
    is absent (or, for [value_type], bound to [None]). *)
Record Metadata : Type := {
  meta_value_type : option ValueType;
  meta_required : option bool;
  meta_nullable : option bool;
  meta_value_exists : option bool;
  meta_value : option value
}.

Inductive meta_key : Type :=
| k_value_type | k_required | k_nullable | k_value_exists | k_value.

Inductive meta_item : Type :=
| m_value_type (t : ValueType)
| m_required (b : bool)
| m_nullable (b : bool)
| m_value_exists (b : bool)
| m_value (v : value).

(** the truth value of a metadata entry that holds a [bool] or is absent *)
Definition py_true (o : option bool) : bool :=
  match o with
  | Some b => b
  | None => false
  end.

Module Rule.

Record t : Type := {
  cls : rule_class;
  _params : list param;
  _metadata : Metadata
}.

Definition init (c : rule_class) (args : list param) : t :=
  {| cls := c;
     _params := args;
     _metadata := {| meta_value_type := None; meta_required := None;
                     meta_nullable := None; meta_value_exists := None;
                     meta_value := None |} |}.

Definition get_params (self : t) : list param := _params self.

Definition add_param (self : t) (p : param) : t :=
  {| cls := cls self; _params := _params self ++ [p]; _metadata := _metadata self |}.

Definition set_item (m : Metadata) (kv : meta_item) : Metadata :=
  match kv with
  | m_value_type x =>
      {| meta_value_type := Some x; meta_required := meta_required m;
         meta_nullable := meta_nullable m; meta_value_exists := meta_value_exists m;
         meta_value := meta_value m |}
  | m_required b =>
      {| meta_value_type := meta_value_type m; meta_required := Some b;
         meta_nullable := meta_nullable m; meta_value_exists := meta_value_exists m;
         meta_value := meta_value m |}
  | m_nullable b =>
      {| meta_value_type := meta_value_type m; meta_required := meta_required m;
         meta_nullable := Some b; meta_value_exists := meta_value_exists m;
         meta_value := meta_value m |}
  | m_value_exists b =>
      {| meta_value_type := meta_value_type m; meta_required := meta_required m;
         meta_nullable := meta_nullable m; meta_value_exists := Some b;
         meta_value := meta_value m |}
  | m_value v =>
      {| meta_value_type := meta_value_type m; meta_required := meta_required m;
         meta_nullable := meta_nullable m; meta_value_exists := meta_value_exists m;
         meta_value := Some v |}
  end.

Definition del_item (m : Metadata) (k : meta_key) : Metadata :=
  match k with
  | k_value_type =>
      {| meta_value_type := None; meta_required := meta_required m;
         meta_nullable := meta_nullable m; meta_value_exists := meta_value_exists m;
         meta_value := meta_value m |}
  | k_required =>
      {| meta_value_type := meta_value_type m; meta_required := None;
         meta_nullable := meta_nullable m; meta_value_exists := meta_value_exists m;
         meta_value := meta_value m |}
  | k_nullable =>
      {| meta_value_type := meta_value_type m; meta_required := meta_required m;
         meta_nullable := None; meta_value_exists := meta_value_exists m;
         meta_value := meta_value m |}
  | k_value_exists =>
      {| meta_value_type := meta_value_type m; meta_required := meta_required m;
         meta_nullable := meta_nullable m; meta_value_exists := None;
         meta_value := meta_value m |}
  | k_value =>
      {| meta_value_type := meta_value_type m; meta_required := meta_required m;
         meta_nullable := meta_nullable m; meta_value_exists := meta_value_exists m;
         meta_value := None |}
  end.

(** [set_metadata] with a list of pairs *)
Definition set_metadata (self : t) (items : list meta_item) : t :=
  {| cls := cls self; _params := _params self;
     _metadata := fold_left set_item items (_metadata self) |}.

(** [unset_metadata] with a list of keys *)
Definition unset_metadata (self : t) (keys : list meta_key) : t :=
  {| cls := cls self; _params := _params self;
     _metadata := fold_left del_item keys (_metadata self) |}.

Definition get_value_type (self : t) : option ValueType :=
  meta_value_type (_metadata self).

Definition is_required (self : t) : option bool :=
  meta_required (_metadata self).

Definition is_nullable (self : t) : option bool :=
  meta_nullable (_metadata self).

(** [self.get_metadata('value') is None] *)
Definition value_is_None (self : t) : bool :=
  match meta_value (_metadata self) with
  | None => true
  | Some v => is_None v
  end.

Definition is_skippable (self : t) : bool :=
  value_is_None self && (py_true (is_nullable self) || negb (py_true (is_required self))).

End Rule.

(** *** The predicates and messages of the built-in rules *)

Module RequiredRule.
Section WithExternals.
Context `{Externals}.

Definition passes (self : Rule.t) (attribute : string) (v : value) (params : list param)
  : result bool :=
  if is_Number v || is_bool v then Ok true
  else Ok ((py_true (Rule.is_nullable self) && is_None v) || truthy v).

Definition message (self : Rule.t) (attribute : string) (v : value) (params : list param)
  : result string :=
  Ok (trans "en.required" [("attribute", PStr attribute)]).

End WithExternals.
End RequiredRule.

Module NullableRule.

Definition passes (self : Rule.t) (attribute : string) (v : value) (params : list param)
  : result bool :=
  Ok true.

Definition message (self : Rule.t) (attribute : string) (v : value) (params : list param)
  : result string :=
  Ok "".

End NullableRule.

Module StringRule.
Section WithExternals.
Context `{Externals}.

Definition passes (self : Rule.t) (attribute : string) (v : value) (params : list param)
  : result bool :=
  Ok (is_str v).

Definition message (self : Rule.t) (attribute : string) (v : value) (params : list param)
  : result string :=
  Ok (trans "en.string" [("attribute", PStr attribute)]).

End WithExternals.
End StringRule.

Module MinRule.
Section WithExternals.
Context `{Externals}.

Definition passes (self : Rule.t) (attribute : string) (v : value) (params : list param)
  : result bool :=
  let value_type := Rule.get_value_type self in
  p <- index params 0 ;;
  min_value <- float p ;;
  match value_type with
  | Some STRING =>
      Ok (match v with
          | VStr s => int_ge_float (Z.of_nat (String.length s)) min_value
          | _ => false
          end)
  | Some LIST =>
      Ok (match v with
          | VList l => int_ge_float (Z.of_nat (length l)) min_value
          | _ => false
          end)
  | Some NUMERIC | Some INTEGER =>
      Ok (match v with
          | VBool b => int_ge_float (if b then 1%Z else 0%Z) min_value
          | VInt z => int_ge_float z min_value
          | _ => false
          end)
  | _ => Raise NotImplementedError
  end.

Definition message (self : Rule.t) (attribute : string) (v : value) (params : list param)
  : result string :=
  let value_type := Rule.get_value_type self in
  message_key <-
    match value_type with
    | Some STRING => Ok "en.min.string"
    | Some LIST => Ok "en.min.list"
    | Some NUMERIC | Some INTEGER => Ok "en.min.numeric"
    | _ => Raise NotImplementedError
    end ;;
  p <- index params 0 ;;
  Ok (trans message_key [("attribute", PStr attribute); ("min", p)]).

End WithExternals.
End MinRule.

Module MaxRule.
Section WithExternals.
Context `{Externals}.

Definition passes (self : Rule.t) (attribute : string) (v : value) (params : list param)
  : result bool :=
  let value_type := Rule.get_value_type self in
  p <- index params 0 ;;
  max_value <- float p ;;
  match value_type with
  | Some STRING =>
      Ok (match v with
          | VStr s => int_le_float (Z.of_nat (String.length s)) max_value
          | _ => false
          end)
  | Some LIST =>
      Ok (match v with
          | VList l => int_le_float (Z.of_nat (length l)) max_value
          | _ => false
          end)
  | Some NUMERIC | Some INTEGER =>
      Ok (match v with
          | VBool b => int_le_float (if b then 1%Z else 0%Z) max_value
          | VInt z => int_le_float z max_value
          | _ => false
          end)
  | _ => Raise NotImplementedError
  end.

Definition message (self : Rule.t) (attribute : string) (v : value) (params : list param)
  : result string :=
  let value_type := Rule.get_value_type self in
  message_key <-
    match value_type with
    | Some STRING => Ok "en.max.string"
    | Some LIST => Ok "en.max.list"
    | Some NUMERIC | Some INTEGER => Ok "en.max.numeric"
    | _ => Raise NotImplementedError
    end ;;
  p <- index params 0 ;;
  Ok (trans message_key [("attribute", PStr attribute); ("max", p)]).

End WithExternals.
End MaxRule.

Module IntegerRule.
Section WithExternals.
Context `{Externals}.

Definition passes (self : Rule.t) (attribute : string) (v : value) (params : list param)
  : result bool :=
  Ok (is_int v).

Definition message (self : Rule.t) (attribute : string) (v : value) (params : list param)
  : result string :=
  Ok (trans "en.integer" [("attribute", PStr attribute)]).

End WithExternals.
End IntegerRule.

Module NumericRule.
Section WithExternals.
Context `{Externals}.

Definition passes (self : Rule.t) (attribute : string) (v : value) (params : list param)
  : result bool :=
  Ok (is_Number v).

Definition message (self : Rule.t) (attribute : string) (v : value) (params : list param)
  : result string :=
  Ok (trans "en.numeric" [("attribute", PStr attribute)]).

End WithExternals.
End NumericRule.

Module BooleanRule.
Section WithExternals.
Context `{Externals}.

Definition passes (self : Rule.t) (attribute : string) (v : value) (params : list param)
  : result bool :=
  Ok (is_bool v).

Definition message (self : Rule.t) (attribute : string) (v : value) (params : list param)
  : result string :=
  Ok (trans "en.boolean" [("attribute", PStr attribute)]).

End WithExternals.
End BooleanRule.

(** [value == p] for a rule parameter: a parameter that is a tuple equals no
    JSON value, one that is a list of tuples equals the empty list only when
    it is empty itself. *)
Definition eq_param (v : value) (p : param) : bool :=
  match p with
  | PStr s => py_eq v (VStr s)
  | PDetails (Single _ _) => false
  | PDetails (Multi items) =>
      match v, items with
      | VList [], [] => true
      | _, _ => false
      end
  end.

Module InRule.
Section WithExternals.
Context `{Externals}.

(** [value in params] *)
Definition passes (self : Rule.t) (attribute : string) (v : value) (params : list param)
  : result bool :=
  Ok (existsb (eq_param v) params).

Definition message (self : Rule.t) (attribute : string) (v : value) (params : list param)
  : result string :=
  Ok (trans "en.in" [("attribute", PStr attribute)]).

End WithExternals.
End InRule.

Module NotInRule.
Section WithExternals.
Context `{Externals}.

(** [value not in params] *)
Definition passes (self : Rule.t) (attribute : string) (v : value) (params : list param)
  : result bool :=
  Ok (negb (existsb (eq_param v) params)).

Definition message (self : Rule.t) (attribute : string) (v : value) (params : list param)
  : result string :=
  Ok (trans "en.not_in" [("attribute", PStr attribute)]).

End WithExternals.
End NotInRule.

Module SameRule.
Section WithExternals.
Context `{Externals}.

(** [other_value, other_value_exists = params[1]] unpacks whatever stands at
    index 1: the tuple the resolver returned, a list of two tuples (the
    first of which equals no JSON value), or a parameter string of two
    characters; anything else is a [ValueError]. *)
Definition passes (self : Rule.t) (attribute : string) (v : value) (params : list param)
  : result bool :=
  p <- index params 1 ;;
  match p with
  | PDetails (Single other_value other_value_exists) => Ok (py_eq v other_value)
  | PDetails (Multi [_; _]) => Ok false
  | PDetails (Multi _) => Raise ValueError
  | PStr s =>
      match Str.chars s with
      | [other_value; _] => Ok (py_eq v (VStr other_value))
      | _ => Raise ValueError
      end
  end.

Definition message (self : Rule.t) (attribute : string) (v : value) (params : list param)
  : result string :=
  p <- index params 0 ;;
  Ok (trans "en.same" [("attribute", PStr attribute); ("other", p)]).

End WithExternals.
End SameRule.

Module EmailRule.
Section WithExternals.
Context `{Externals}.

Definition regex : string :=
  "\b[A-Za-z0-9._%+-]+@[A-Za-z0-9.-]+\.[A-Z|a-z]{2,}\b".

(** [regex_match(regex, value or '')], read as a truth value *)
Definition passes (self : Rule.t) (attribute : string) (v : value) (params : list param)
  : result bool :=
  match (if truthy v then v else VStr "") with
  | VStr s => Ok (regex_match regex s)
  | _ => Raise TypeError
  end.

Definition message (self : Rule.t) (attribute : string) (v : value) (params : list param)
  : result string :=
  Ok (trans "en.email" [("attribute", PStr attribute)]).

End WithExternals.
End EmailRule.

Module ListRule.
Section WithExternals.
Context `{Externals}.

(** the loop over the items of the list *)
Fixpoint check_items (list_item_type : ValueType) (items : list value) : result bool :=
  match items with
  | [] => Ok true
  | list_item :: rest =>
      match list_item_type with
      | DICT => if is_dict list_item then check_items list_item_type rest else Ok false
      | STRING => if is_str list_item then check_items list_item_type rest else Ok false
      | INTEGER => if is_int list_item then check_items list_item_type rest else Ok false
      | NUMERIC => if is_Number list_item then check_items list_item_type rest else Ok false
      | LIST => Raise NotImplementedError
      end
  end.

Definition passes (self : Rule.t) (attribute : string) (v : value) (params : list param)
  : result bool :=
  let result := is_list v in
  match v, params with
  | VList ((_ :: _) as items), p :: _ =>
      list_item_type <-
        match p with
        | PStr s =>
            match ValueType_of s with
            | Some t => Ok t
            | None => Raise ValueError
            end
        | PDetails _ => Raise ValueError
        end ;;
      check_items list_item_type items
  | _, _ => Ok result
  end.

Definition message (self : Rule.t) (attribute : string) (v : value) (params : list param)
  : result string :=
  match params with
  | p :: _ => Ok (trans "en.list_item_type" [("attribute", PStr attribute); ("type", p)])
  | [] => Ok (trans "en.list" [("attribute", PStr attribute)])
  end.

End WithExternals.
End ListRule.

Module DictRule.
Section WithExternals.
Context `{Externals}.

Definition passes (self : Rule.t) (attribute : string) (v : value) (params : list param)
  : result bool :=
  Ok (is_dict v).

Definition message (self : Rule.t) (attribute : string) (v : value) (params : list param)
  : result string :=
  Ok (trans "en.dict" [("attribute", PStr attribute)]).

End WithExternals.
End DictRule.

Module DateRule.
Section WithExternals.
Context `{Externals}.

Definition passes (self : Rule.t) (attribute : string) (v : value) (params : list param)
  : result bool :=
  (* Rejecting the Sandglass parsing special keys for the date rule. *)
  if is_parse_special_key v then Ok false
  else
    Ok (except_Exception
          (date_format <-
             match params with
             | [] => Ok None
             | _ => fmap_result Some (join_params params)
             end ;;
           _ <- Sandglass v date_format ;;
           Ok true)
          false).

Definition message (self : Rule.t) (attribute : string) (v : value) (params : list param)
  : result string :=
  match params with
  | [] => Ok (trans "en.date" [("attribute", PStr attribute)])
  | _ =>
      format <- join_params params ;;
      Ok (trans "en.date_format" [("attribute", PStr attribute); ("format", PStr format)])
  end.

End WithExternals.
End DateRule.

(** The four comparison rules differ in the comparison and the message key
    only; [compare_days] is their common body
    [Sandglass(value).start_of_day() <op> Sandglass(params[0]).start_of_day()]
    inside [try ... except Exception: return False]. *)
Definition compare_days `{Externals} (op : Z -> Z -> bool) (v : value) (params : list param)
  : bool :=
  except_Exception
    (date <- Sandglass v None ;;
     p <- index params 0 ;;
     text <- value_of_param p ;;
     other <- Sandglass text None ;;
     Ok (op (start_of_day date) (start_of_day other)))
    false.

Module AfterRule.
Section WithExternals.
Context `{Externals}.

Definition passes (self : Rule.t) (attribute : string) (v : value) (params : list param)
  : result bool :=
  if is_parse_special_key v then Ok false
  else Ok (compare_days Z.gtb v params).

Definition message (self : Rule.t) (attribute : string) (v : value) (params : list param)
  : result string :=
  p <- index params 0 ;;
  Ok (trans "en.after" [("attribute", PStr attribute); ("date", p)]).

End WithExternals.
End AfterRule.

Module AfterOrEqualRule.
Section WithExternals.
Context `{Externals}.

Definition passes (self : Rule.t) (attribute : string) (v : value) (params : list param)
  : result bool :=
  if is_parse_special_key v then Ok false
  else Ok (compare_days Z.geb v params).

Definition message (self : Rule.t) (attribute : string) (v : value) (params : list param)
  : result string :=
  p <- index params 0 ;;
  Ok (trans "en.after_or_equal" [("attribute", PStr attribute); ("date", p)]).

End WithExternals.
End AfterOrEqualRule.

Module BeforeRule.
Section WithExternals.
Context `{Externals}.

Definition passes (self : Rule.t) (attribute : string) (v : value) (params : list param)
  : result bool :=
  if is_parse_special_key v then Ok false
  else Ok (compare_days Z.ltb v params).

Definition message (self : Rule.t) (attribute : string) (v : value) (params : list param)
  : result string :=
  p <- index params 0 ;;
  Ok (trans "en.before" [("attribute", PStr attribute); ("date", p)]).

End WithExternals.
End BeforeRule.

Module BeforeOrEqualRule.
Section WithExternals.
Context `{Externals}.

Definition passes (self : Rule.t) (attribute : string) (v : value) (params : list param)
  : result bool :=
  if is_parse_special_key v then Ok false
  else Ok (compare_days Z.leb v params).

Definition message (self : Rule.t) (attribute : string) (v : value) (params : list param)
  : result string :=
  p <- index params 0 ;;
  Ok (trans "en.before_or_equal" [("attribute", PStr attribute); ("date", p)]).

End WithExternals.
End BeforeOrEqualRule.

(** *** Dynamic dispatch: [rule.passes(...)] and [rule.message(...)] *)

Definition passes `{Externals} (rule : Rule.t) : string -> value -> list param -> result bool :=
  match Rule.cls rule with
  | cRequired => RequiredRule.passes rule
  | cNullable => NullableRule.passes rule
  | cString => StringRule.passes rule
  | cMin => MinRule.passes rule
  | cMax => MaxRule.passes rule
  | cInteger => IntegerRule.passes rule
  | cNumeric => NumericRule.passes rule
  | cBoolean => BooleanRule.passes rule
  | cIn => InRule.passes rule
  | cNotIn => NotInRule.passes rule
  | cSame => SameRule.passes rule
  | cEmail => EmailRule.passes rule
  | cList => ListRule.passes rule
  | cDict => DictRule.passes rule
  | cDate => DateRule.passes rule
  | cAfter => AfterRule.passes rule
  | cAfterOrEqual => AfterOrEqualRule.passes rule
  | cBefore => BeforeRule.passes rule
  | cBeforeOrEqual => BeforeOrEqualRule.passes rule
  end.

Definition message `{Externals} (rule : Rule.t) : string -> value -> list param -> result string :=
  match Rule.cls rule with
  | cRequired => RequiredRule.message rule
  | cNullable => NullableRule.message rule
  | cString => StringRule.message rule
  | cMin => MinRule.message rule
  | cMax => MaxRule.message rule
  | cInteger => IntegerRule.message rule
  | cNumeric => NumericRule.message rule
  | cBoolean => BooleanRule.message rule
  | cIn => InRule.message rule
  | cNotIn => NotInRule.message rule
  | cSame => SameRule.message rule
  | cEmail => EmailRule.message rule
  | cList => ListRule.message rule
  | cDict => DictRule.message rule
  | cDate => DateRule.message rule
  | cAfter => AfterRule.message rule
  | cAfterOrEqual => AfterOrEqualRule.message rule
  | cBefore => BeforeRule.message rule
  | cBeforeOrEqual => BeforeOrEqualRule.message rule
  end.

(** ** Ordered dictionaries

    An [OrderedDict] with [str] keys is the list of its items in insertion
    order; [setitem] is [d[key] = x], which keeps the position of a key that
    is already present. *)

Fixpoint setitem {A : Type} (d : list (string * A)) (key : string) (x : A)
  : list (string * A) :=
  match d with
  | [] => [(key, x)]
  | (k, y) :: d' =>
      if String.eqb k key then (key, x) :: d' else (k, y) :: setitem d' key x
  end.

(** [key in d] *)
Definition contains {A : Type} (d : list (string * A)) (key : string) : bool :=
  match dict_get key d with
  | Some _ => true
  | None => false
  end.

(** ** Ghost events

    The log is not part of the program state and nothing reads it: it
    records that the main loop of [Validator.validate] reached a declared
    field, that a predicate was called, and that an error message was
    appended to the accumulator of a Ruleset. *)

Inductive event : Type :=
| EvField (attribute : string)
| EvPasses (attribute rule_name : string)
| EvMessage (attribute rule_name msg : string).

(** ** Rulesets *)

(** What a rule expression is given as: a pipe-delimited string or a list of
    rule tokens.  (Rule objects and Ruleset subclasses passed in a list can
    carry predicates of their own; they are left out.) *)
Inductive rules_arg : Type :=
| RulesStr (s : string)
| RulesList (l : list string).

(** The names of [rules.py]'s module namespace that end in [Rule]: the
    built-in classes, the abstract base class [Rule], and the imported
    exception class [InvalidRule]. *)
Inductive global : Type :=
| GRuleClass (c : rule_class)
| GRule
| GInvalidRule.

Definition globals_get (name : string) : option global :=
  if String.eqb name "RequiredRule" then Some (GRuleClass cRequired)
  else if String.eqb name "NullableRule" then Some (GRuleClass cNullable)
  else if String.eqb name "StringRule" then Some (GRuleClass cString)
  else if String.eqb name "MinRule" then Some (GRuleClass cMin)
  else if String.eqb name "MaxRule" then Some (GRuleClass cMax)
  else if String.eqb name "IntegerRule" then Some (GRuleClass cInteger)
  else if String.eqb name "NumericRule" then Some (GRuleClass cNumeric)
  else if String.eqb name "BooleanRule" then Some (GRuleClass cBoolean)
  else if String.eqb name "InRule" then Some (GRuleClass cIn)
  else if String.eqb name "NotInRule" then Some (GRuleClass cNotIn)
  else if String.eqb name "SameRule" then Some (GRuleClass cSame)
  else if String.eqb name "EmailRule" then Some (GRuleClass cEmail)
  else if String.eqb name "ListRule" then Some (GRuleClass cList)
  else if String.eqb name "DictRule" then Some (GRuleClass cDict)
  else if String.eqb name "DateRule" then Some (GRuleClass cDate)
  else if String.eqb name "AfterRule" then Some (GRuleClass cAfter)
  else if String.eqb name "AfterOrEqualRule" then Some (GRuleClass cAfterOrEqual)
  else if String.eqb name "BeforeRule" then Some (GRuleClass cBefore)
  else if String.eqb name "BeforeOrEqualRule" then Some (GRuleClass cBeforeOrEqual)
  else if String.eqb name "Rule" then Some GRule
  else if String.eqb name "InvalidRule" then Some GInvalidRule
  else None.

Module Ruleset.
Section WithExternals.
Context `{Externals}.

Record t : Type := {
  _rules : list (string * Rule.t);
  _errors : list string
}.

(** [f"{''.join([_.capitalize() for _ in _rule_name.split('_')])}Rule"] *)
Definition class_name (_rule_name : string) : string :=
  Str.join "" (map Str.capitalize (Str.split "_" _rule_name)) +:+ "Rule".

Definition _split_rule_params (rule_params : string) : list string :=
  if String.eqb rule_params "" then [] else Str.split "," rule_params.

(** The loop of [_parse] over the rule tokens.  The abstract class [Rule]
    cannot be instantiated ([TypeError]).  An instance of the exception class
    [InvalidRule] is stored like a rule, and [_set_rules_metadata] then fails
    on it with [AttributeError]: the flag records that one was stored. *)
Fixpoint _parse_loop (rules_list : list string) (parsed_rules : list (string * Rule.t))
    (stray : bool) : result (list (string * Rule.t) * bool) :=
  match rules_list with
  | [] => Ok (parsed_rules, stray)
  | _rule :: rest =>
      let _rule_params := Str.split ":" _rule in
      let _rule_name := hd "" _rule_params in
      let _rule_params := _split_rule_params (Str.join ":" (tl _rule_params)) in
      match globals_get (class_name _rule_name) with
      | Some (GRuleClass rule_class) =>
          _parse_loop rest
            (setitem parsed_rules _rule_name (Rule.init rule_class (map PStr _rule_params)))
            stray
      | Some GRule => Raise TypeError
      | Some GInvalidRule => _parse_loop rest parsed_rules true
      | None => Raise (InvalidRule ("Invalid rule: " +:+ _rule_name))
      end
  end.

Definition _parse (rules : rules_arg) : result (list (string * Rule.t) * bool) :=
  let rules_list :=
    match rules with
    | RulesList l => l
    | RulesStr s => Str.split "|" s
    end in
  _parse_loop rules_list [] false.

Definition get_rule (self : t) (rule_name : string) : option Rule.t :=
  dict_get rule_name (_rules self).

Definition get_rules (self : t) : list (string * Rule.t) := _rules self.

Definition has_rule (self : t) (rule_name : string) : bool :=
  contains (_rules self) rule_name.

(** the first rule name that is a member of [ValueType], else [STRING] *)
Fixpoint first_value_type (names : list string) : ValueType :=
  match names with
  | [] => STRING
  | rule_name :: rest =>
      match ValueType_of rule_name with
      | Some value_type => value_type
      | None => first_value_type rest
      end
  end.

Definition get_value_type (self : t) : ValueType :=
  first_value_type (map fst (_rules self)).

Definition _set_rules_metadata (self : t) : t :=
  let value_type := get_value_type self in
  let is_required := contains (_rules self) "required" in
  let is_nullable := contains (_rules self) "nullable" in
  {| _rules :=
       map (fun item =>
              (fst item,
               Rule.set_metadata (snd item)
                 [m_value_type value_type; m_required is_required; m_nullable is_nullable]))
           (_rules self);
     _errors := _errors self |}.

(** [Ruleset(rules)] *)
Definition init (rules : rules_arg) : result t :=
  parsed <- _parse rules ;;
  if (snd parsed : bool) then Raise AttributeError
  else Ok (_set_rules_metadata {| _rules := fst parsed; _errors := [] |}).

Definition has_error (self : t) : bool :=
  match _errors self with
  | [] => false
  | _ => true
  end.

Definition errors (self : t) : list string := _errors self.

(** The body of the loop of [validate] for one rule: the rule as the
    iteration leaves it, the events of the iteration, and the message to
    append, if any.  An exception leaves the temporary metadata in place. *)
Definition validate_rule (attribute : string) (v : value) (value_exists : bool)
    (rule_name : string) (rule : Rule.t) : Rule.t * list event * result (option string) :=
  (* Adding the temporary metadata *)
  let rule := Rule.set_metadata rule [m_value_exists value_exists; m_value v] in
  if Rule.is_skippable rule then
    (Rule.unset_metadata rule [k_value_exists; k_value], [], Ok None)
  else
    match passes rule attribute v (Rule.get_params rule) with
    | Raise e => (rule, [EvPasses attribute rule_name], Raise e)
    | Ok true =>
        (Rule.unset_metadata rule [k_value_exists; k_value],
         [EvPasses attribute rule_name], Ok None)
    | Ok false =>
        match message rule attribute v (Rule.get_params rule) with
        | Raise e => (rule, [EvPasses attribute rule_name], Raise e)
        | Ok msg =>
            (Rule.unset_metadata rule [k_value_exists; k_value],
             [EvPasses attribute rule_name; EvMessage attribute rule_name msg],
             Ok (Some msg))
        end
    end.

(** The loop of [validate] over the rules, from the accumulator [errs]. *)
Fixpoint validate_rules (attribute : string) (v : value) (value_exists : bool)
    (rules : list (string * Rule.t)) (errs : list string)
  : list (string * Rule.t) * list string * list event * result unit :=
  match rules with
  | [] => ([], errs, [], Ok tt)
  | (rule_name, rule) :: rest =>
      match validate_rule attribute v value_exists rule_name rule with
      | (rule', log, Raise e) => ((rule_name, rule') :: rest, errs, log, Raise e)
      | (rule', log, Ok appended) =>
          let errs' :=
            match appended with
            | Some msg => errs ++ [msg]
            | None => errs
            end in
          match validate_rules attribute v value_exists rest errs' with
          | (rest', errs'', log', out) =>
              ((rule_name, rule') :: rest', errs'', log ++ log', out)
          end
      end
  end.

(** [ruleset.validate(attribute, value, value_exists)]: the Ruleset after the
    call, the events of the call, and how the call ends. *)
Definition validate (self : t) (attribute : string) (v : value) (value_exists : bool)
  : t * list event * result unit :=
  match validate_rules attribute v value_exists (_rules self) (_errors self) with
  | (rules, errs, log, out) =>
      let self' := {| _rules := rules; _errors := errs |} in
      (self', log,
       _ <- out ;;
       if has_error self' then Raise ValidationError else Ok tt)
  end.

End WithExternals.
End Ruleset.

Module RuleList.
Section WithExternals.
Context `{Externals}.

(** the rules of every field, by attribute *)
Definition t : Type := list (string * Ruleset.t).

Fixpoint _parse_loop (rules : list (string * rules_arg)) (parsed_rules : t) : result t :=
  match rules with
  | [] => Ok parsed_rules
  | (attribute, _rules) :: rest =>
      ruleset <- Ruleset.init _rules ;;
      _parse_loop rest (setitem parsed_rules attribute ruleset)
  end.

Definition _parse (rules : list (string * rules_arg)) : result t :=
  _parse_loop rules [].

Definition init (rules : list (string * rules_arg)) : result t := _parse rules.

End WithExternals.
End RuleList.

(** ** The Validator *)

(** [deepcopy(ruleset)]: values are not shared, the copy is the value. *)
Definition deepcopy (ruleset : Ruleset.t) : Ruleset.t := ruleset.

Module Validator.
Section WithExternals.
Context `{Externals}.

(** What [self._errors] binds to a path.  [self._errors[attribute] =
    ruleset.errors()] stores the list object of the field's own Ruleset,
    which a later [validate] appends to: the entry is an alias
    ([FieldErrors]) and is read through the Ruleset.  The lists of clones and
    of extra rules belong to objects that are dropped ([Owned]). *)
Inductive errors_entry : Type :=
| FieldErrors
| Owned (l : list string).

Record t : Type := {
  _data : value;
  _rules : RuleList.t;
  _errors : gmap string errors_entry
}.

(** [Validator(data, rules)] *)
Definition init (data : value) (rules : list (string * rules_arg)) : result t :=
  rule_list <- RuleList.init rules ;;
  Ok {| _data := data; _rules := rule_list; _errors := ∅ |}.

(** An extra rule: [(extra_attribute, Ruleset('required'), extra_rule_value)] *)
Definition extra_rule : Type := (string * Ruleset.t * value)%type.

Fixpoint _extract_list_details (attribute : string) (_index : nat) (_value : details)
    {struct _value} : string * details :=
  let attribute := Str.replace_first ".*" ("." +:+ Str.of_nat _index) attribute in
  match _value with
  | Multi ((_index', _value') :: _) =>
      (* Recursive *)
      _extract_list_details attribute _index' _value'
  | _ => (attribute, _value)
  end.

(** [value.get(dict_parameter)] inside [try ... except Exception: None] *)
Definition get_or_None (v : value) (dict_parameter : param) : value :=
  match v, dict_parameter with
  | VDict d, PStr key =>
      match dict_get key d with
      | Some x => x
      | None => VNone
      end
  | _, _ => VNone
  end.

Fixpoint extra_rules_of (attribute : string) (v : value) (dict_parameters : list param)
  : result (list extra_rule) :=
  match dict_parameters with
  | [] => Ok []
  | dict_parameter :: rest =>
      let extra_attribute := attribute +:+ "." +:+ str dict_parameter in
      let extra_rule_value := get_or_None v dict_parameter in
      required <- Ruleset.init (RulesStr "required") ;;
      more <- extra_rules_of attribute v rest ;;
      Ok ((extra_attribute, required, extra_rule_value) :: more)
  end.

Definition _get_extra_rules (attribute : string) (v : value) (ruleset : Ruleset.t)
  : result (list extra_rule) :=
  if ValueType_eqb (Ruleset.get_value_type ruleset) DICT then
    match Ruleset.get_rule ruleset "dict" with
    | Some dict_rule => extra_rules_of attribute v (Rule.get_params dict_rule)
    | None => Raise AttributeError
    end
  else Ok [].

Definition has_error (self : t) : bool :=
  negb (bool_decide (_errors self = ∅)).

(** [self.errors()], with every alias read through its Ruleset *)
Definition errors (self : t) : gmap string (list string) :=
  map_imap
    (fun attribute entry =>
       Some match entry with
            | FieldErrors =>
                match dict_get attribute (_rules self) with
                | Some ruleset => Ruleset.errors ruleset
                | None => []
                end
            | Owned l => l
            end)
    (_errors self).

Definition _modify_dependent_rules (data : value) (ruleset : Ruleset.t) : result Ruleset.t :=
  (* The rules are mutable object *)
  if Ruleset.has_rule ruleset "same" then
    match Ruleset.get_rule ruleset "same" with
    | Some same_rule =>
        other_attribute <- index (Rule.get_params same_rule) 0 ;;
        match other_attribute with
        | PStr other_attribute =>
            let other_value_details := JsonSchema.get_value_details data other_attribute in
            Ok {| Ruleset._rules :=
                    setitem (Ruleset._rules ruleset) "same"
                      (Rule.add_param same_rule (PDetails other_value_details));
                  Ruleset._errors := Ruleset._errors ruleset |}
        | PDetails _ => Raise AttributeError
        end
    | None => Raise AttributeError
    end
  else Ok ruleset.

(** The inner loop of [validate] over the elements a wildcard path resolved
    to.  [_extract_list_details] returns a tuple or an empty list; unpacking
    the latter is a [ValueError]. *)
Fixpoint validate_items (attribute : string) (ruleset : Ruleset.t)
    (value_details : list (nat * details))
    (errs : gmap string errors_entry) (extra_rules : list extra_rule)
  : gmap string errors_entry * list extra_rule * list event * result unit :=
  match value_details with
  | [] => (errs, extra_rules, [], Ok tt)
  | list_item :: rest =>
      let ruleset_clone := deepcopy ruleset in
      let '(item_attribute, item_value_details) :=
        _extract_list_details attribute (fst list_item) (snd list_item) in
      match item_value_details with
      | Multi _ => (errs, extra_rules, [], Raise ValueError)
      | Single item_value value_exists =>
          match Ruleset.validate ruleset_clone item_attribute item_value value_exists with
          | (ruleset_clone, log, Ok _) =>
              match _get_extra_rules item_attribute item_value ruleset_clone with
              | Raise e => (errs, extra_rules, log, Raise e)
              | Ok more =>
                  match validate_items attribute ruleset rest errs (extra_rules ++ more) with
                  | (errs', extra_rules', log', out) =>
                      (errs', extra_rules', log ++ log', out)
                  end
              end
          | (ruleset_clone, log, Raise ValidationError) =>
              match validate_items attribute ruleset rest
                      (<[item_attribute := Owned (Ruleset.errors ruleset_clone)]> errs)
                      extra_rules with
              | (errs', extra_rules', log', out) => (errs', extra_rules', log ++ log', out)
              end
          | (ruleset_clone, log, Raise e) => (errs, extra_rules, log, Raise e)
          end
      end
  end.

(** The body of the main loop of [validate] for one declared field: the
    field's Ruleset as the iteration leaves it, the errors and the extra
    rules collected so far, the events, and how the iteration ends. *)
Definition validate_field (data : value) (attribute : string) (ruleset : Ruleset.t)
    (errs : gmap string errors_entry) (extra_rules : list extra_rule)
  : Ruleset.t * gmap string errors_entry * list extra_rule * list event * result unit :=
  match _modify_dependent_rules data ruleset with
  | Raise e => (ruleset, errs, extra_rules, [], Raise e)
  | Ok ruleset =>
      match JsonSchema.get_value_details data attribute with
      | Multi value_details =>
          match validate_items attribute ruleset value_details errs extra_rules with
          | (errs', extra_rules', log, out) => (ruleset, errs', extra_rules', log, out)
          end
      | Single v value_exists =>
          match Ruleset.validate ruleset attribute v value_exists with
          | (ruleset, log, Ok _) =>
              match _get_extra_rules attribute v ruleset with
              | Raise e => (ruleset, errs, extra_rules, log, Raise e)
              | Ok more => (ruleset, errs, extra_rules ++ more, log, Ok tt)
              end
          | (ruleset, log, Raise ValidationError) =>
              (ruleset, <[attribute := FieldErrors]> errs, extra_rules, log, Ok tt)
          | (ruleset, log, Raise e) => (ruleset, errs, extra_rules, log, Raise e)
          end
      end
  end.

(** The main loop over the declared fields, in order.  The Rulesets are
    mutated in place: the list of fields is returned as the loop leaves
    it. *)
Fixpoint validate_fields (data : value) (fields : RuleList.t)
    (errs : gmap string errors_entry) (extra_rules : list extra_rule)
  : RuleList.t * gmap string errors_entry * list extra_rule * list event * result unit :=
  match fields with
  | [] => ([], errs, extra_rules, [], Ok tt)
  | (attribute, ruleset) :: rest =>
      match validate_field data attribute ruleset errs extra_rules with
      | (ruleset', errs', extra_rules', log, Raise e) =>
          ((attribute, ruleset') :: rest, errs', extra_rules',
           EvField attribute :: log, Raise e)
      | (ruleset', errs', extra_rules', log, Ok _) =>
          match validate_fields data rest errs' extra_rules' with
          | (rest', errs'', extra_rules'', log', out) =>
              ((attribute, ruleset') :: rest', errs'', extra_rules'',
               EvField attribute :: log ++ log', out)
          end
      end
  end.

(** The loop over the extra rules *)
Fixpoint validate_extra_rules (extra_rules : list extra_rule)
    (errs : gmap string errors_entry)
  : gmap string errors_entry * list event * result unit :=
  match extra_rules with
  | [] => (errs, [], Ok tt)
  | (extra_attribute, extra_rule, extra_value) :: rest =>
      match Ruleset.validate extra_rule extra_attribute extra_value true with
      | (extra_rule, log, Ok _) =>
          match validate_extra_rules rest errs with
          | (errs', log', out) => (errs', log ++ log', out)
          end
      | (extra_rule, log, Raise ValidationError) =>
          match validate_extra_rules rest
                  (<[extra_attribute := Owned (Ruleset.errors extra_rule)]> errs) with
          | (errs', log', out) => (errs', log ++ log', out)
          end
      | (extra_rule, log, Raise e) => (errs, log, Raise e)
      end
  end.

(** [validator.validate()]: the Validator after the call, the events of the
    call, and how the call ends. *)
Definition validate (self : t) : t * list event * result unit :=
  match validate_fields (_data self) (_rules self) (_errors self) [] with
  | (rules, errs, extra_rules, log, Raise e) =>
      ({| _data := _data self; _rules := rules; _errors := errs |}, log, Raise e)
  | (rules, errs, extra_rules, log, Ok _) =>
      (* Validate the extra rules *)
      match validate_extra_rules extra_rules errs with
      | (errs', log', out) =>
          let self' := {| _data := _data self; _rules := rules; _errors := errs' |} in
          (self', log ++ log',
           _ <- out ;;
           if has_error self' then Raise ValidationError else Ok tt)
      end
  end.

(** [try: self.validate() except ValidationError: pass] *)
Definition swallow (out : result unit) : result unit :=
  match out with
  | Raise ValidationError => Ok tt
  | _ => out
  end.

Definition fails (self : t) : t * result bool :=
  match validate self with
  | (self', _, out) => (self', _ <- swallow out ;; Ok (has_error self'))
  end.

Definition passes (self : t) : t * result bool :=
  match validate self with
  | (self', _, out) => (self', _ <- swallow out ;; Ok (negb (has_error self')))
  end.

End WithExternals.
End Validator.

(** ** Construction followed by validation *)

(** [Validator(data, rules)] followed by [validate()] on the new instance *)
Definition construct_and_validate `{Externals} (data : value)
    (rules : list (string * rules_arg))
  : result (Validator.t * list event * result unit) :=
  self <- Validator.init data rules ;; Ok (Validator.validate self).

(** the error messages a log records, in order *)
Fixpoint messages_of (log : list event) : list string :=
  match log with
  | [] => []
  | EvMessage _ _ msg :: log' => msg :: messages_of log'
  | _ :: log' => messages_of log'
  end.

(** the declared fields a log records as reached, in order *)
Fixpoint fields_of (log : list event) : list string :=
  match log with
  | [] => []
  | EvField attribute :: log' => attribute :: fields_of log'
  | _ :: log' => fields_of log'
  end.

(** an outcome that is a configuration error: an exception other than
    [ValidationError] *)
Definition configuration_error {A : Type} (out : result A) : bool :=
  match out with
  | Ok _ => false
  | Raise e => negb (is_ValidationError e)
  end.

(** ** One concrete choice of the external collaborators

    Used where a statement is evaluated on a closed input: a message is
    rendered as its key followed by its attributes, [float] reads decimal
    naturals, an instant is a number of hours, a date is written as the
    decimal number of its hour, and the three relative keywords denote
    fixed instants one day apart. *)

Definition render_param (p : param) : string :=
  match p with
  | PStr s => s
  | PDetails _ => "<details>"
  end.

Definition render (key : string) (attributes : list (string * param)) : string :=
  key +:+ "{"
  +:+ Str.join "," (map (fun kv => fst kv +:+ "=" +:+ render_param (snd kv)) attributes)
  +:+ "}".

Definition relative_keywords : list (string * Z) :=
  [("yesterday", 2376%Z); ("today", 2400%Z); ("tomorrow", 2424%Z)].

Definition plain_externals : Externals := {|
  trans := render;
  float_of_string := fun s =>
    option_map (fun n => FNum (inject_Z (Z.of_nat n))) (JsonSchema.index_of_segment s);
  str_of_details := fun _ => "<details>";
  regex_match := fun _ s => existsb (String.eqb "@") (Str.chars s);
  is_parse_special_key := fun v =>
    match v with
    | VStr s => contains relative_keywords s
    | _ => false
    end;
  Sandglass := fun v _ =>
    match v with
    | VStr s =>
        match dict_get s relative_keywords with
        | Some instant => Ok instant
        | None =>
            match JsonSchema.index_of_segment s with
            | Some n => Ok (Z.of_nat n)
            | None => Raise ValueError
            end
        end
    | _ => Raise TypeError
    end;
  start_of_day := fun instant => (instant / 24 * 24)%Z
|}.

(** ** The inputs of the worked examples *)

Definition items_data : value :=
  VDict [("items", VList [VDict [("price", VInt 1)]; VDict [("price", VStr "bad")]])].

Definition items_rules : list (string * rules_arg) :=
  [("items.*.price", RulesStr "required|numeric")].

Definition same_rules : list (string * rules_arg) := [("b", RulesStr "same:a")].

Definition same_data_equal : value := VDict [("a", VStr "x"); ("b", VStr "x")].

Definition same_data_differs : value := VDict [("a", VStr "x"); ("b", VStr "y")].

Definition person_data : value := VDict [("person", VDict [("name", VStr "x")])].

Definition person_rules : list (string * rules_arg) :=
  [("person", RulesStr "dict:name,age")].

Definition person_and_more_rules : list (string * rules_arg) :=
  [("person", RulesStr "dict:name,age"); ("zip", RulesStr "required")].

(** The Ruleset of the expression "nullable|string", and its [string]
    rule. *)
Definition nullable_string_metadata : Metadata :=
  {| meta_value_type := Some STRING; meta_required := Some false;
     meta_nullable := Some true; meta_value_exists := None; meta_value := None |}.

Definition string_rule : Rule.t :=
  {| Rule.cls := cString; Rule._params := []; Rule._metadata := nullable_string_metadata |}.

Definition nullable_string_ruleset : Ruleset.t :=
  {| Ruleset._rules :=
       [("nullable",
         {| Rule.cls := cNullable; Rule._params := [];
            Rule._metadata := nullable_string_metadata |});
        ("string", string_rule)];
     Ruleset._errors := [] |}.

(** Three declared fields, the second of which is a configuration error
    ([min] on a field declared [dict]). *)
Definition aborting_data : value := VDict [("b", VDict [("k", VInt 1)])].

Definition aborting_rules : list (string * rules_arg) :=
  [("a", RulesStr "required"); ("b", RulesStr "dict|min:1"); ("c", RulesStr "required")].

(** The reserved relative keywords the specification names. *)
Definition reserved_keywords : list string := ["today"; "tomorrow"; "yesterday"].

(** Modelled from the spec: the part of the contract of the date service
    ([portafilter.sandglass], not among the sources at hand) that section 6
    of the specification states for the reserved relative keywords: the
    service recognises them ([is_parse_special_key]) and resolves each to a
    comparison date. *)
Definition date_service_contract `{Externals} : Prop :=
  forall keyword, In keyword reserved_keywords ->
    is_parse_special_key (VStr keyword) = true /\
    exists instant, Sandglass (VStr keyword) None = Ok instant.

(** A numeric field that holds a float, with a minimum below it. *)
Definition float_data : value := VDict [("x", VFloat (5 # 2))].

Definition float_rules : list (string * rules_arg) := [("x", RulesStr "numeric|min:1")].

Definition numeric_min_rule : Rule.t :=
  {| Rule.cls := cMin; Rule._params := [PStr "1"];
     Rule._metadata :=
       {| meta_value_type := Some NUMERIC; meta_required := Some false;
          meta_nullable := Some false; meta_value_exists := None; meta_value := None |} |}.

(** A declared field that is required and absent. *)
Definition optional_data : value := VDict [].

Definition required_a_rules : list (string * rules_arg) := [("a", RulesStr "required")].

(** [validate()] called twice on one new instance: the instance after the
    first and after the second call *)
Definition validate_twice `{Externals} (data : value) (rules : list (string * rules_arg))
  : result (Validator.t * Validator.t) :=
  self <- Validator.init data rules ;;
  match Validator.validate self with
  | (self1, _, _) =>
      match Validator.validate self1 with
      | (self2, _, _) => Ok (self1, self2)
      end
  end.

(** ** Vocabulary of the statements *)

Definition is_PStr (p : param) : bool :=
  match p with
  | PStr _ => true
  | PDetails _ => false
  end.

(** The metadata [Ruleset.__init__] leaves on every rule of the Ruleset. *)
Definition declared_metadata (ruleset : Ruleset.t) : Metadata :=
  {| meta_value_type := Some (Ruleset.get_value_type ruleset);
     meta_required := Some (Ruleset.has_rule ruleset "required");
     meta_nullable := Some (Ruleset.has_rule ruleset "nullable");
     meta_value_exists := None;
     meta_value := None |}.

(** What the loop of [Ruleset._parse] establishes for a rule stored under
    [name]. *)
Definition parsed_ok (name : string) (rule : Rule.t) : Prop :=
  globals_get (Ruleset.class_name name) = Some (GRuleClass (Rule.cls rule)) /\
  forallb is_PStr (Rule._params rule) = true /\
  Rule._metadata rule = Rule._metadata (Rule.init (Rule.cls rule) []).

(** A computation that raises no [ValidationError]. *)
Definition not_validation {A : Type} (m : result A) : Prop :=
  forall e, m = Raise e -> e <> ValidationError.

(** A Ruleset that has accumulated no error message. *)
Definition fresh (ruleset : Ruleset.t) : Prop := Ruleset._errors ruleset = [].

Definition fresh_extra (x : Validator.extra_rule) : Prop := fresh (snd (fst x)).

(** the metadata [Ruleset.__init__] sets, which [validate] never touches *)
Definition persistent (m : Metadata) : option ValueType * option bool * option bool :=
  (meta_value_type m, meta_required m, meta_nullable m).

(** Two items of a Ruleset that [validate] cannot tell apart: the same name,
    class and declared metadata, and the same parameters, except that the
    parameters of the rule stored under "same" need only agree at the
    indices 0 and 1 its predicate and message read. *)
Definition agree_item (x y : string * Rule.t) : Prop :=
  fst x = fst y /\
  Rule.cls (snd x) = Rule.cls (snd y) /\
  persistent (Rule._metadata (snd x)) = persistent (Rule._metadata (snd y)) /\
  (Rule._params (snd x) = Rule._params (snd y) \/
   (fst x = "same" /\ Rule.cls (snd x) = cSame /\
    nth_error (Rule._params (snd x)) 0 = nth_error (Rule._params (snd y)) 0 /\
    nth_error (Rule._params (snd x)) 1 = nth_error (Rule._params (snd y)) 1)).

(** The rule stored under "same", if any, is a [SameRule] whose first
    parameter is a string and which has a second parameter: the state
    [_modify_dependent_rules] leaves behind. *)
Definition settled (rules : list (string * Rule.t)) : Prop :=
  forall rule, dict_get "same" rules = Some rule ->
    Rule.cls rule = cSame /\
    (exists other, nth_error (Rule._params rule) 0 = Some (PStr other)) /\
    nth_error (Rule._params rule) 1 <> None.

(** [self._errors[key] = entry] for a sequence of assignments *)
Definition apply_inserts (ins : list (string * Validator.errors_entry))
    (errs : gmap string Validator.errors_entry) : gmap string Validator.errors_entry :=
  fold_left (fun m kv => <[fst kv := snd kv]> m) ins errs.

(** the entry the last assignment to [key] in [ins] stores, if any *)
Fixpoint last_binding (key : string) (ins : list (string * Validator.errors_entry))
  : option Validator.errors_entry :=
  match ins with
  | [] => None
  | kv :: ins' =>
      match last_binding key ins' with
      | Some entry => Some entry
      | None => if String.eqb (fst kv) key then Some (snd kv) else None
      end
  end.

(** A Ruleset some rule expression builds. *)
Definition built (ruleset : Ruleset.t) : Prop :=
  exists rules, Ruleset.init rules = Ok ruleset.

(** The second of two fields has the name of the first, and its accumulator
    holds the messages of the first twice. *)
Definition doubled (field1 field2 : string * Ruleset.t) : Prop :=
  fst field1 = fst field2 /\
  Ruleset._errors (snd field2) = Ruleset._errors (snd field1) ++ Ruleset._errors (snd field1).

(** the character [c] does not occur in [s] *)
Fixpoint lacks (c : ascii) (s : string) : bool :=
  match s with
  | EmptyString => true
  | String c' s' => negb (Ascii.eqb c' c) && lacks c s'
  end.

(** the rule name of a token: what stands before its first colon *)
Definition token_name (token : string) : string := hd "" (Str.split ":" token).

(** the parameters of a token *)
Definition token_params (token : string) : list string :=
  Ruleset._split_rule_params (Str.join ":" (tl (Str.split ":" token))).

(** the tokens of a rule expression *)
Definition tokens_of (rules : rules_arg) : list string :=
  match rules with
  | RulesList l => l
  | RulesStr s => Str.split "|" s
  end.

(** the token names a built-in rule class *)
Definition names_rule_class (token : string) : Prop :=
  exists c, globals_get (Ruleset.class_name (token_name token)) = Some (GRuleClass c).

(** the names of a sequence, each at the place of its first occurrence *)
Definition add_name (seen : list string) (name : string) : list string :=
  if existsb (String.eqb name) seen then seen else seen ++ [name].

Definition first_occurrences (names : list string) : list string :=
  fold_left add_name names [].

(** the last token of the sequence that has the name [name] *)
Fixpoint last_token (name : string) (tokens : list string) : option string :=
  match tokens with
  | [] => None
  | token :: rest =>
      match last_token name rest with
      | Some found => Some found
      | None => if String.eqb (token_name token) name then Some token else None
      end
  end.

(** a rule that carries no temporary metadata *)
Definition settled_metadata (rule : Rule.t) : Prop :=
  meta_value_exists (Rule._metadata rule) = None /\ meta_value (Rule._metadata rule) = None.

(** the test that [list:<type>] applies to an item of the list *)
Definition has_item_type (item_type : ValueType) (item : value) : bool :=
  match item_type with
  | DICT => is_dict item
  | STRING => is_str item
  | INTEGER => is_int item
  | NUMERIC => is_Number item
  | LIST => false
  end.

(** the rule classes whose predicate or message reads [params[0]] (for
    [same]: [params[1]]) unconditionally *)
Definition needs_parameter (c : rule_class) : bool :=
  match c with
  | cMin | cMax | cSame | cAfter | cAfterOrEqual | cBefore | cBeforeOrEqual => true
  | _ => false
  end.

(** a result that is [True] *)
Definition is_Ok_true (r : result bool) : bool :=
  match r with
  | Ok true => true
  | _ => false
  end.

(** Two results of the resolver that agree along the first elements of
    their lists: at every level the first elements have the same index and
    agree in turn; the elements after the first are arbitrary. *)
Inductive same_heads : details -> details -> Prop :=
| same_heads_single (v : value) (value_exists : bool) :
    same_heads (Single v value_exists) (Single v value_exists)
| same_heads_empty : same_heads (Multi []) (Multi [])
| same_heads_cons (i : nat) (d d' : details) (rest rest' : list (nat * details)) :
    same_heads d d' ->
    same_heads (Multi ((i, d) :: rest)) (Multi ((i, d') :: rest')).

(** the values the predicate of [required] fails on a field that is not
    nullable *)
Definition is_missing (v : value) : bool :=
  match v with
  | VNone | VStr "" | VList [] | VDict [] => true
  | _ => false
  end.

(** [path] is the path of a sub-key of [attribute] among [dict_parameters]
    whose value in [v] is missing *)
Definition sub_key_missing `{Externals} (attribute : string) (v : value)
    (dict_parameters : list param) (path : string) : bool :=
  existsb
    (fun dict_parameter =>
       String.eqb (attribute +:+ "." +:+ str dict_parameter) path
       && is_missing (Validator.get_or_None v dict_parameter))
    dict_parameters.

(** every list the errors mapping owns holds a message *)
Definition owned_nonempty (errs : gmap string Validator.errors_entry) : Prop :=
  forall key messages, errs !! key = Some (Validator.Owned messages) -> messages <> [].

(** ** Iterating over a RuleList

    [RuleList] is its own iterator: [__iter__] stores a cursor in three
    attributes of the object and returns the object, [__next__] advances the
    cursor.  The object is modelled with its rules and the cursor, which is
    absent before the first call of [__iter__]. *)

Module RuleListIter.

Record cursor : Type := {
  _iter_current_index : nat;
  _iter_fields : list string;
  _iter_fields_count : nat
}.

Record t : Type := {
  _rules : RuleList.t;
  _iter : option cursor
}.

(** How a call of [__next__] ends: it returns an item, raises
    [StopIteration], raises [KeyError] for a field that is no key of the
    rules any more, or raises another exception. *)
Inductive step : Type :=
| Yield (item : string * Ruleset.t)
| StopIteration
| KeyError (key : string)
| Error (e : exn).

Definition __iter__ (self : t) : t :=
  let fields := map fst (_rules self) in
  {| _rules := _rules self;
     _iter := Some {| _iter_current_index := 0;
                      _iter_fields := fields;
                      _iter_fields_count := length fields |} |}.

Definition __next__ (self : t) : t * step :=
  match _iter self with
  | None => (self, Error AttributeError)
  | Some c =>
      if (_iter_current_index c <? _iter_fields_count c)%nat then
        match nth_error (_iter_fields c) (_iter_current_index c) with
        | None => (self, Error IndexError)
        | Some attribute =>
            let self' :=
              {| _rules := _rules self;
                 _iter := Some {| _iter_current_index := _iter_current_index c + 1;
                                  _iter_fields := _iter_fields c;
                                  _iter_fields_count := _iter_fields_count c |} |} in
            match dict_get attribute (_rules self) with
            | Some ruleset => (self', Yield (attribute, ruleset))
            | None => (self', KeyError attribute)
            end
        end
      else (self, StopIteration)
  end.

(** The items a [for] loop over the object receives from at most [fuel]
    calls of [__next__], and whether the loop was ended by
    [StopIteration]. *)
Fixpoint drain (fuel : nat) (self : t) : t * list (string * Ruleset.t) * bool :=
  match fuel with
  | O => (self, [], false)
  | S fuel' =>
      match __next__ self with
      | (self', Yield item) =>
          match drain fuel' self' with
          | (self'', items, stopped) => (self'', item :: items, stopped)
          end
      | (self', StopIteration) => (self', [], true)
      | (self', _) => (self', [], false)
      end
  end.

End RuleListIter.



(** * Properties *)

(** ** Basic facts about ordered dictionaries *)

Lemma dict_get_setitem_eq {A : Type} (d : list (string * A)) (key : string) (x : A) :
  dict_get key (setitem d key x) = Some x.
Proof.
  induction d as [|[k y] d IH]; simpl.
  - now rewrite String.eqb_refl.
  - destruct (String.eqb k key) eqn:E; simpl.
    + now rewrite String.eqb_refl.
    + now rewrite E.
Qed.

Lemma dict_get_setitem_ne {A : Type} (d : list (string * A)) (key key' : string) (x : A) :
  key <> key' -> dict_get key' (setitem d key x) = dict_get key' d.
Proof.
  intros Hne. induction d as [|[k y] d IH]; simpl.
  - destruct (String.eqb key key') eqn:E; [|reflexivity].
    apply String.eqb_eq in E. contradiction.
  - destruct (String.eqb k key) eqn:E; simpl.
    + apply String.eqb_eq in E. subst k.
      destruct (String.eqb key key') eqn:E'; [|reflexivity].
      apply String.eqb_eq in E'. contradiction.
    + now rewrite IH.
Qed.

Lemma dict_get_In {A : Type} (d : list (string * A)) (key : string) (x : A) :
  dict_get key d = Some x -> In (key, x) d.
Proof.
  induction d as [|[k y] d IH]; simpl; [discriminate|].
  destruct (String.eqb k key) eqn:E.
  - apply String.eqb_eq in E. intros [= ->]. subst. now left.
  - intros Hd. right. now apply IH.
Qed.

(** ** The worked examples *)

Section Examples.
Context `{Externals}.

(** C1: with the rules {"items.*.price": "required|numeric"} and the data
    {"items": [{"price": 1}, {"price": "bad"}]}, validation fails and the
    errors mapping is exactly {"items.1.price": [the numeric message for
    items.1.price]}: it has the key "items.1.price" and no key
    "items.0.price".  Each element was validated under its own concrete path
    (the log names items.0.price and items.1.price), on a clone: the Ruleset
    of the declared field has accumulated nothing.  In general, the path an
    element is validated and reported under is the declared path with the
    first ".*" replaced by "." and the element's index. *)
Theorem C1_wildcard_failure_keyed_by_element_path :
  (exists self' log,
    construct_and_validate items_data items_rules = Ok (self', log, Raise ValidationError) /\
    Validator.errors self' !! "items.1.price"
      = Some [trans "en.numeric" [("attribute", PStr "items.1.price")]] /\
    Validator.errors self' !! "items.0.price" = None /\
    Validator.errors self'
      = {[ "items.1.price" := [trans "en.numeric" [("attribute", PStr "items.1.price")]] ]} /\
    log = [EvField "items.*.price";
           EvPasses "items.0.price" "required"; EvPasses "items.0.price" "numeric";
           EvPasses "items.1.price" "required"; EvPasses "items.1.price" "numeric";
           EvMessage "items.1.price" "numeric"
             (trans "en.numeric" [("attribute", PStr "items.1.price")])] /\
    option_map Ruleset.errors (dict_get "items.*.price" (Validator._rules self')) = Some []) /\
  (forall attribute _index v value_exists,
    Validator._extract_list_details attribute _index (Single v value_exists)
    = (Str.replace_first ".*" ("." +:+ Str.of_nat _index) attribute, Single v value_exists)).
Proof.
  split; [|reflexivity].
  destruct (construct_and_validate items_data items_rules) as [[[self' log] out]|e] eqn:E;
    vm_compute in E; [|discriminate E].
  injection E as <- <- <-.
  do 2 eexists. split; [reflexivity|].
  repeat split; vm_compute; reflexivity.
Qed.

(** C4: with the rules {"b": "same:a"}, the data {"a": "x", "b": "x"}
    passes with no error, and the data {"a": "x", "b": "y"} fails with
    exactly one message for "b", the [en.same] message whose [other]
    attribute is the field name "a".  The mechanism: for a Ruleset whose
    [same] rule has the one parameter [other], [_modify_dependent_rules]
    appends what the resolver returns for [other] in the full input to the
    parameters of that rule; and on the parameters [other, (other_value,
    existed)] the predicate of [same] returns [value == other_value]. *)
Theorem C4_same_compares_with_the_resolved_other_field :
  (exists self' log,
    construct_and_validate same_data_equal same_rules = Ok (self', log, Ok tt) /\
    Validator.errors self' = ∅) /\
  (exists self' log,
    construct_and_validate same_data_differs same_rules
      = Ok (self', log, Raise ValidationError) /\
    Validator.errors self'
      = {[ "b" := [trans "en.same" [("attribute", PStr "b"); ("other", PStr "a")]] ]}) /\
  (forall data ruleset same_rule other,
    Ruleset.get_rule ruleset "same" = Some same_rule ->
    Rule.get_params same_rule = [PStr other] ->
    exists ruleset' same_rule',
      Validator._modify_dependent_rules data ruleset = Ok ruleset' /\
      Ruleset.get_rule ruleset' "same" = Some same_rule' /\
      Rule.get_params same_rule'
        = [PStr other; PDetails (JsonSchema.get_value_details data other)]) /\
  (forall self attribute v other other_value other_value_exists,
    SameRule.passes self attribute v
      [PStr other; PDetails (Single other_value other_value_exists)]
    = Ok (py_eq v other_value)).
Proof.
  split; [|split; [|split]].
  - destruct (construct_and_validate same_data_equal same_rules)
      as [[[self' log] out]|e] eqn:E; vm_compute in E; [|discriminate E].
    injection E as <- <- <-. do 2 eexists. split; [reflexivity|].
    vm_compute; reflexivity.
  - destruct (construct_and_validate same_data_differs same_rules)
      as [[[self' log] out]|e] eqn:E; vm_compute in E; [|discriminate E].
    injection E as <- <- <-. do 2 eexists. split; [reflexivity|].
    vm_compute; reflexivity.
  - intros data ruleset same_rule other Hget Hparams.
    unfold Validator._modify_dependent_rules, Ruleset.has_rule, contains, Ruleset.get_rule.
    unfold Ruleset.get_rule in Hget. rewrite Hget, Hparams. simpl.
    do 2 eexists. split; [reflexivity|].
    simpl. rewrite dict_get_setitem_eq.
    split; [reflexivity|].
    unfold Rule.get_params, Rule.add_param. simpl.
    unfold Rule.get_params in Hparams. now rewrite Hparams.
  - reflexivity.
Qed.

(** C5: with the rule "dict:name,age" on "person" and the data
    {"person": {"name": "x"}}, validation fails and the errors mapping is
    exactly {"person.age": [the required message for person.age]}: no key
    "person.name", no key "person".  The sub-key checks run after the main
    pass: with a second declared field "zip", the predicates of "zip" are
    called before those of "person.name" and "person.age".  In general, for
    a dict-typed Ruleset, [_get_extra_rules] yields, for every parameter of
    its [dict] rule, the path [attribute.parameter], a fresh
    [Ruleset('required')] and the sub-value, which is [None] when the key is
    missing or the value is not a map. *)
Theorem C5_dict_sub_keys_are_required :
  (exists self' log,
    construct_and_validate person_data person_rules = Ok (self', log, Raise ValidationError) /\
    Validator.errors self'
      = {[ "person.age" := [trans "en.required" [("attribute", PStr "person.age")]] ]} /\
    Validator.errors self' !! "person.name" = None /\
    Validator.errors self' !! "person" = None /\
    log = [EvField "person"; EvPasses "person" "dict";
           EvPasses "person.name" "required"; EvPasses "person.age" "required";
           EvMessage "person.age" "required"
             (trans "en.required" [("attribute", PStr "person.age")])]) /\
  (exists self' log,
    construct_and_validate person_data person_and_more_rules
      = Ok (self', log, Raise ValidationError) /\
    log = [EvField "person"; EvPasses "person" "dict";
           EvField "zip"; EvPasses "zip" "required";
           EvMessage "zip" "required" (trans "en.required" [("attribute", PStr "zip")]);
           EvPasses "person.name" "required"; EvPasses "person.age" "required";
           EvMessage "person.age" "required"
             (trans "en.required" [("attribute", PStr "person.age")])]) /\
  (forall attribute v ruleset dict_rule,
    Ruleset.get_value_type ruleset = DICT ->
    Ruleset.get_rule ruleset "dict" = Some dict_rule ->
    exists required,
      Ruleset.init (RulesStr "required") = Ok required /\
      Validator._get_extra_rules attribute v ruleset
      = Ok (map (fun p => (attribute +:+ "." +:+ str p, required, Validator.get_or_None v p))
              (Rule.get_params dict_rule))) /\
  (forall d key,
    Validator.get_or_None (VDict d) (PStr key)
    = match dict_get key d with Some x => x | None => VNone end) /\
  (forall v p, is_dict v = false -> Validator.get_or_None v p = VNone).
Proof.
  split; [|split; [|split; [|split]]].
  - destruct (construct_and_validate person_data person_rules)
      as [[[self' log] out]|e] eqn:E; vm_compute in E; [|discriminate E].
    injection E as <- <- <-. do 2 eexists. split; [reflexivity|].
    repeat split; vm_compute; reflexivity.
  - destruct (construct_and_validate person_data person_and_more_rules)
      as [[[self' log] out]|e] eqn:E; vm_compute in E; [|discriminate E].
    injection E as <- <- <-. do 2 eexists. split; reflexivity.
  - intros attribute v ruleset dict_rule Htype Hget.
    eexists. split; [vm_compute; reflexivity|].
    unfold Validator._get_extra_rules. rewrite Htype, Hget. simpl.
    induction (Rule.get_params dict_rule) as [|p ps IH]; [reflexivity|].
    simpl. simpl in IH. now rewrite IH.
  - reflexivity.
  - intros v p Hv. destruct v; try reflexivity. discriminate Hv.
Qed.

End Examples.

(** ** Facts about the construction of a Ruleset *)

Lemma In_setitem {A : Type} (d : list (string * A)) (key : string) (x : A) (kv : string * A) :
  In kv (setitem d key x) -> kv = (key, x) \/ In kv d.
Proof.
  induction d as [|[k y] d IH]; simpl.
  - intros [<-|[]]. now left.
  - destruct (String.eqb k key); simpl.
    + intros [<-|Hin]; [now left|right; now right].
    + intros [<-|Hin]; [right; now left|].
      destruct (IH Hin) as [->|Hd]; [now left|right; now right].
Qed.

Lemma forallb_is_PStr (l : list string) : forallb is_PStr (map PStr l) = true.
Proof. induction l; [reflexivity|assumption]. Qed.

Lemma parse_loop_ok (rules_list : list string) :
  forall parsed stray res stray',
    (forall name rule, In (name, rule) parsed -> parsed_ok name rule) ->
    Ruleset._parse_loop rules_list parsed stray = Ok (res, stray') ->
    forall name rule, In (name, rule) res -> parsed_ok name rule.
Proof.
  induction rules_list as [|tok rest IH]; intros parsed stray res stray' Hinv Hrun; simpl in Hrun.
  - injection Hrun as <- <-. exact Hinv.
  - destruct (globals_get _) as [[c| |]|] eqn:Hg; try discriminate Hrun.
    + eapply IH; [|exact Hrun].
      intros name rule Hin. apply In_setitem in Hin as [[= -> ->]|Hin]; [|now apply Hinv].
      split; [exact Hg|]. split; [|reflexivity].
      apply forallb_is_PStr.
    + eapply IH; [exact Hinv|exact Hrun].
Qed.

Lemma contains_map_snd {A B : Type} (f : string * A -> B) (d : list (string * A)) (key : string) :
  contains (map (fun item => (fst item, f item)) d) key = contains d key.
Proof.
  unfold contains. induction d as [|[k y] d IH]; simpl; [reflexivity|].
  destruct (String.eqb k key); [reflexivity|exact IH].
Qed.

Lemma init_spec (rules : rules_arg) (ruleset : Ruleset.t) :
  Ruleset.init rules = Ok ruleset ->
  Ruleset._errors ruleset = [] /\
  forall name rule, In (name, rule) (Ruleset._rules ruleset) ->
    globals_get (Ruleset.class_name name) = Some (GRuleClass (Rule.cls rule)) /\
    forallb is_PStr (Rule._params rule) = true /\
    Rule._metadata rule = declared_metadata ruleset.
Proof.
  unfold Ruleset.init.
  destruct (Ruleset._parse rules) as [[parsed stray]|e] eqn:Hp; simpl; [|discriminate].
  destruct stray; [discriminate|]. intros [= <-]. split; [reflexivity|].
  intros name rule Hin. simpl in Hin.
  apply in_map_iff in Hin as [[name0 rule0] [[= <- <-] Hin]]. simpl.
  assert (Hok : parsed_ok name0 rule0).
  { unfold Ruleset._parse in Hp. eapply parse_loop_ok; [|exact Hp|exact Hin]. intros ? ? []. }
  destruct Hok as (Hc & Hps & Hmd). repeat split; [exact Hc|exact Hps|].
  unfold declared_metadata, Ruleset.has_rule, Ruleset.get_value_type. simpl.
  rewrite !contains_map_snd. rewrite map_map. simpl. rewrite Hmd. reflexivity.
Qed.

Section RulesetFacts.
Context `{Externals}.

Lemma not_validation_Ok {A : Type} (a : A) : not_validation (Ok a).
Proof. intros e [=]. Qed.

Lemma not_validation_bind {A B : Type} (m : result A) (k : A -> result B) :
  not_validation m -> (forall a, not_validation (k a)) -> not_validation (bind m k).
Proof.
  intros Hm Hk e. destruct m as [a|e']; simpl.
  - apply Hk.
  - intros [= ->]. now apply Hm.
Qed.

Lemma index_not_validation {A : Type} (l : list A) (i : nat) : not_validation (index l i).
Proof. intros e. unfold index. destruct (nth_error l i); [discriminate|now intros [= <-]]. Qed.

Lemma float_not_validation (p : param) : not_validation (float p).
Proof.
  intros e. unfold float. destruct p; [destruct (float_of_string s)|];
    try discriminate; now intros [= <-].
Qed.

Lemma check_items_not_validation (t : ValueType) (items : list value) :
  not_validation (ListRule.check_items t items).
Proof.
  induction items as [|x items IH]; simpl; [apply not_validation_Ok|].
  destruct t; try (destruct (_ x)); try assumption; try apply not_validation_Ok.
  now intros e [= <-].
Qed.

Lemma strings_of_not_validation (params : list param) : not_validation (strings_of params).
Proof.
  induction params as [|[s|d] ps IH]; simpl.
  - apply not_validation_Ok.
  - apply not_validation_bind; [exact IH|intros; apply not_validation_Ok].
  - now intros e [= <-].
Qed.

Lemma join_params_not_validation (params : list param) : not_validation (join_params params).
Proof.
  apply not_validation_bind; [apply strings_of_not_validation|intros; apply not_validation_Ok].
Qed.

Ltac not_validation :=
  repeat first
    [ apply not_validation_Ok
    | apply index_not_validation
    | apply float_not_validation
    | apply check_items_not_validation
    | apply join_params_not_validation
    | apply strings_of_not_validation
    | apply not_validation_bind; [|intros ?]
    | match goal with
      | |- not_validation (Raise ?e) => now intros ? [= <-]
      | |- not_validation (match ?x with _ => _ end) => destruct x
      | |- not_validation (if ?x then _ else _) => destruct x
      end ].

Lemma passes_not_validation (rule : Rule.t) (attribute : string) (v : value)
    (params : list param) :
  not_validation (passes rule attribute v params).
Proof.
  unfold passes.
  destruct (Rule.cls rule);
    cbv [RequiredRule.passes NullableRule.passes StringRule.passes MinRule.passes
         MaxRule.passes IntegerRule.passes NumericRule.passes BooleanRule.passes
         InRule.passes NotInRule.passes SameRule.passes EmailRule.passes
         ListRule.passes DictRule.passes DateRule.passes AfterRule.passes
         AfterOrEqualRule.passes BeforeRule.passes BeforeOrEqualRule.passes];
    not_validation.
Qed.

Lemma message_not_validation (rule : Rule.t) (attribute : string) (v : value)
    (params : list param) :
  not_validation (message rule attribute v params).
Proof.
  unfold message.
  destruct (Rule.cls rule);
    cbv [RequiredRule.message NullableRule.message StringRule.message MinRule.message
         MaxRule.message IntegerRule.message NumericRule.message BooleanRule.message
         InRule.message NotInRule.message SameRule.message EmailRule.message
         ListRule.message DictRule.message DateRule.message AfterRule.message
         AfterOrEqualRule.message BeforeRule.message BeforeOrEqualRule.message];
    not_validation.
Qed.

(** *** The loop of [Ruleset.validate] *)

Lemma is_skippable_declared (ruleset : Ruleset.t) (rule : Rule.t) (v : value)
    (value_exists : bool) :
  Rule._metadata rule = declared_metadata ruleset ->
  Rule.is_skippable (Rule.set_metadata rule [m_value_exists value_exists; m_value v])
  = is_None v
    && (Ruleset.has_rule ruleset "nullable" || negb (Ruleset.has_rule ruleset "required")).
Proof.
  intros Hmd. unfold Rule.is_skippable, Rule.value_is_None, Rule.is_nullable,
    Rule.is_required, Rule.set_metadata. simpl. rewrite Hmd. reflexivity.
Qed.

Lemma validate_rule_skipped (attribute : string) (v : value) (value_exists : bool)
    (rule_name : string) (rule : Rule.t) :
  Rule.is_skippable (Rule.set_metadata rule [m_value_exists value_exists; m_value v]) = true ->
  Ruleset.validate_rule attribute v value_exists rule_name rule
  = (Rule.unset_metadata
       (Rule.set_metadata rule [m_value_exists value_exists; m_value v])
       [k_value_exists; k_value], [], Ok None).
Proof. intros Hs. unfold Ruleset.validate_rule. now rewrite Hs. Qed.

Lemma validate_rule_called (attribute : string) (v : value) (value_exists : bool)
    (rule_name : string) (rule : Rule.t) :
  Rule.is_skippable (Rule.set_metadata rule [m_value_exists value_exists; m_value v]) = false ->
  exists rule' log out,
    Ruleset.validate_rule attribute v value_exists rule_name rule
    = (rule', EvPasses attribute rule_name :: log, out).
Proof.
  intros Hs. unfold Ruleset.validate_rule. rewrite Hs.
  destruct (passes _ attribute v _) as [[|]|e]; [eauto| |eauto].
  destruct (message _ attribute v _); eauto.
Qed.

Lemma validate_rule_not_validation (attribute : string) (v : value) (value_exists : bool)
    (rule_name : string) (rule rule' : Rule.t) (log : list event) (e : exn) :
  Ruleset.validate_rule attribute v value_exists rule_name rule = (rule', log, Raise e) ->
  e <> ValidationError.
Proof.
  unfold Ruleset.validate_rule. destruct (Rule.is_skippable _); [discriminate|].
  destruct (passes _ attribute v _) as [[|]|e'] eqn:Hp; [discriminate| |].
  - destruct (message _ attribute v _) as [msg|e'] eqn:Hm; [discriminate|].
    intros [= _ _ <-]. eapply message_not_validation, Hm.
  - intros [= _ _ <-]. eapply passes_not_validation, Hp.
Qed.

Lemma validate_rules_not_validation (attribute : string) (v : value) (value_exists : bool)
    (rules : list (string * Rule.t)) :
  forall errs rules' errs' log e,
    Ruleset.validate_rules attribute v value_exists rules errs = (rules', errs', log, Raise e) ->
    e <> ValidationError.
Proof.
  induction rules as [|[rule_name rule] rest IH]; intros errs rules' errs' log e; simpl.
  - discriminate.
  - destruct (Ruleset.validate_rule _ _ _ _ _) as [[rule1 log1] [appended|e1]] eqn:Hr.
    + destruct (Ruleset.validate_rules _ _ _ rest _) as [[[rest' errs''] log'] out] eqn:Hl.
      intros [= _ _ _ ->]. eapply IH, Hl.
    + intros [= _ _ _ <-]. eapply validate_rule_not_validation, Hr.
Qed.

(** A call of [Ruleset.validate] that ends without a configuration error ran
    its loop to the end. *)
Lemma validate_completes (self self' : Ruleset.t) (attribute : string) (v : value)
    (value_exists : bool) (log : list event) (out : result unit) :
  Ruleset.validate self attribute v value_exists = (self', log, out) ->
  configuration_error out = false ->
  Ruleset.validate_rules attribute v value_exists (Ruleset._rules self) (Ruleset._errors self)
  = (Ruleset._rules self', Ruleset._errors self', log, Ok tt) /\
  out = if Ruleset.has_error self' then Raise ValidationError else Ok tt.
Proof.
  unfold Ruleset.validate.
  destruct (Ruleset.validate_rules _ _ _ _ _) as [[[rules errs] log0] out0] eqn:Hl.
  intros [= <- <- <-] Hc. destruct out0 as [[]|e]; simpl in *.
  - split; reflexivity.
  - apply validate_rules_not_validation in Hl. destruct e; try discriminate Hc. congruence.
Qed.

Lemma validate_rules_log (attribute : string) (v : value) (value_exists : bool) (skip : bool)
    (rules : list (string * Rule.t)) :
  (forall rule_name rule, In (rule_name, rule) rules ->
     Rule.is_skippable (Rule.set_metadata rule [m_value_exists value_exists; m_value v])
     = skip) ->
  forall errs rules' errs' log,
    Ruleset.validate_rules attribute v value_exists rules errs = (rules', errs', log, Ok tt) ->
    if skip then log = []
    else forall rule_name rule, In (rule_name, rule) rules ->
           In (EvPasses attribute rule_name) log.
Proof.
  induction rules as [|[rule_name rule] rest IH]; intros Hskip errs rules' errs' log; simpl.
  - intros [= _ _ <-]. destruct skip; [reflexivity|intros ? ? []].
  - pose proof (Hskip rule_name rule (or_introl eq_refl)) as Hs.
    assert (Hrest : forall n r, In (n, r) rest ->
              Rule.is_skippable (Rule.set_metadata r [m_value_exists value_exists; m_value v])
              = skip) by (intros n r Hnr; apply (Hskip n r); now right).
    specialize (IH Hrest).
    destruct skip.
    + rewrite (validate_rule_skipped _ _ _ _ _ Hs).
      destruct (Ruleset.validate_rules _ _ _ rest _) as [[[rest' errs''] log'] out] eqn:Hl.
      intros [= _ _ <- ->]. simpl. eapply IH, Hl.
    + destruct (validate_rule_called attribute v value_exists rule_name rule Hs)
        as (rule1 & log1 & out1 & Hr).
      rewrite Hr. destruct out1 as [appended|e]; [|discriminate].
      destruct (Ruleset.validate_rules _ _ _ rest _) as [[[rest' errs''] log'] out] eqn:Hl.
      intros [= _ _ <- ->] n r [[= <- <-]|Hin].
      * now left.
      * right. apply in_or_app. right. eapply IH; [exact Hl|exact Hin].
Qed.

(** C2: for a Ruleset built from a rule expression, every rule of it and
    every (value, value_exists): the iteration of [Ruleset.validate] for the
    rule skips it -- the predicate is not called, no message is appended --
    if and only if the value is None and the Ruleset declares "nullable" or
    does not declare "required".  The same holds of the events of a whole
    call of [validate] that ends without a configuration error. *)
Theorem C2_rule_skipped_iff_None_and_optional
    (rules : rules_arg) (ruleset : Ruleset.t) (rule_name : string) (rule : Rule.t)
    (attribute : string) (v : value) (value_exists : bool) :
  Ruleset.init rules = Ok ruleset ->
  In (rule_name, rule) (Ruleset.get_rules ruleset) ->
  (forall rule' log out,
     Ruleset.validate_rule attribute v value_exists rule_name rule = (rule', log, out) ->
     (~ In (EvPasses attribute rule_name) log /\
      (forall msg, ~ In (EvMessage attribute rule_name msg) log) /\
      out = Ok None)
     <-> (v = VNone /\
          (Ruleset.has_rule ruleset "nullable" = true \/
           Ruleset.has_rule ruleset "required" = false))) /\
  (forall ruleset' log out,
     Ruleset.validate ruleset attribute v value_exists = (ruleset', log, out) ->
     configuration_error out = false ->
     (~ In (EvPasses attribute rule_name) log /\
      (forall msg, ~ In (EvMessage attribute rule_name msg) log))
     <-> (v = VNone /\
          (Ruleset.has_rule ruleset "nullable" = true \/
           Ruleset.has_rule ruleset "required" = false))).
Proof.
  intros Hinit Hin.
  destruct (init_spec _ _ Hinit) as [_ Hrules].
  assert (Hskip : forall n r, In (n, r) (Ruleset._rules ruleset) ->
            Rule.is_skippable (Rule.set_metadata r [m_value_exists value_exists; m_value v])
            = is_None v
              && (Ruleset.has_rule ruleset "nullable"
                  || negb (Ruleset.has_rule ruleset "required"))).
  { intros n r Hnr. apply is_skippable_declared. now destruct (Hrules n r Hnr) as (_ & _ & Hmd). }
  assert (Hcond : is_None v
                  && (Ruleset.has_rule ruleset "nullable"
                      || negb (Ruleset.has_rule ruleset "required")) = true
                  <-> (v = VNone /\
                       (Ruleset.has_rule ruleset "nullable" = true \/
                        Ruleset.has_rule ruleset "required" = false))).
  { rewrite andb_true_iff, orb_true_iff, negb_true_iff.
    split; intros [Hv Hd]; (split; [|exact Hd]).
    - now destruct v.
    - now subst v. }
  destruct (is_None v && _) eqn:Hs.
  - assert (Hyes := proj1 Hcond eq_refl). split.
    + intros rule' log out.
      rewrite validate_rule_skipped
        by (rewrite (Hskip rule_name rule Hin); first [assumption|reflexivity]).
      intros [= _ <- <-]. split; [intros _; exact Hyes|].
      intros _. repeat split; intros; intros [].
    + intros ruleset' log out Hv Hc. split; [intros _; exact Hyes|]. intros _.
      destruct (validate_completes _ _ _ _ _ _ _ Hv Hc) as [Hl _].
      assert (Hlog := validate_rules_log attribute v value_exists true _
                        (fun n r Hnr => Hskip n r Hnr) _ _ _ _ Hl).
      simpl in Hlog. subst log. split; intros; intros [].
  - assert (Hno : ~ (v = VNone /\
                     (Ruleset.has_rule ruleset "nullable" = true \/
                      Ruleset.has_rule ruleset "required" = false))).
    { intros Hc. apply Hcond in Hc. discriminate Hc. }
    split.
    + intros rule' log out Hr.
      destruct (validate_rule_called attribute v value_exists rule_name rule)
        as (rule1 & log1 & out1 & Hr');
        [rewrite (Hskip rule_name rule Hin); first [assumption|reflexivity]|].
      rewrite Hr in Hr'. injection Hr' as -> -> ->.
      split; [|intros Hc; contradiction]. intros [Hnot _]. exfalso. apply Hnot. now left.
    + intros ruleset' log out Hv Hc. split; [|intros Hc'; contradiction].
      intros [Hnot _]. exfalso.
      destruct (validate_completes _ _ _ _ _ _ _ Hv Hc) as [Hl _].
      assert (Hlog := validate_rules_log attribute v value_exists false _
                        (fun n r Hnr => Hskip n r Hnr) _ _ _ _ Hl).
      simpl in Hlog. apply Hnot. eapply Hlog, Hin.
Qed.
End RulesetFacts.

(** The statement of C2 at the Ruleset "nullable|string", its rule "string"
    and the value None. *)
Lemma C2_witness :
  Ruleset.init (RulesStr "nullable|string") = Ok nullable_string_ruleset /\
  In ("string", string_rule) (Ruleset.get_rules nullable_string_ruleset) /\
  (forall ruleset' log out,
     @Ruleset.validate plain_externals nullable_string_ruleset "nick" VNone false
     = (ruleset', log, out) ->
     configuration_error out = false ->
     (~ In (EvPasses "nick" "string") log /\
      (forall msg, ~ In (EvMessage "nick" "string" msg) log))
     <-> (VNone = VNone /\
          (Ruleset.has_rule nullable_string_ruleset "nullable" = true \/
           Ruleset.has_rule nullable_string_ruleset "required" = false))).
Proof.
  assert (Hinit : Ruleset.init (RulesStr "nullable|string") = Ok nullable_string_ruleset)
    by (vm_compute; reflexivity).
  assert (Hin : In ("string", string_rule) (Ruleset.get_rules nullable_string_ruleset))
    by (right; left; reflexivity).
  split; [exact Hinit|]. split; [exact Hin|].
  exact (proj2 (@C2_rule_skipped_iff_None_and_optional plain_externals
                  (RulesStr "nullable|string") nullable_string_ruleset "string" string_rule
                  "nick" VNone false Hinit Hin)).
Defined.

Section PredicateFacts.
Context `{Externals}.

Lemma py_eq_str_false (v : value) (s : string) : is_str v = false -> py_eq v (VStr s) = false.
Proof. destruct v; simpl; try reflexivity; discriminate. Qed.

Lemma existsb_eq_param_strings (v : value) (params : list param) :
  is_str v = false -> forallb is_PStr params = true -> existsb (eq_param v) params = false.
Proof.
  intros Hv. induction params as [|[s|d] ps IH]; simpl; [reflexivity| |discriminate].
  intros Hps. rewrite (py_eq_str_false v s Hv). simpl. now apply IH.
Qed.

(** C10: the parameters of [in] and [not_in] stay the strings of the rule
    expression: in a Ruleset built from a rule expression, every parameter of
    the rule stored under "in" (under "not_in") is a string, and for every
    value that is not a string the predicate of [in] fails and the predicate
    of [not_in] passes. *)
Theorem C10_in_and_not_in_compare_with_unparsed_strings
    (rules : rules_arg) (ruleset : Ruleset.t) (attribute : string) (v : value) :
  Ruleset.init rules = Ok ruleset ->
  is_str v = false ->
  (forall rule, Ruleset.get_rule ruleset "in" = Some rule ->
     forallb is_PStr (Rule.get_params rule) = true /\
     passes rule attribute v (Rule.get_params rule) = Ok false) /\
  (forall rule, Ruleset.get_rule ruleset "not_in" = Some rule ->
     forallb is_PStr (Rule.get_params rule) = true /\
     passes rule attribute v (Rule.get_params rule) = Ok true).
Proof.
  intros Hinit Hv. destruct (init_spec _ _ Hinit) as [_ Hrules].
  split; intros rule Hget; apply dict_get_In in Hget;
    destruct (Hrules _ _ Hget) as (Hcls & Hps & _).
  - change (globals_get (Ruleset.class_name "in")) with (Some (GRuleClass cIn)) in Hcls.
    injection Hcls as Hcls. split; [exact Hps|].
    unfold passes. rewrite <- Hcls. unfold InRule.passes, Rule.get_params.
    now rewrite existsb_eq_param_strings.
  - change (globals_get (Ruleset.class_name "not_in")) with (Some (GRuleClass cNotIn)) in Hcls.
    injection Hcls as Hcls. split; [exact Hps|].
    unfold passes. rewrite <- Hcls. unfold NotInRule.passes, Rule.get_params.
    now rewrite existsb_eq_param_strings.
Qed.

(** C8: [passes()] and [fails()] are complements.  On every Validator
    state they leave the same state behind and [passes()] returns the
    negation of what [fails()] returns (both propagate the same
    configuration error); in particular [fails()] returns True exactly when
    [passes()] on an identically constructed instance returns False. *)
Theorem C8_passes_and_fails_are_complements (self : Validator.t) :
  snd (Validator.passes self) = fmap_result negb (snd (Validator.fails self)) /\
  fst (Validator.passes self) = fst (Validator.fails self) /\
  (snd (Validator.fails self) = Ok true <-> snd (Validator.passes self) = Ok false) /\
  (snd (Validator.fails self) = Ok false <-> snd (Validator.passes self) = Ok true) /\
  (forall e, snd (Validator.fails self) = Raise e <-> snd (Validator.passes self) = Raise e) /\
  (forall data rules,
     (self <- Validator.init data rules ;; snd (Validator.passes self))
     = fmap_result negb (self <- Validator.init data rules ;; snd (Validator.fails self))).
Proof.
  assert (Hcore : forall s, snd (Validator.passes s) = fmap_result negb (snd (Validator.fails s))).
  { intros s. unfold Validator.passes, Validator.fails.
    destruct (Validator.validate s) as [[s' log] out]. simpl.
    destruct (Validator.swallow out); reflexivity. }
  assert (Hlast : forall data rules,
            (self <- Validator.init data rules ;; snd (Validator.passes self))
            = fmap_result negb
                (self <- Validator.init data rules ;; snd (Validator.fails self))).
  { intros data rules. destruct (Validator.init data rules); simpl; [apply Hcore|reflexivity]. }
  split; [apply Hcore|]. split.
  { unfold Validator.passes, Validator.fails.
    now destruct (Validator.validate self) as [[s' log] out]. }
  rewrite (Hcore self).
  destruct (snd (Validator.fails self)) as [[|]|e]; simpl;
    repeat split; try discriminate; try reflexivity; try exact Hlast;
    try (intros [= ->]; reflexivity); intros; split; discriminate.
Qed.
End PredicateFacts.

(** ** Events, errors and the loops of the Validator *)

Lemma messages_of_app (l1 l2 : list event) :
  messages_of (l1 ++ l2) = messages_of l1 ++ messages_of l2.
Proof.
  induction l1 as [|ev l1 IH]; [reflexivity|].
  destruct ev; simpl; now rewrite IH.
Qed.

Lemma fields_of_app (l1 l2 : list event) :
  fields_of (l1 ++ l2) = fields_of l1 ++ fields_of l2.
Proof.
  induction l1 as [|ev l1 IH]; [reflexivity|].
  destruct ev; simpl; now rewrite IH.
Qed.

Lemma messages_of_nonempty (log : list event) :
  messages_of log <> []
  <-> exists attribute rule_name msg, In (EvMessage attribute rule_name msg) log.
Proof.
  induction log as [|ev log IH]; simpl.
  - split; [congruence|intros (? & ? & ? & [])].
  - destruct ev as [a|a r|a r m]; simpl.
    + rewrite IH. split; intros (a' & r' & m' & Hin); exists a', r', m';
        [now right|destruct Hin as [[=]|Hin]; assumption].
    + rewrite IH. split; intros (a' & r' & m' & Hin); exists a', r', m';
        [now right|destruct Hin as [[=]|Hin]; assumption].
    + split; [intros _; exists a, r, m; now left|discriminate].
Qed.

Section ValidatorFacts.
Context `{Externals}.

(** *** Events and errors of [Ruleset.validate] *)

Lemma validate_rule_events (attribute : string) (v : value) (value_exists : bool)
    (rule_name : string) (rule rule' : Rule.t) (log : list event)
    (out : result (option string)) :
  Ruleset.validate_rule attribute v value_exists rule_name rule = (rule', log, out) ->
  fields_of log = [] /\
  messages_of log = match out with Ok (Some msg) => [msg] | _ => [] end.
Proof.
  unfold Ruleset.validate_rule. destruct (Rule.is_skippable _).
  - intros [= _ <- <-]. now split.
  - destruct (passes _ attribute v _) as [[|]|e].
    + intros [= _ <- <-]. now split.
    + destruct (message _ attribute v _) as [msg|e]; intros [= _ <- <-]; now split.
    + intros [= _ <- <-]. now split.
Qed.

Lemma validate_rules_events (attribute : string) (v : value) (value_exists : bool)
    (rules : list (string * Rule.t)) :
  forall errs rules' errs' log out,
    Ruleset.validate_rules attribute v value_exists rules errs = (rules', errs', log, out) ->
    fields_of log = [] /\ errs' = errs ++ messages_of log.
Proof.
  induction rules as [|[rule_name rule] rest IH]; intros errs rules' errs' log out; simpl.
  - intros [= _ <- <- _]. now rewrite app_nil_r.
  - destruct (Ruleset.validate_rule _ _ _ _ _) as [[rule1 log1] [appended|e1]] eqn:Hr;
      apply validate_rule_events in Hr as [Hf Hm].
    + destruct (Ruleset.validate_rules _ _ _ rest _) as [[[rest' errs''] log'] out'] eqn:Hl.
      apply IH in Hl as [Hf' He']. intros [= _ <- <- _].
      rewrite fields_of_app, messages_of_app, Hf, Hf', He', Hm.
      split; [reflexivity|]. destruct appended; simpl; [now rewrite <- app_assoc|reflexivity].
    + intros [= _ <- <- _]. rewrite Hm, app_nil_r. now split.
Qed.

(** A call of [Ruleset.validate] on a Ruleset that has accumulated nothing,
    ending without a configuration error: it raises [ValidationError]
    exactly when it appended a message. *)
Lemma validate_fresh (self self' : Ruleset.t) (attribute : string) (v : value)
    (value_exists : bool) (log : list event) (out : result unit) :
  Ruleset._errors self = [] ->
  Ruleset.validate self attribute v value_exists = (self', log, out) ->
  fields_of log = [] /\
  Ruleset._errors self' = messages_of log /\
  (configuration_error out = false ->
   out = if decide (messages_of log = []) then Ok tt else Raise ValidationError).
Proof.
  intros Hfresh Hv.
  assert (Hev : fields_of log = [] /\ Ruleset._errors self' = messages_of log).
  { unfold Ruleset.validate in Hv.
    destruct (Ruleset.validate_rules _ _ _ _ _) as [[[rules errs] log0] out0] eqn:Hl.
    injection Hv as <- <- <-. apply validate_rules_events in Hl as [Hf He].
    rewrite Hfresh in He. now split. }
  destruct Hev as [Hf He]. split; [exact Hf|]. split; [exact He|].
  intros Hc. destruct (validate_completes _ _ _ _ _ _ _ Hv Hc) as [_ ->].
  unfold Ruleset.has_error. rewrite He.
  destruct (messages_of log); [now rewrite decide_True|now rewrite decide_False].
Qed.

(** *** No loop of the Validator raises [ValidationError] itself *)

Lemma parse_loop_not_validation (rules_list : list string) :
  forall parsed stray, not_validation (Ruleset._parse_loop rules_list parsed stray).
Proof.
  induction rules_list as [|tok rest IH]; intros parsed stray; simpl.
  - apply not_validation_Ok.
  - destruct (globals_get _) as [[c| |]|]; try apply IH; now intros e [= <-].
Qed.

Lemma init_not_validation (rules : rules_arg) : not_validation (Ruleset.init rules).
Proof.
  unfold Ruleset.init. apply not_validation_bind; [apply parse_loop_not_validation|].
  intros [parsed [|]]; simpl; [now intros e [= <-]|apply not_validation_Ok].
Qed.

Lemma init_fresh (rules : rules_arg) (ruleset : Ruleset.t) :
  Ruleset.init rules = Ok ruleset -> fresh ruleset.
Proof. intros Hinit. now destruct (init_spec _ _ Hinit). Qed.

Lemma extra_rules_of_fresh (attribute : string) (v : value) (dict_parameters : list param) :
  exists more, Validator.extra_rules_of attribute v dict_parameters = Ok more /\
               Forall fresh_extra more.
Proof.
  induction dict_parameters as [|p ps (more & Hmore & Hfresh)]; simpl.
  - exists []. now split.
  - rewrite Hmore. simpl. eexists. split; [reflexivity|].
    constructor; [reflexivity|exact Hfresh].
Qed.

Lemma get_extra_rules_cases (attribute : string) (v : value) (ruleset : Ruleset.t) :
  (exists more, Validator._get_extra_rules attribute v ruleset = Ok more /\
                Forall fresh_extra more) \/
  Validator._get_extra_rules attribute v ruleset = Raise AttributeError.
Proof.
  unfold Validator._get_extra_rules. destruct (ValueType_eqb _ _).
  - destruct (Ruleset.get_rule ruleset "dict"); [left; apply extra_rules_of_fresh|now right].
  - left. exists []. now split.
Qed.

Lemma modify_dependent_rules_cases (data : value) (ruleset : Ruleset.t) :
  (exists ruleset', Validator._modify_dependent_rules data ruleset = Ok ruleset' /\
                    Ruleset._errors ruleset' = Ruleset._errors ruleset) \/
  (exists e, Validator._modify_dependent_rules data ruleset = Raise e /\ e <> ValidationError).
Proof.
  unfold Validator._modify_dependent_rules. destruct (Ruleset.has_rule ruleset "same").
  - destruct (Ruleset.get_rule ruleset "same") as [same_rule|].
    + destruct (index (Rule.get_params same_rule) 0) as [[other|d]|e] eqn:Hi; simpl.
      * left. eexists. now split.
      * right. eexists. now split.
      * right. eexists. split; [reflexivity|]. eapply index_not_validation, Hi.
    + right. eexists. now split.
  - left. eexists. now split.
Qed.

(** *** The loops of [Validator.validate] on Rulesets that have accumulated
    nothing *)

Lemma validate_items_spec (attribute : string) (ruleset : Ruleset.t)
    (value_details : list (nat * details)) :
  fresh ruleset ->
  forall errs extra_rules errs' extra_rules' log out,
    Forall fresh_extra extra_rules ->
    Validator.validate_items attribute ruleset value_details errs extra_rules
    = (errs', extra_rules', log, out) ->
    not_validation out /\
    (out = Ok tt ->
     fields_of log = [] /\ Forall fresh_extra extra_rules' /\
     (errs' = ∅ <-> errs = ∅ /\ messages_of log = [])).
Proof.
  intros Hfresh.
  induction value_details as [|[i d] rest IH];
    intros errs extra_rules errs' extra_rules' log out Hextra; simpl.
  - intros [= <- <- <- <-]. split; [apply not_validation_Ok|]. intros _. tauto.
  - destruct (Validator._extract_list_details attribute i d)
      as [item_attribute [item_value ex|items]].
    2:{ intros [= <- <- <- <-]. split; [now intros e [= <-]|discriminate]. }
    unfold deepcopy.
    destruct (Ruleset.validate ruleset item_attribute item_value ex)
      as [[clone log1] out1] eqn:Hv.
    destruct (validate_fresh _ _ _ _ _ _ _ Hfresh Hv) as (Hf1 & He1 & Hout1).
    destruct out1 as [[]|e1].
    + specialize (Hout1 eq_refl).
      destruct (decide (messages_of log1 = [])) as [Hm1|]; [|discriminate Hout1].
      destruct (get_extra_rules_cases item_attribute item_value clone)
        as [(more & -> & Hmore)| ->].
      * destruct (Validator.validate_items attribute ruleset rest errs (extra_rules ++ more))
          as [[[errs2 extra2] log2] out2] eqn:Hrest.
        intros [= <- <- <- <-].
        eapply IH in Hrest as [Hnv Hok]; [|apply Forall_app; now split].
        split; [exact Hnv|]. intros Hout. destruct (Hok Hout) as (Hf2 & Hx2 & Hiff).
        rewrite fields_of_app, messages_of_app, Hf1, Hf2, Hm1. repeat split; try tauto.
      * intros [= <- <- <- <-]. split; [now intros e [= <-]|discriminate].
    + destruct e1;
        try (intros [= <- <- <- <-]; split; [now intros e [= <-]|discriminate]).
      specialize (Hout1 eq_refl).
      destruct (decide (messages_of log1 = [])) as [|Hm1]; [discriminate Hout1|].
      destruct (Validator.validate_items attribute ruleset rest _ extra_rules)
        as [[[errs2 extra2] log2] out2] eqn:Hrest.
      intros [= <- <- <- <-].
      eapply IH in Hrest as [Hnv Hok]; [|exact Hextra].
      split; [exact Hnv|]. intros Hout. destruct (Hok Hout) as (Hf2 & Hx2 & Hiff).
      rewrite fields_of_app, messages_of_app, Hf1, Hf2.
      split; [reflexivity|]. split; [exact Hx2|]. split.
      * intros He. apply Hiff in He as [He _]. now apply insert_non_empty in He.
      * intros [_ Hm]. apply app_eq_nil in Hm as [Hm _]. contradiction.
Qed.

Lemma validate_field_spec (data : value) (attribute : string) (ruleset : Ruleset.t) :
  fresh ruleset ->
  forall errs extra_rules ruleset' errs' extra_rules' log out,
    Forall fresh_extra extra_rules ->
    Validator.validate_field data attribute ruleset errs extra_rules
    = (ruleset', errs', extra_rules', log, out) ->
    not_validation out /\
    (out = Ok tt ->
     fields_of log = [] /\ Forall fresh_extra extra_rules' /\
     (errs' = ∅ <-> errs = ∅ /\ messages_of log = [])).
Proof.
  intros Hfresh errs extra_rules ruleset' errs' extra_rules' log out Hextra.
  unfold Validator.validate_field.
  destruct (modify_dependent_rules_cases data ruleset)
    as [(ruleset1 & -> & Herrs)|(e & -> & Hne)].
  2:{ intros [= <- <- <- <- <-]. split; [now intros e' [= <-]|discriminate]. }
  assert (Hfresh1 : fresh ruleset1) by (unfold fresh; now rewrite Herrs).
  destruct (JsonSchema.get_value_details data attribute) as [v ex|items].
  - destruct (Ruleset.validate ruleset1 attribute v ex) as [[ruleset2 log1] out1] eqn:Hv.
    destruct (validate_fresh _ _ _ _ _ _ _ Hfresh1 Hv) as (Hf1 & He1 & Hout1).
    destruct out1 as [[]|e1].
    + specialize (Hout1 eq_refl).
      destruct (decide (messages_of log1 = [])) as [Hm1|]; [|discriminate Hout1].
      destruct (get_extra_rules_cases attribute v ruleset2) as [(more & -> & Hmore)| ->].
      * intros [= <- <- <- <- <-]. split; [apply not_validation_Ok|]. intros _.
        split; [exact Hf1|]. split; [apply Forall_app; now split|]. tauto.
      * intros [= <- <- <- <- <-]. split; [now intros e [= <-]|discriminate].
    + destruct e1;
        try (intros [= <- <- <- <- <-]; split; [now intros e [= <-]|discriminate]).
      specialize (Hout1 eq_refl).
      destruct (decide (messages_of log1 = [])) as [|Hm1]; [discriminate Hout1|].
      intros [= <- <- <- <- <-]. split; [apply not_validation_Ok|]. intros _.
      split; [exact Hf1|]. split; [exact Hextra|]. split.
      * intros He. now apply insert_non_empty in He.
      * intros [_ Hm]. contradiction.
  - destruct (Validator.validate_items attribute ruleset1 items errs extra_rules)
      as [[[errs2 extra2] log2] out2] eqn:Hitems.
    intros [= <- <- <- <- <-].
    eapply validate_items_spec; [exact Hfresh1|exact Hextra|exact Hitems].
Qed.

Lemma validate_fields_spec (data : value) (fields : RuleList.t) :
  Forall (fun field => fresh (snd field)) fields ->
  forall errs extra_rules fields' errs' extra_rules' log out,
    Forall fresh_extra extra_rules ->
    Validator.validate_fields data fields errs extra_rules
    = (fields', errs', extra_rules', log, out) ->
    not_validation out /\
    (out = Ok tt ->
     fields_of log = map fst fields /\ map fst fields' = map fst fields /\
     Forall fresh_extra extra_rules' /\
     (errs' = ∅ <-> errs = ∅ /\ messages_of log = [])).
Proof.
  induction fields as [|[attribute ruleset] rest IH];
    intros Hfresh errs extra_rules fields' errs' extra_rules' log out Hextra; simpl.
  - intros [= <- <- <- <- <-]. split; [apply not_validation_Ok|]. intros _. tauto.
  - inversion Hfresh as [|? ? Hfresh1 Hfresh_rest]; subst.
    destruct (Validator.validate_field data attribute ruleset errs extra_rules)
      as [[[[ruleset1 errs1] extra1] log1] out1] eqn:Hfield.
    destruct (validate_field_spec _ _ _ Hfresh1 _ _ _ _ _ _ _ Hextra Hfield) as [Hnv1 Hok1].
    destruct out1 as [[]|e1].
    + destruct (Hok1 eq_refl) as (Hf1 & Hx1 & Hiff1).
      destruct (Validator.validate_fields data rest errs1 extra1)
        as [[[[rest' errs2] extra2] log2] out2] eqn:Hrest.
      intros [= <- <- <- <- <-].
      destruct (IH Hfresh_rest _ _ _ _ _ _ _ Hx1 Hrest) as [Hnv2 Hok2].
      split; [exact Hnv2|]. intros Hout.
      destruct (Hok2 Hout) as (Hf2 & Hk2 & Hx2 & Hiff2).
      simpl. rewrite fields_of_app, messages_of_app, Hf1, Hf2, Hk2.
      split; [reflexivity|]. split; [reflexivity|]. split; [exact Hx2|].
      rewrite Hiff2, Hiff1. split.
      * intros [[He Hm1] Hm2]. split; [exact He|]. now rewrite Hm1, Hm2.
      * intros [He Hm]. apply app_eq_nil in Hm as [Hm1 Hm2]. tauto.
    + intros [= <- <- <- <- <-]. split; [exact Hnv1|discriminate].
Qed.

Lemma validate_extra_rules_spec (extra_rules : list Validator.extra_rule) :
  Forall fresh_extra extra_rules ->
  forall errs errs' log out,
    Validator.validate_extra_rules extra_rules errs = (errs', log, out) ->
    not_validation out /\
    (out = Ok tt ->
     fields_of log = [] /\ (errs' = ∅ <-> errs = ∅ /\ messages_of log = [])).
Proof.
  induction extra_rules as [|[[extra_attribute extra_rule] extra_value] rest IH];
    intros Hfresh errs errs' log out; simpl.
  - intros [= <- <- <-]. split; [apply not_validation_Ok|]. intros _. tauto.
  - inversion Hfresh as [|? ? Hfresh1 Hfresh_rest]; subst.
    destruct (Ruleset.validate extra_rule extra_attribute extra_value true)
      as [[rule1 log1] out1] eqn:Hv.
    destruct (validate_fresh _ _ _ _ _ _ _ Hfresh1 Hv) as (Hf1 & He1 & Hout1).
    destruct out1 as [[]|e1].
    + specialize (Hout1 eq_refl).
      destruct (decide (messages_of log1 = [])) as [Hm1|]; [|discriminate Hout1].
      destruct (Validator.validate_extra_rules rest errs) as [[errs2 log2] out2] eqn:Hrest.
      intros [= <- <- <-].
      destruct (IH Hfresh_rest _ _ _ _ Hrest) as [Hnv Hok].
      split; [exact Hnv|]. intros Hout. destruct (Hok Hout) as (Hf2 & Hiff).
      rewrite fields_of_app, messages_of_app, Hf1, Hf2, Hm1. split; [reflexivity|exact Hiff].
    + destruct e1; try (intros [= <- <- <-]; split; [now intros e [= <-]|discriminate]).
      specialize (Hout1 eq_refl).
      destruct (decide (messages_of log1 = [])) as [|Hm1]; [discriminate Hout1|].
      destruct (Validator.validate_extra_rules rest _) as [[errs2 log2] out2] eqn:Hrest.
      intros [= <- <- <-].
      destruct (IH Hfresh_rest _ _ _ _ Hrest) as [Hnv Hok].
      split; [exact Hnv|]. intros Hout. destruct (Hok Hout) as (Hf2 & Hiff).
      rewrite fields_of_app, messages_of_app, Hf1, Hf2. split; [reflexivity|]. split.
      * intros He. apply Hiff in He as [He _]. now apply insert_non_empty in He.
      * intros [_ Hm]. apply app_eq_nil in Hm as [Hm _]. contradiction.
Qed.

Lemma rule_list_fresh (rules : list (string * rules_arg)) (rule_list : RuleList.t) :
  RuleList.init rules = Ok rule_list -> Forall (fun field => fresh (snd field)) rule_list.
Proof.
  unfold RuleList.init, RuleList._parse.
  assert (Hloop : forall parsed,
            Forall (fun field : string * Ruleset.t => fresh (snd field)) parsed ->
            RuleList._parse_loop rules parsed = Ok rule_list ->
            Forall (fun field => fresh (snd field)) rule_list).
  { induction rules as [|[attribute arg] rest IH]; intros parsed Hparsed; simpl.
    - now intros [= <-].
    - destruct (Ruleset.init arg) as [ruleset|e] eqn:Hinit; simpl; [|discriminate].
      apply IH. apply List.Forall_forall. intros [a rs] Hin.
      apply In_setitem in Hin as [[= -> ->]|Hin].
      + simpl. eapply init_fresh, Hinit.
      + rewrite List.Forall_forall in Hparsed. now apply (Hparsed (a, rs)). }
  apply Hloop. constructor.
Qed.

Lemma errors_empty (self : Validator.t) :
  Validator.errors self = ∅ <-> Validator._errors self = ∅.
Proof.
  unfold Validator.errors. split.
  - intros He. apply map_empty. intros k.
    assert (Hk := f_equal (fun m : gmap string (list string) => m !! k) He). simpl in Hk.
    rewrite map_lookup_imap, lookup_empty in Hk.
    destruct (Validator._errors self !! k); [discriminate Hk|reflexivity].
  - intros ->. apply map_empty. intros k. now rewrite map_lookup_imap, lookup_empty.
Qed.
End ValidatorFacts.

(** ** The outcome of [Validator.validate] *)

Section ValidateFacts.
Context `{Externals}.

(** C7, as amended: on a freshly constructed Validator whose call of
    [validate()] meets no configuration error (it returns or raises
    [ValidationError]), every declared field was processed, in order; the
    call raises [ValidationError] if and only if some Ruleset of a field, of
    an element or of an extra rule appended an error message, which is the
    case exactly when the errors mapping is not empty; and when no message
    was appended the call returns normally with an empty errors mapping. *)
Theorem C7_every_field_processed_and_failure_iff_errors
    (data : value) (rules : list (string * rules_arg)) (self self' : Validator.t)
    (log : list event) (out : result unit) :
  Validator.init data rules = Ok self ->
  Validator.validate self = (self', log, out) ->
  configuration_error out = false ->
  fields_of log = map fst (Validator._rules self) /\
  (out = Raise ValidationError
   <-> exists attribute rule_name msg, In (EvMessage attribute rule_name msg) log) /\
  (out = Raise ValidationError <-> Validator.errors self' <> ∅) /\
  ((forall attribute rule_name msg, ~ In (EvMessage attribute rule_name msg) log) ->
   out = Ok tt /\ Validator.errors self' = ∅).
Proof.
  intros Hinit Hv Hc.
  unfold Validator.init in Hinit.
  destruct (RuleList.init rules) as [rule_list|e] eqn:Hlist; simpl in Hinit; [|discriminate].
  injection Hinit as <-. apply rule_list_fresh in Hlist.
  unfold Validator.validate in Hv. simpl in Hv.
  destruct (Validator.validate_fields data rule_list ∅ [])
    as [[[[fields' errs1] extra1] log1] out1] eqn:Hfields.
  destruct (validate_fields_spec _ _ Hlist _ _ _ _ _ _ _ (List.Forall_nil _) Hfields)
    as [Hnv1 Hok1].
  destruct out1 as [[]|e1].
  2:{ injection Hv as <- <- <-. exfalso. simpl in Hc.
      apply (Hnv1 e1 eq_refl). now destruct e1. }
  destruct (Hok1 eq_refl) as (Hf1 & _ & Hx1 & Hiff1).
  destruct (Validator.validate_extra_rules extra1 errs1) as [[errs2 log2] out2] eqn:Hextra.
  destruct (validate_extra_rules_spec _ Hx1 _ _ _ _ Hextra) as [Hnv2 Hok2].
  injection Hv as <- <- <-.
  destruct out2 as [[]|e2].
  2:{ exfalso. simpl in Hc. apply (Hnv2 e2 eq_refl). now destruct e2. }
  destruct (Hok2 eq_refl) as (Hf2 & Hiff2).
  simpl. rewrite fields_of_app, Hf1, Hf2, app_nil_r.
  split; [reflexivity|].
  rewrite <- messages_of_nonempty, messages_of_app.
  assert (Hempty : errs2 = ∅ <-> messages_of log1 ++ messages_of log2 = []).
  { rewrite Hiff2, Hiff1. split.
    - intros [[_ ->] ->]. reflexivity.
    - intros Hm. apply app_eq_nil in Hm as [Hm1 Hm2]. tauto. }
  rewrite errors_empty. simpl.
  unfold Validator.has_error. simpl.
  destruct (decide (errs2 = ∅)) as [He|He].
  - rewrite bool_decide_eq_true_2 by exact He. simpl.
    assert (Hm := proj1 Hempty He).
    repeat split; try discriminate; congruence.
  - rewrite bool_decide_eq_false_2 by exact He. simpl.
    assert (Hm : messages_of log1 ++ messages_of log2 <> []) by (intros Hm; now apply Hempty in Hm).
    split; [split; [intros _; exact Hm|reflexivity]|].
    split; [split; [intros _; exact He|reflexivity]|].
    intros Hno. exfalso. rewrite <- messages_of_app in Hm.
    apply messages_of_nonempty in Hm as (a & r & m & Hin). exact (Hno a r m Hin).
Qed.
End ValidateFacts.

(** C7 as stated fails on a configuration error: with the fields "a"
    (required, absent), "b" (dict|min:1) and "c" (required, absent),
    [validate()] raises [NotImplementedError], not [ValidationError],
    although the Ruleset of "a" has appended a message and the errors mapping
    is not empty, and the declared field "c" is never processed. *)
Lemma C7_counterexample :
  exists self' log,
    @construct_and_validate plain_externals aborting_data aborting_rules
    = Ok (self', log, Raise NotImplementedError) /\
    In (EvMessage "a" "required" (render "en.required" [("attribute", PStr "a")])) log /\
    map fst (Validator._rules self') = ["a"; "b"; "c"] /\
    fields_of log = ["a"; "b"] /\
    @Validator.errors self' <> ∅.
Proof.
  destruct (@construct_and_validate plain_externals aborting_data aborting_rules)
    as [[[self' log] out]|e] eqn:E; vm_compute in E; [|discriminate E].
  injection E as <- <- <-. do 2 eexists. split; [reflexivity|].
  split; [right; right; left; reflexivity|].
  split; [reflexivity|]. split; [reflexivity|].
  intros He. apply (f_equal (fun m : gmap string (list string) => m !! "a")) in He.
  vm_compute in He. discriminate He.
Qed.

(** The amended statement of C7 at the input of C1. *)
Lemma C7_witness :
  exists self self' log out,
    Validator.init items_data items_rules = Ok self /\
    @Validator.validate plain_externals self = (self', log, out) /\
    configuration_error out = false /\
    fields_of log = map fst (Validator._rules self) /\
    (out = Raise ValidationError
     <-> exists attribute rule_name msg, In (EvMessage attribute rule_name msg) log) /\
    (out = Raise ValidationError <-> Validator.errors self' <> ∅) /\
    ((forall attribute rule_name msg, ~ In (EvMessage attribute rule_name msg) log) ->
     out = Ok tt /\ Validator.errors self' = ∅).
Proof.
  destruct (Validator.init items_data items_rules) as [self|e] eqn:Hinit;
    [|vm_compute in Hinit; discriminate Hinit].
  destruct (@Validator.validate plain_externals self) as [[self' log] out] eqn:Hv.
  assert (Hc : configuration_error out = false).
  { vm_compute in Hinit. injection Hinit as <-. vm_compute in Hv.
    injection Hv as <- <- <-. reflexivity. }
  exists self, self', log, out.
  split; [first [exact Hinit|reflexivity]|].
  split; [first [exact Hv|reflexivity]|]. split; [exact Hc|].
  exact (@C7_every_field_processed_and_failure_iff_errors plain_externals
           items_data items_rules self self' log out Hinit Hv Hc).
Defined.

(** The statement of C10 at the expression "in:1,2" and the integer 1. *)
Lemma C10_witness :
  exists ruleset rule,
    Ruleset.init (RulesStr "in:1,2") = Ok ruleset /\
    is_str (VInt 1) = false /\
    Ruleset.get_rule ruleset "in" = Some rule /\
    forallb is_PStr (Rule.get_params rule) = true /\
    @passes plain_externals rule "x" (VInt 1) (Rule.get_params rule) = Ok false.
Proof.
  destruct (Ruleset.init (RulesStr "in:1,2")) as [ruleset|e] eqn:Hinit;
    [|vm_compute in Hinit; discriminate Hinit].
  destruct (Ruleset.get_rule ruleset "in") as [rule|] eqn:Hget;
    [|vm_compute in Hinit; injection Hinit as <-; vm_compute in Hget; discriminate Hget].
  exists ruleset, rule.
  split; [first [exact Hinit|reflexivity]|]. split; [reflexivity|].
  split; [first [exact Hget|reflexivity]|].
  exact (proj1 (@C10_in_and_not_in_compare_with_unparsed_strings plain_externals
                  (RulesStr "in:1,2") ruleset "x" (VInt 1) Hinit eq_refl) rule Hget).
Defined.

(** ** The date rules and [min] *)

Section DateAndMinFacts.
Context `{Externals}.

(** C6: under the contract of the date service for the reserved relative
    keywords, a value that is a reserved keyword fails the predicates of
    [date], [before], [before_or_equal], [after] and [after_or_equal] up
    front, whatever the parameters (the declared formats); in particular
    [date] fails the literal "tomorrow".  The same keyword as the parameter
    of [before] (or [after]) is resolved by the date service to a comparison
    date, and the predicate returns the comparison of the two
    [start_of_day] values. *)
Theorem C6_keyword_rejected_as_value_accepted_as_argument :
  date_service_contract ->
  (forall self attribute params v,
     is_parse_special_key v = true ->
     DateRule.passes self attribute v params = Ok false /\
     BeforeRule.passes self attribute v params = Ok false /\
     BeforeOrEqualRule.passes self attribute v params = Ok false /\
     AfterRule.passes self attribute v params = Ok false /\
     AfterOrEqualRule.passes self attribute v params = Ok false) /\
  (forall self attribute params,
     DateRule.passes self attribute (VStr "tomorrow") params = Ok false) /\
  (forall keyword, In keyword reserved_keywords ->
     exists other,
       Sandglass (VStr keyword) None = Ok other /\
       forall self attribute v date params,
         is_parse_special_key v = false ->
         Sandglass v None = Ok date ->
         BeforeRule.passes self attribute v (PStr keyword :: params)
         = Ok (Z.ltb (start_of_day date) (start_of_day other)) /\
         AfterRule.passes self attribute v (PStr keyword :: params)
         = Ok (Z.gtb (start_of_day date) (start_of_day other))).
Proof.
  intros Hcontract.
  assert (Hvalue : forall self attribute params v,
            is_parse_special_key v = true ->
            DateRule.passes self attribute v params = Ok false /\
            BeforeRule.passes self attribute v params = Ok false /\
            BeforeOrEqualRule.passes self attribute v params = Ok false /\
            AfterRule.passes self attribute v params = Ok false /\
            AfterOrEqualRule.passes self attribute v params = Ok false).
  { intros self attribute params v Hkey.
    unfold DateRule.passes, BeforeRule.passes, BeforeOrEqualRule.passes,
      AfterRule.passes, AfterOrEqualRule.passes.
    rewrite Hkey. repeat split. }
  split; [exact Hvalue|]. split.
  - intros self attribute params.
    apply Hvalue, Hcontract. right. now left.
  - intros keyword Hin. destruct (Hcontract keyword Hin) as [_ [other Hother]].
    exists other. split; [exact Hother|].
    intros self attribute v date params Hv Hdate.
    unfold BeforeRule.passes, AfterRule.passes, compare_days.
    rewrite Hv, Hdate. simpl. rewrite Hother. simpl. split; reflexivity.
Qed.

(** C3, where the code departs from the claim: on a field declared
    [numeric] (or [integer]) the predicate of [min] fails every float value,
    whatever the minimum -- also a float that is at least the minimum --
    because it tests [isinstance(value, int)]; the predicate of [numeric]
    accepts the same value. *)
Theorem C3_min_fails_every_float_on_a_numeric_field
    (self : Rule.t) (attribute : string) (q : Q) (p : param) (params : list param)
    (min_value : pyfloat) :
  Rule.get_value_type self = Some NUMERIC \/ Rule.get_value_type self = Some INTEGER ->
  float p = Ok min_value ->
  MinRule.passes self attribute (VFloat q) (p :: params) = Ok false /\
  NumericRule.passes self attribute (VFloat q) [] = Ok true.
Proof.
  intros Htype Hfloat. split; [|reflexivity].
  unfold MinRule.passes. simpl. rewrite Hfloat. simpl.
  destruct Htype as [-> | ->]; reflexivity.
Qed.
End DateAndMinFacts.

(** The concrete date service meets the contract. *)
Lemma plain_date_service : @date_service_contract plain_externals.
Proof.
  intros keyword [<-|[<-|[<-|[]]]]; (split; [reflexivity|eexists; reflexivity]).
Defined.

(** The statement of C6 at the concrete date service. *)
Lemma C6_witness :
  @date_service_contract plain_externals /\
  @DateRule.passes plain_externals string_rule "day" (VStr "tomorrow") [PStr "%Y-%m-%d"]
  = Ok false /\
  @BeforeRule.passes plain_externals string_rule "day" (VStr "2390") [PStr "tomorrow"]
  = Ok true.
Proof.
  destruct (@C6_keyword_rejected_as_value_accepted_as_argument plain_externals
              plain_date_service) as (_ & Hdate & Hargument).
  split; [exact plain_date_service|]. split; [apply Hdate|].
  destruct (Hargument "tomorrow") as (other & Hother & Hcompare); [right; now left|].
  injection Hother as <-.
  exact (proj1 (Hcompare string_rule "day" (VStr "2390") 2390%Z [] eq_refl eq_refl)).
Defined.

(** The statement of C3 at the value 2.5 and the rules "numeric|min:1": the
    predicate of [min] fails although 1 <= 2.5, and validation reports the
    [en.min.numeric] message for the field. *)
Lemma C3_witness :
  (Rule.get_value_type numeric_min_rule = Some NUMERIC \/
   Rule.get_value_type numeric_min_rule = Some INTEGER) /\
  @float plain_externals (PStr "1") = Ok (FNum 1) /\
  Qle_bool 1 (5 # 2) = true /\
  @MinRule.passes plain_externals numeric_min_rule "x" (VFloat (5 # 2)) [PStr "1"] = Ok false /\
  NumericRule.passes numeric_min_rule "x" (VFloat (5 # 2)) [] = Ok true /\
  exists self' log,
    @construct_and_validate plain_externals float_data float_rules
    = Ok (self', log, Raise ValidationError) /\
    Validator.errors self'
    = {[ "x" := [render "en.min.numeric" [("attribute", PStr "x"); ("min", PStr "1")]] ]}.
Proof.
  assert (Htype : Rule.get_value_type numeric_min_rule = Some NUMERIC \/
                  Rule.get_value_type numeric_min_rule = Some INTEGER) by (left; reflexivity).
  assert (Hfloat : @float plain_externals (PStr "1") = Ok (FNum 1)) by reflexivity.
  destruct (@C3_min_fails_every_float_on_a_numeric_field plain_externals numeric_min_rule
              "x" (5 # 2) (PStr "1") [] (FNum 1) Htype Hfloat) as [Hmin Hnumeric].
  split; [exact Htype|]. split; [exact Hfloat|]. split; [reflexivity|].
  split; [exact Hmin|]. split; [exact Hnumeric|].
  destruct (@construct_and_validate plain_externals float_data float_rules)
    as [[[self' log] out]|e] eqn:E; vm_compute in E; [|discriminate E].
  injection E as <- <- <-. do 2 eexists. split; [reflexivity|].
  vm_compute. reflexivity.
Defined.

(** ** Field names are unique, and which entries alias a Ruleset *)

Section AliasFacts.
Context `{Externals}.

Lemma In_setitem_names {A : Type} (d : list (string * A)) (key k : string) (x : A) :
  In k (map fst (setitem d key x)) -> k = key \/ In k (map fst d).
Proof.
  intros Hin. apply in_map_iff in Hin as ([k' y] & <- & Hin).
  apply In_setitem in Hin as [[= -> ->]|Hin]; [now left|].
  right. apply in_map_iff. now exists (k', y).
Qed.

Lemma setitem_NoDup {A : Type} (d : list (string * A)) (key : string) (x : A) :
  List.NoDup (map fst d) -> List.NoDup (map fst (setitem d key x)).
Proof.
  induction d as [|[k y] d IH]; simpl; intros Hd.
  - constructor; [intros []|constructor].
  - inversion Hd as [|? ? Hk Hd']; subst.
    destruct (String.eqb k key) eqn:E; simpl.
    + apply String.eqb_eq in E. subst k. now constructor.
    + apply String.eqb_neq in E. constructor; [|now apply IH].
      intros Hin. apply In_setitem_names in Hin as [->|Hin]; [now apply E|now apply Hk].
Qed.

Lemma rule_list_NoDup (rules : list (string * rules_arg)) (rule_list : RuleList.t) :
  RuleList.init rules = Ok rule_list -> List.NoDup (map fst rule_list).
Proof.
  unfold RuleList.init, RuleList._parse.
  assert (Hloop : forall parsed : RuleList.t,
            List.NoDup (map fst parsed) ->
            RuleList._parse_loop rules parsed = Ok rule_list ->
            List.NoDup (map fst rule_list)).
  { induction rules as [|[attribute arg] rest IH]; intros parsed Hparsed; simpl.
    - now intros [= <-].
    - destruct (Ruleset.init arg) as [ruleset|e]; simpl; [|discriminate].
      apply IH. now apply setitem_NoDup. }
  apply Hloop. constructor.
Qed.

Lemma dict_get_not_In {A : Type} (d : list (string * A)) (key : string) :
  ~ In key (map fst d) -> dict_get key d = None.
Proof.
  induction d as [|[k y] d IH]; simpl; [reflexivity|].
  intros Hnot. destruct (String.eqb k key) eqn:E.
  - apply String.eqb_eq in E. exfalso. apply Hnot. now left.
  - apply IH. intros Hin. apply Hnot. now right.
Qed.

Lemma dict_get_Some_In {A : Type} (d : list (string * A)) (key : string) (x : A) :
  dict_get key d = Some x -> In key (map fst d).
Proof.
  intros Hget. apply dict_get_In in Hget. apply in_map_iff. now exists (key, x).
Qed.

(** An entry of the errors mapping that aliases the list of a field's
    Ruleset was stored by the main loop for that field, whose Ruleset had
    appended a message. *)

Lemma validate_items_aliases (attribute : string) (ruleset : Ruleset.t)
    (value_details : list (nat * details)) :
  forall errs extra_rules errs' extra_rules' log out key,
    Validator.validate_items attribute ruleset value_details errs extra_rules
    = (errs', extra_rules', log, out) ->
    errs' !! key = Some Validator.FieldErrors -> errs !! key = Some Validator.FieldErrors.
Proof.
  induction value_details as [|[i d] rest IH];
    intros errs extra_rules errs' extra_rules' log out key; simpl.
  - now intros [= <- _ _ _].
  - destruct (Validator._extract_list_details attribute i d)
      as [item_attribute [item_value ex|items]]; [|now intros [= <- _ _ _]].
    destruct (Ruleset.validate _ item_attribute item_value ex) as [[clone log1] [[]|e1]].
    + destruct (Validator._get_extra_rules item_attribute item_value clone) as [more|e];
        [|now intros [= <- _ _ _]].
      destruct (Validator.validate_items attribute ruleset rest errs _)
        as [[[errs1 extra1] log2] out2] eqn:Hrest.
      intros [= <- _ _ _]. eapply IH, Hrest.
    + destruct e1; try now intros [= <- _ _ _].
      destruct (Validator.validate_items attribute ruleset rest _ extra_rules)
        as [[[errs1 extra1] log2] out2] eqn:Hrest.
      intros [= <- _ _ _] Hkey. eapply IH in Hkey; [|exact Hrest].
      destruct (decide (item_attribute = key)) as [->|Hne].
      * rewrite lookup_insert_eq in Hkey. discriminate Hkey.
      * now rewrite lookup_insert_ne in Hkey.
Qed.

Lemma validate_extra_rules_aliases (extra_rules : list Validator.extra_rule) :
  forall errs errs' log out key,
    Validator.validate_extra_rules extra_rules errs = (errs', log, out) ->
    errs' !! key = Some Validator.FieldErrors -> errs !! key = Some Validator.FieldErrors.
Proof.
  induction extra_rules as [|[[extra_attribute extra_rule] extra_value] rest IH];
    intros errs errs' log out key; simpl.
  - now intros [= <- _ _].
  - destruct (Ruleset.validate extra_rule extra_attribute extra_value true)
      as [[rule1 log1] [[]|e1]].
    + destruct (Validator.validate_extra_rules rest errs) as [[errs1 log2] out2] eqn:Hrest.
      intros [= <- _ _]. eapply IH, Hrest.
    + destruct e1; try now intros [= <- _ _].
      destruct (Validator.validate_extra_rules rest _) as [[errs1 log2] out2] eqn:Hrest.
      intros [= <- _ _] Hkey. eapply IH in Hkey; [|exact Hrest].
      destruct (decide (extra_attribute = key)) as [->|Hne].
      * rewrite lookup_insert_eq in Hkey. discriminate Hkey.
      * now rewrite lookup_insert_ne in Hkey.
Qed.

Lemma validate_field_aliases (data : value) (attribute : string) (ruleset : Ruleset.t) :
  fresh ruleset ->
  forall errs extra_rules ruleset1 errs' extra_rules' log out key,
    Validator.validate_field data attribute ruleset errs extra_rules
    = (ruleset1, errs', extra_rules', log, out) ->
    errs' !! key = Some Validator.FieldErrors ->
    errs !! key = Some Validator.FieldErrors \/
    (key = attribute /\ Ruleset._errors ruleset1 <> []).
Proof.
  intros Hfresh errs extra_rules ruleset1 errs' extra_rules' log out key.
  unfold Validator.validate_field.
  destruct (modify_dependent_rules_cases data ruleset)
    as [(m1 & -> & Herrs)|(e & -> & Hne)]; [|intros [= _ <- _ _ _]; now left].
  assert (Hfresh1 : fresh m1) by (unfold fresh; now rewrite Herrs).
  destruct (JsonSchema.get_value_details data attribute) as [v ex|items].
  - destruct (Ruleset.validate m1 attribute v ex) as [[x1 log1] out1] eqn:Hv.
    destruct (validate_fresh _ _ _ _ _ _ _ Hfresh1 Hv) as (_ & He1 & Hout1).
    destruct out1 as [[]|e1].
    + destruct (Validator._get_extra_rules attribute v x1);
        intros [= _ <- _ _ _]; now left.
    + destruct e1; try (intros [= _ <- _ _ _]; now left).
      specialize (Hout1 eq_refl).
      destruct (decide (messages_of log1 = [])) as [|Hm1]; [discriminate Hout1|].
      intros [= <- <- _ _ _] Hkey.
      destruct (decide (attribute = key)) as [->|Hne].
      * right. split; [reflexivity|]. now rewrite He1.
      * left. now rewrite lookup_insert_ne in Hkey.
  - destruct (Validator.validate_items attribute m1 items errs extra_rules)
      as [[[errs1 extra1] log1] out1] eqn:Hitems.
    intros [= _ <- _ _ _] Hkey. left. eapply validate_items_aliases; eassumption.
Qed.

Lemma validate_fields_aliases (data : value) (fields : RuleList.t) :
  Forall (fun field => fresh (snd field)) fields ->
  List.NoDup (map fst fields) ->
  forall errs extra_rules fields1 errs' extra_rules' log key,
    Forall fresh_extra extra_rules ->
    Validator.validate_fields data fields errs extra_rules
    = (fields1, errs', extra_rules', log, Ok tt) ->
    errs' !! key = Some Validator.FieldErrors ->
    errs !! key = Some Validator.FieldErrors \/
    (exists ruleset1, dict_get key fields1 = Some ruleset1 /\ Ruleset._errors ruleset1 <> []).
Proof.
  induction fields as [|[attribute ruleset] rest IH];
    intros Hfresh Hnodup errs extra_rules fields1 errs' extra_rules' log key Hextra; simpl.
  - intros [= _ <- _ _]. now left.
  - inversion Hfresh as [|? ? Hfresh1 Hfresh_rest]; subst.
    inversion Hnodup as [|? ? Hnotin Hnodup_rest]; subst.
    destruct (Validator.validate_field data attribute ruleset errs extra_rules)
      as [[[[ruleset1 errs1] extra1] log1] out1] eqn:Hfield.
    destruct out1 as [[]|e1]; [|discriminate].
    destruct (validate_field_spec _ _ _ Hfresh1 _ _ _ _ _ _ _ Hextra Hfield) as [_ Hok1].
    destruct (Hok1 eq_refl) as (_ & Hextra1 & _).
    destruct (Validator.validate_fields data rest errs1 extra1)
      as [[[[rest1 errs2] extra2] log2] out2] eqn:Hrest.
    intros [= <- <- _ _ ->] Hkey.
    destruct (validate_fields_spec _ _ Hfresh_rest _ _ _ _ _ _ _ Hextra1 Hrest) as [_ Hok2].
    destruct (Hok2 eq_refl) as (_ & Hnames & _).
    destruct (IH Hfresh_rest Hnodup_rest _ _ _ _ _ _ key Hextra1 Hrest Hkey)
      as [Hkey1|(ruleset2 & Hget & Hne)].
    + destruct (validate_field_aliases _ _ _ Hfresh1 _ _ _ _ _ _ _ key Hfield Hkey1)
        as [Hkey0|[-> Hne]]; [now left|].
      right. exists ruleset1. simpl. now rewrite String.eqb_refl.
    + right. exists ruleset2. simpl.
      destruct (String.eqb attribute key) eqn:E; [|now split].
      apply String.eqb_eq in E. subst key. exfalso. apply Hnotin.
      rewrite <- Hnames. eapply dict_get_Some_In, Hget.
Qed.
End AliasFacts.

(** ** Calling [validate()] twice *)

Section TwiceFacts.
Context `{Externals}.

Lemma agree_item_refl (x : string * Rule.t) : agree_item x x.
Proof. repeat split. now left. Qed.

Lemma agree_refl (rules : list (string * Rule.t)) : Forall2 agree_item rules rules.
Proof. induction rules; constructor; [apply agree_item_refl|assumption]. Qed.

Lemma agree_item_trans (x y z : string * Rule.t) :
  agree_item x y -> agree_item y z -> agree_item x z.
Proof.
  intros (Hn & Hc & Hm & Hp) (Hn' & Hc' & Hm' & Hp').
  split; [congruence|]. split; [congruence|]. split; [congruence|].
  destruct Hp as [Hp|(Hs & Hcs & H0 & H1)], Hp' as [Hp'|(Hs' & Hcs' & H0' & H1')].
  - left. congruence.
  - right. rewrite Hp. repeat split; congruence.
  - right. rewrite <- Hp'. repeat split; congruence.
  - right. repeat split; congruence.
Qed.

Lemma agree_trans (l1 l2 l3 : list (string * Rule.t)) :
  Forall2 agree_item l1 l2 -> Forall2 agree_item l2 l3 -> Forall2 agree_item l1 l3.
Proof.
  intros H12. revert l3. induction H12 as [|x y l l' Hxy _ IH]; intros l3 H23;
    inversion H23; subst; constructor.
  - eapply agree_item_trans; eassumption.
  - now apply IH.
Qed.

Lemma set_transient_agree (m m' : Metadata) (value_exists : bool) (v : value) :
  persistent m = persistent m' ->
  fold_left Rule.set_item [m_value_exists value_exists; m_value v] m
  = fold_left Rule.set_item [m_value_exists value_exists; m_value v] m'.
Proof. unfold persistent. intros [= Ht Hr Hn]. simpl. now rewrite Ht, Hr, Hn. Qed.

Lemma passes_agree (c : rule_class) (params params' : list param) (m : Metadata)
    (rule_name attribute : string) (v : value) :
  (params = params' \/
   (rule_name = "same" /\ c = cSame /\
    nth_error params 0 = nth_error params' 0 /\ nth_error params 1 = nth_error params' 1)) ->
  passes {| Rule.cls := c; Rule._params := params; Rule._metadata := m |} attribute v params
  = passes {| Rule.cls := c; Rule._params := params'; Rule._metadata := m |} attribute v params'
  /\
  message {| Rule.cls := c; Rule._params := params; Rule._metadata := m |} attribute v params
  = message {| Rule.cls := c; Rule._params := params'; Rule._metadata := m |} attribute v params'.
Proof.
  intros [->|(_ & -> & H0 & H1)]; [now split|].
  unfold passes, message. cbn [Rule.cls].
  unfold SameRule.passes, SameRule.message, index.
  now rewrite H0, H1.
Qed.

Lemma validate_rule_agree (attribute : string) (v : value) (value_exists : bool)
    (rule_name : string) (rule rule' rule1 : Rule.t) (log : list event)
    (out : result (option string)) :
  agree_item (rule_name, rule) (rule_name, rule') ->
  Ruleset.validate_rule attribute v value_exists rule_name rule = (rule1, log, out) ->
  exists rule1',
    Ruleset.validate_rule attribute v value_exists rule_name rule' = (rule1', log, out) /\
    agree_item (rule_name, rule1) (rule_name, rule1').
Proof.
  intros (_ & Hc & Hm & Hp). simpl in Hc, Hm, Hp.
  destruct rule as [c params m], rule' as [c' params' m']. simpl in Hc, Hm, Hp. subst c'.
  unfold Ruleset.validate_rule, Rule.set_metadata, Rule.get_params. simpl Rule._metadata.
  cbn [Rule.cls Rule._params Rule._metadata].
  rewrite (set_transient_agree m m' value_exists v Hm).
  set (ms := fold_left Rule.set_item [m_value_exists value_exists; m_value v] m').
  destruct (passes_agree c params params' ms rule_name attribute v Hp) as [Hpass Hmsg].
  unfold Rule.is_skippable, Rule.value_is_None, Rule.is_nullable, Rule.is_required.
  cbn [Rule.cls Rule._params Rule._metadata].
  rewrite <- Hpass, <- Hmsg.
  destruct (_ && _).
  - intros [= <- <- <-]. eexists. split; [reflexivity|]. repeat split. exact Hp.
  - destruct (passes _ attribute v params) as [[|]|e].
    + intros [= <- <- <-]. eexists. split; [reflexivity|]. repeat split. exact Hp.
    + destruct (message _ attribute v params) as [msg|e].
      * intros [= <- <- <-]. eexists. split; [reflexivity|]. repeat split. exact Hp.
      * intros [= <- <- <-]. eexists. split; [reflexivity|]. repeat split. exact Hp.
    + intros [= <- <- <-]. eexists. split; [reflexivity|]. repeat split. exact Hp.
Qed.

Lemma validate_rule_keeps (attribute : string) (v : value) (value_exists : bool)
    (rule_name : string) (rule rule1 : Rule.t) (log : list event)
    (out : result (option string)) :
  Ruleset.validate_rule attribute v value_exists rule_name rule = (rule1, log, out) ->
  agree_item (rule_name, rule) (rule_name, rule1).
Proof.
  destruct rule as [c params m].
  unfold Ruleset.validate_rule. destruct (Rule.is_skippable _).
  - intros [= <- _ _]. repeat split. now left.
  - destruct (passes _ attribute v _) as [[|]|e].
    + intros [= <- _ _]. repeat split. now left.
    + destruct (message _ attribute v _) as [msg|e]; intros [= <- _ _]; repeat split; now left.
    + intros [= <- _ _]. repeat split. now left.
Qed.

Lemma validate_rules_agree (attribute : string) (v : value) (value_exists : bool)
    (rules : list (string * Rule.t)) :
  forall rules' errs errs' rules1 errs1 log out,
    Forall2 agree_item rules rules' ->
    Ruleset.validate_rules attribute v value_exists rules errs = (rules1, errs1, log, out) ->
    exists rules1',
      Ruleset.validate_rules attribute v value_exists rules' errs'
      = (rules1', errs' ++ messages_of log, log, out) /\
      Forall2 agree_item rules1 rules1'.
Proof.
  induction rules as [|[rule_name rule] rest IH];
    intros rules' errs errs' rules1 errs1 log out Hagree; inversion Hagree; subst; simpl.
  - intros [= <- <- <- <-]. eexists. rewrite app_nil_r. split; [reflexivity|constructor].
  - destruct y as [rule_name' rule'].
    match goal with Hxy : agree_item _ _ |- _ =>
      assert (Hname : rule_name = rule_name') by (now destruct Hxy); subst rule_name';
      rename Hxy into Hitem end.
    destruct (Ruleset.validate_rule attribute v value_exists rule_name rule)
      as [[rule1 log1] out1] eqn:Hr.
    destruct (validate_rule_agree _ _ _ _ _ _ _ _ _ Hitem Hr) as (rule1' & -> & Hitem1).
    pose proof (validate_rule_events _ _ _ _ _ _ _ _ Hr) as [_ Hm1].
    destruct out1 as [appended|e].
    + destruct (Ruleset.validate_rules attribute v value_exists rest _)
        as [[[rest1 errs2] log2] out2] eqn:Hrest.
      intros [= <- <- <- <-].
      match goal with Hl : Forall2 agree_item rest ?l' |- _ =>
        destruct (IH l' _ (match appended with Some msg => errs' ++ [msg] | None => errs' end)
                    _ _ _ _ Hl Hrest) as (rest1' & -> & Hrest1) end.
      eexists. split; [|constructor; [exact Hitem1|exact Hrest1]].
      rewrite messages_of_app, Hm1. destruct appended; simpl; [|reflexivity].
      now rewrite <- app_assoc.
    + intros [= <- <- <- <-]. eexists. rewrite Hm1, app_nil_r.
      split; [reflexivity|]. constructor; assumption.
Qed.

Lemma validate_rules_keeps (attribute : string) (v : value) (value_exists : bool)
    (rules : list (string * Rule.t)) :
  forall errs rules1 errs1 log out,
    Ruleset.validate_rules attribute v value_exists rules errs = (rules1, errs1, log, out) ->
    Forall2 agree_item rules rules1.
Proof.
  induction rules as [|[rule_name rule] rest IH]; intros errs rules1 errs1 log out; simpl.
  - intros [= <- _ _ _]. constructor.
  - destruct (Ruleset.validate_rule attribute v value_exists rule_name rule)
      as [[rule1 log1] out1] eqn:Hr.
    apply validate_rule_keeps in Hr.
    destruct out1 as [appended|e].
    + destruct (Ruleset.validate_rules attribute v value_exists rest _)
        as [[[rest1 errs2] log2] out2] eqn:Hrest.
      intros [= <- _ _ _]. constructor; [exact Hr|eapply IH, Hrest].
    + intros [= <- _ _ _]. constructor; [exact Hr|].
      apply agree_refl.
Qed.

Lemma agree_names (rules rules' : list (string * Rule.t)) :
  Forall2 agree_item rules rules' -> map fst rules = map fst rules'.
Proof.
  induction 1 as [|x y l l' (Hn & _) _ IH]; [reflexivity|]. simpl. now rewrite Hn, IH.
Qed.

Lemma dict_get_agree (rules rules' : list (string * Rule.t)) (key : string) :
  Forall2 agree_item rules rules' ->
  match dict_get key rules, dict_get key rules' with
  | Some rule, Some rule' => agree_item (key, rule) (key, rule')
  | None, None => True
  | _, _ => False
  end.
Proof.
  induction 1 as [|[n r] [n' r'] l l' Hitem _ IH]; simpl; [exact I|].
  destruct Hitem as (Hn & Hc & Hm & Hp). simpl in Hn. subst n'.
  destruct (String.eqb n key) eqn:E; [|exact IH].
  apply String.eqb_eq in E. subst n. repeat split; assumption.
Qed.

Lemma settled_agree (rules rules' : list (string * Rule.t)) :
  Forall2 agree_item rules rules' -> settled rules -> settled rules'.
Proof.
  intros Hagree Hs rule' Hget'.
  pose proof (dict_get_agree _ _ "same" Hagree) as Hd. rewrite Hget' in Hd.
  destruct (dict_get "same" rules) as [rule|] eqn:Hget; [|contradiction].
  destruct (Hs rule Hget) as (Hc & [other H0] & H1).
  destruct Hd as (_ & Hc' & _ & Hp). cbn [fst snd] in Hc', Hp.
  split; [congruence|].
  destruct Hp as [<-|(_ & _ & H0' & H1')]; [split; [now exists other|exact H1]|].
  split; [exists other; congruence|congruence].
Qed.

Lemma setitem_agree (rules : list (string * Rule.t)) (key : string) (rule rule' : Rule.t) :
  dict_get key rules = Some rule ->
  agree_item (key, rule) (key, rule') ->
  Forall2 agree_item rules (setitem rules key rule').
Proof.
  intros Hget Hitem. induction rules as [|[n r] l IH]; simpl in *; [discriminate|].
  destruct (String.eqb n key) eqn:E.
  - apply String.eqb_eq in E. subst n. injection Hget as ->.
    constructor; [exact Hitem|].
    apply agree_refl.
  - constructor; [apply agree_item_refl|now apply IH].
Qed.

Lemma get_extra_rules_agree (attribute : string) (v : value) (x y : Ruleset.t) :
  Forall2 agree_item (Ruleset._rules x) (Ruleset._rules y) ->
  Validator._get_extra_rules attribute v x = Validator._get_extra_rules attribute v y.
Proof.
  intros Hagree. unfold Validator._get_extra_rules, Ruleset.get_value_type, Ruleset.get_rule.
  rewrite (agree_names _ _ Hagree).
  destruct (ValueType_eqb _ _); [|reflexivity].
  pose proof (dict_get_agree _ _ "dict" Hagree) as Hd.
  destruct (dict_get "dict" (Ruleset._rules x)) as [r|],
           (dict_get "dict" (Ruleset._rules y)) as [r'|]; try contradiction; [|reflexivity].
  destruct Hd as (_ & _ & _ & [Hp|(Hn & _)]); [|discriminate Hn].
  unfold Rule.get_params. simpl in Hp. now rewrite Hp.
Qed.

(** [_modify_dependent_rules] on a Ruleset it has rewritten before *)
Lemma modify_settled (data : value) (ruleset : Ruleset.t) :
  settled (Ruleset._rules ruleset) ->
  exists ruleset',
    Validator._modify_dependent_rules data ruleset = Ok ruleset' /\
    Forall2 agree_item (Ruleset._rules ruleset) (Ruleset._rules ruleset') /\
    Ruleset._errors ruleset' = Ruleset._errors ruleset.
Proof.
  intros Hs. unfold Validator._modify_dependent_rules, Ruleset.has_rule, contains,
    Ruleset.get_rule.
  destruct (dict_get "same" (Ruleset._rules ruleset)) as [same_rule|] eqn:Hget.
  - destruct (Hs same_rule Hget) as (Hc & [other H0] & H1).
    unfold index, Rule.get_params. rewrite H0. simpl.
    eexists. split; [reflexivity|]. simpl. split; [|reflexivity].
    apply (setitem_agree _ _ same_rule); [exact Hget|].
    split; [reflexivity|]. split; [reflexivity|]. split; [reflexivity|]. right.
    unfold Rule.add_param. cbn [fst snd Rule.cls Rule._params].
    apply nth_error_Some in H1.
    repeat split; [exact Hc| |]; symmetry; apply nth_error_app1; lia.
  - exists ruleset. split; [reflexivity|]. split; [|reflexivity].
    apply agree_refl.
Qed.

(** [_modify_dependent_rules] on a Ruleset as its constructor built it *)
Lemma modify_built (data : value) (rules : rules_arg) (ruleset ruleset' : Ruleset.t) :
  Ruleset.init rules = Ok ruleset ->
  Validator._modify_dependent_rules data ruleset = Ok ruleset' ->
  settled (Ruleset._rules ruleset') /\ Ruleset._errors ruleset' = [].
Proof.
  intros Hinit. destruct (init_spec _ _ Hinit) as [Hfresh Hrules].
  unfold Validator._modify_dependent_rules, Ruleset.has_rule, contains, Ruleset.get_rule.
  destruct (dict_get "same" (Ruleset._rules ruleset)) as [same_rule|] eqn:Hget.
  - destruct (Hrules _ _ (dict_get_In _ _ _ Hget)) as (Hc & _ & _).
    change (globals_get (Ruleset.class_name "same")) with (Some (GRuleClass cSame)) in Hc.
    injection Hc as Hc.
    unfold index, Rule.get_params.
    destruct (nth_error (Rule._params same_rule) 0) as [[other|d]|] eqn:H0; simpl;
      try discriminate.
    intros [= <-]. simpl. split; [|exact Hfresh].
    intros rule. rewrite dict_get_setitem_eq. intros [= <-].
    unfold Rule.add_param. cbn [Rule.cls Rule._params].
    assert (Hlen : 0 < length (Rule._params same_rule))
      by (apply nth_error_Some; congruence).
    split; [now symmetry|]. split.
    + exists other. rewrite nth_error_app1 by exact Hlen. exact H0.
    + apply nth_error_Some. rewrite length_app. simpl. lia.
  - intros [= <-]. split; [|exact Hfresh]. intros rule Hr. congruence.
Qed.

(** Two calls of [Ruleset.validate] on Rulesets whose rules agree, the
    first ending without a configuration error: the same events, and on
    either side the messages of the call appended to the accumulator. *)
Lemma ruleset_validate_agree (x y x1 : Ruleset.t) (attribute : string) (v : value)
    (value_exists : bool) (log : list event) (out : result unit) :
  Forall2 agree_item (Ruleset._rules x) (Ruleset._rules y) ->
  Ruleset.validate x attribute v value_exists = (x1, log, out) ->
  configuration_error out = false ->
  exists y1,
    Ruleset.validate y attribute v value_exists
    = (y1, log, if Ruleset.has_error y1 then Raise ValidationError else Ok tt) /\
    Forall2 agree_item (Ruleset._rules x1) (Ruleset._rules y1) /\
    Forall2 agree_item (Ruleset._rules x) (Ruleset._rules x1) /\
    Ruleset._errors x1 = Ruleset._errors x ++ messages_of log /\
    Ruleset._errors y1 = Ruleset._errors y ++ messages_of log /\
    out = (if Ruleset.has_error x1 then Raise ValidationError else Ok tt).
Proof.
  intros Hagree Hv Hc.
  destruct (validate_completes _ _ _ _ _ _ _ Hv Hc) as [Hloop Hout].
  destruct (validate_rules_agree _ _ _ _ _ _ (Ruleset._errors y) _ _ _ _ Hagree Hloop)
    as (rules1' & Hloop' & Hagree1).
  pose proof (validate_rules_events _ _ _ _ _ _ _ _ _ Hloop) as [_ Herrs].
  pose proof (validate_rules_keeps _ _ _ _ _ _ _ _ _ Hloop) as Hkeeps.
  exists {| Ruleset._rules := rules1';
            Ruleset._errors := Ruleset._errors y ++ messages_of log |}.
  unfold Ruleset.validate. rewrite Hloop'. simpl.
  repeat split; assumption.
Qed.

Lemma apply_inserts_app (ins ins' : list (string * Validator.errors_entry))
    (errs : gmap string Validator.errors_entry) :
  apply_inserts (ins ++ ins') errs = apply_inserts ins' (apply_inserts ins errs).
Proof. unfold apply_inserts. apply fold_left_app. Qed.

(** The loop over the elements of a wildcard path, run from two Rulesets
    whose rules agree and whose accumulators are equal: the same
    assignments to the errors mapping, the same extra rules, the same
    events. *)
Lemma validate_items_twice (attribute : string) (x y : Ruleset.t)
    (value_details : list (nat * details)) :
  Forall2 agree_item (Ruleset._rules x) (Ruleset._rules y) ->
  Ruleset._errors x = Ruleset._errors y ->
  forall errs extra_rules errs' extra_rules' log,
    Validator.validate_items attribute x value_details errs extra_rules
    = (errs', extra_rules', log, Ok tt) ->
    exists ins more,
      errs' = apply_inserts ins errs /\
      extra_rules' = extra_rules ++ more /\
      forall errs2 extra_rules2,
        Validator.validate_items attribute y value_details errs2 extra_rules2
        = (apply_inserts ins errs2, extra_rules2 ++ more, log, Ok tt).
Proof.
  intros Hagree Herrs.
  induction value_details as [|[i d] rest IH]; intros errs extra_rules errs' extra_rules' log;
    simpl.
  - intros [= <- <- <-]. exists [], []. rewrite app_nil_r. repeat split.
    intros errs2 extra_rules2. now rewrite app_nil_r.
  - destruct (Validator._extract_list_details attribute i d)
      as [item_attribute [item_value ex|items]]; [|discriminate].
    unfold deepcopy.
    destruct (Ruleset.validate x item_attribute item_value ex) as [[x1 log1] out1] eqn:Hv.
    assert (Hc : configuration_error out1 = false \/
                 exists e, out1 = Raise e /\ is_ValidationError e = false).
    { destruct out1 as [[]|e]; [now left|]. destruct (is_ValidationError e) eqn:E.
      - left. simpl. now rewrite E.
      - right. now exists e. }
    destruct Hc as [Hc|(e & -> & He)].
    2:{ destruct e; try discriminate He; discriminate. }
    destruct (ruleset_validate_agree _ _ _ _ _ _ _ _ Hagree Hv Hc)
      as (y1 & Hv' & Hagree1 & _ & Hx1 & Hy1 & Hout).
    assert (Hsame : Ruleset._errors y1 = Ruleset._errors x1) by congruence.
    assert (Hhas : Ruleset.has_error y1 = Ruleset.has_error x1)
      by (unfold Ruleset.has_error; now rewrite Hsame).
    rewrite Hhas in Hv'. rewrite <- Hout in Hv'. clear Hout Hhas.
    destruct out1 as [[]|e1].
    + destruct (Validator._get_extra_rules item_attribute item_value x1) as [more0|e]
        eqn:Hmore; [|discriminate].
      destruct (Validator.validate_items attribute x rest errs (extra_rules ++ more0))
        as [[[errs1 extra1] log2] out2] eqn:Hrest.
      intros [= <- <- <- ->].
      destruct (IH _ _ _ _ _ Hrest) as (ins & more & -> & -> & Hy).
      exists ins, (more0 ++ more). split; [reflexivity|]. split; [now rewrite app_assoc|].
      intros errs2 extra_rules2. rewrite Hv'.
      rewrite <- (get_extra_rules_agree _ _ _ _ Hagree1), Hmore.
      rewrite Hy. now rewrite app_assoc.
    + destruct e1; try discriminate Hc.
      destruct (Validator.validate_items attribute x rest _ extra_rules)
        as [[[errs1 extra1] log2] out2] eqn:Hrest.
      intros [= <- <- <- ->].
      destruct (IH _ _ _ _ _ Hrest) as (ins & more & -> & -> & Hy).
      exists ((item_attribute, Validator.Owned (Ruleset.errors x1)) :: ins), more.
      split; [reflexivity|]. split; [reflexivity|].
      intros errs2 extra_rules2. rewrite Hv'. unfold Ruleset.errors. rewrite Hsame.
      rewrite Hy. reflexivity.
Qed.

(** One iteration of the main loop on a Ruleset as its constructor built
    it, ending without a configuration error, and the same iteration again
    on the Ruleset the first one left: the same assignments to the errors
    mapping, the same extra rules, the same events, and the accumulator of
    the Ruleset holds its messages twice. *)
Lemma validate_field_twice (data : value) (attribute : string) (rules : rules_arg)
    (ruleset : Ruleset.t) :
  Ruleset.init rules = Ok ruleset ->
  forall errs extra_rules ruleset1 errs' extra_rules' log,
    Validator.validate_field data attribute ruleset errs extra_rules
    = (ruleset1, errs', extra_rules', log, Ok tt) ->
    exists ins more,
      errs' = apply_inserts ins errs /\
      extra_rules' = extra_rules ++ more /\
      forall errs2 extra_rules2,
        exists ruleset2,
          Validator.validate_field data attribute ruleset1 errs2 extra_rules2
          = (ruleset2, apply_inserts ins errs2, extra_rules2 ++ more, log, Ok tt) /\
          Ruleset._errors ruleset2 = Ruleset._errors ruleset1 ++ Ruleset._errors ruleset1.
Proof.
  intros Hinit errs extra_rules ruleset1 errs' extra_rules' log.
  unfold Validator.validate_field at 1.
  destruct (Validator._modify_dependent_rules data ruleset) as [m1|e] eqn:Hmod;
    [|discriminate].
  destruct (modify_built _ _ _ _ Hinit Hmod) as [Hsettled Hfresh].
  destruct (JsonSchema.get_value_details data attribute) as [v ex|items] eqn:Hdetails.
  - destruct (Ruleset.validate m1 attribute v ex) as [[x1 log1] out1] eqn:Hv.
    assert (Hc : configuration_error out1 = false \/
                 exists e, out1 = Raise e /\ is_ValidationError e = false).
    { destruct out1 as [[]|e]; [now left|]. destruct (is_ValidationError e) eqn:E.
      - left. simpl. now rewrite E.
      - right. now exists e. }
    destruct Hc as [Hc|(e & -> & He)].
    2:{ destruct e; try discriminate He; discriminate. }
    destruct (ruleset_validate_agree _ m1 _ _ _ _ _ _ (agree_refl _) Hv Hc)
      as (_ & _ & _ & Hkeeps & Hx1 & _ & Hout).
    rewrite Hfresh in Hx1. simpl in Hx1.
    pose proof (settled_agree _ _ Hkeeps Hsettled) as Hsettled1.
    assert (Hsecond :
              exists m2 y1,
                Validator._modify_dependent_rules data x1 = Ok m2 /\
                Ruleset.validate m2 attribute v ex = (y1, log1, out1) /\
                Forall2 agree_item (Ruleset._rules x1) (Ruleset._rules y1) /\
                Ruleset._errors y1 = Ruleset._errors x1 ++ Ruleset._errors x1).
    { destruct (modify_settled data x1 Hsettled1) as (m2 & Hmod2 & Hagree2 & Herrs2).
      assert (Hagree : Forall2 agree_item (Ruleset._rules m1) (Ruleset._rules m2)).
      { eapply agree_trans; [exact Hkeeps|exact Hagree2]. }
      destruct (ruleset_validate_agree _ _ _ _ _ _ _ _ Hagree Hv Hc)
        as (y1 & Hv2 & Hagree1 & _ & _ & Hy1 & _).
      exists m2, y1. split; [exact Hmod2|].
      rewrite Herrs2, Hx1 in Hy1.
      split; [|split; [exact Hagree1|now rewrite Hx1]].
      rewrite Hv2. f_equal. rewrite Hout. unfold Ruleset.has_error. rewrite Hy1, Hx1.
      now destruct (messages_of log1). }
    destruct out1 as [[]|e1].
    + destruct (Validator._get_extra_rules attribute v x1) as [more|e] eqn:Hmore;
        [|discriminate].
      intros [= <- <- <- <-]. exists [], more. split; [reflexivity|]. split; [reflexivity|].
      intros errs2 extra_rules2.
      destruct Hsecond as (m2 & y1 & Hmod2 & Hv2 & Hagree1 & Herrs).
      exists y1. unfold Validator.validate_field. rewrite Hmod2, Hdetails, Hv2.
      rewrite <- (get_extra_rules_agree _ _ _ _ Hagree1), Hmore. now split.
    + destruct e1; try discriminate Hc.
      intros [= <- <- <- <-].
      exists [(attribute, Validator.FieldErrors)], []. split; [reflexivity|].
      split; [now rewrite app_nil_r|].
      intros errs2 extra_rules2.
      destruct Hsecond as (m2 & y1 & Hmod2 & Hv2 & Hagree1 & Herrs).
      exists y1. unfold Validator.validate_field. rewrite Hmod2, Hdetails, Hv2.
      rewrite app_nil_r. now split.
  - destruct (Validator.validate_items attribute m1 items errs extra_rules)
      as [[[errs1 extra1] log1] out1] eqn:Hitems.
    intros [= <- <- <- <- ->].
    destruct (modify_settled data m1 Hsettled) as (m2 & Hmod2 & Hagree2 & Herrs2).
    destruct (validate_items_twice attribute m1 m2 items Hagree2 (eq_sym Herrs2)
                _ _ _ _ _ Hitems) as (ins & more & -> & -> & Hy).
    exists ins, more. split; [reflexivity|]. split; [reflexivity|].
    intros errs2 extra_rules2. exists m2.
    unfold Validator.validate_field. rewrite Hmod2, Hdetails, Hy.
    split; [reflexivity|]. now rewrite Herrs2, Hfresh.
Qed.

Lemma rule_list_built (rules : list (string * rules_arg)) (rule_list : RuleList.t) :
  RuleList.init rules = Ok rule_list -> Forall (fun field => built (snd field)) rule_list.
Proof.
  unfold RuleList.init, RuleList._parse.
  assert (Hloop : forall parsed,
            Forall (fun field : string * Ruleset.t => built (snd field)) parsed ->
            RuleList._parse_loop rules parsed = Ok rule_list ->
            Forall (fun field => built (snd field)) rule_list).
  { induction rules as [|[attribute arg] rest IH]; intros parsed Hparsed; simpl.
    - now intros [= <-].
    - destruct (Ruleset.init arg) as [ruleset|e] eqn:Hinit; simpl; [|discriminate].
      apply IH. apply List.Forall_forall. intros [a rs] Hin.
      apply In_setitem in Hin as [[= -> ->]|Hin].
      + simpl. now exists arg.
      + rewrite List.Forall_forall in Hparsed. now apply (Hparsed (a, rs)). }
  apply Hloop. constructor.
Qed.

(** The main loop run on the declared fields as constructed, ending without
    a configuration error, and run again on the fields it left. *)
Lemma validate_fields_twice (data : value) (fields : RuleList.t) :
  Forall (fun field => built (snd field)) fields ->
  forall errs extra_rules fields1 errs' extra_rules' log,
    Validator.validate_fields data fields errs extra_rules
    = (fields1, errs', extra_rules', log, Ok tt) ->
    exists ins more,
      errs' = apply_inserts ins errs /\
      extra_rules' = extra_rules ++ more /\
      forall errs2 extra_rules2,
        exists fields2,
          Validator.validate_fields data fields1 errs2 extra_rules2
          = (fields2, apply_inserts ins errs2, extra_rules2 ++ more, log, Ok tt) /\
          Forall2 doubled fields1 fields2.
Proof.
  induction fields as [|[attribute ruleset] rest IH];
    intros Hbuilt errs extra_rules fields1 errs' extra_rules' log; simpl.
  - intros [= <- <- <- <-]. exists [], []. rewrite app_nil_r. repeat split.
    intros errs2 extra_rules2. exists []. rewrite app_nil_r. split; [reflexivity|constructor].
  - inversion Hbuilt as [|? ? [arg Hinit] Hbuilt_rest]; subst.
    destruct (Validator.validate_field data attribute ruleset errs extra_rules)
      as [[[[ruleset1 errs1] extra1] log1] out1] eqn:Hfield.
    destruct out1 as [[]|e1]; [|discriminate].
    destruct (Validator.validate_fields data rest errs1 extra1)
      as [[[[rest1 errs2] extra2] log2] out2] eqn:Hrest.
    intros [= <- <- <- <- ->].
    destruct (validate_field_twice _ _ _ _ Hinit _ _ _ _ _ _ Hfield)
      as (ins1 & more1 & -> & -> & Hfield2).
    destruct (IH Hbuilt_rest _ _ _ _ _ _ Hrest) as (ins2 & more2 & -> & -> & Hrest2).
    exists (ins1 ++ ins2), (more1 ++ more2).
    split; [now rewrite apply_inserts_app|]. split; [now rewrite app_assoc|].
    intros errsB extraB.
    destruct (Hfield2 errsB extraB) as (ruleset2 & Hf2 & Herrs2).
    destruct (Hrest2 (apply_inserts ins1 errsB) (extraB ++ more1)) as (rest2 & Hr2 & Hd2).
    exists ((attribute, ruleset2) :: rest2). simpl. rewrite Hf2, Hr2.
    rewrite apply_inserts_app, app_assoc. split; [reflexivity|].
    constructor; [now split|exact Hd2].
Qed.

(** The loop over the extra rules computes its assignments from the extra
    rules alone. *)
Lemma validate_extra_rules_inserts (extra_rules : list Validator.extra_rule) :
  forall errs errs' log out,
    Validator.validate_extra_rules extra_rules errs = (errs', log, out) ->
    exists ins,
      errs' = apply_inserts ins errs /\
      forall errs2,
        Validator.validate_extra_rules extra_rules errs2 = (apply_inserts ins errs2, log, out).
Proof.
  induction extra_rules as [|[[extra_attribute extra_rule] extra_value] rest IH];
    intros errs errs' log out; simpl.
  - intros [= <- <- <-]. now exists [].
  - destruct (Ruleset.validate extra_rule extra_attribute extra_value true)
      as [[rule1 log1] [[]|e1]].
    + destruct (Validator.validate_extra_rules rest errs) as [[errs1 log2] out2] eqn:Hrest.
      intros [= <- <- <-]. destruct (IH _ _ _ _ Hrest) as (ins & -> & Hy).
      exists ins. split; [reflexivity|]. intros errs2. now rewrite Hy.
    + destruct e1; try (intros [= <- <- <-]; now exists []).
      destruct (Validator.validate_extra_rules rest _) as [[errs1 log2] out2] eqn:Hrest.
      intros [= <- <- <-]. destruct (IH _ _ _ _ Hrest) as (ins & -> & Hy).
      exists ((extra_attribute, Validator.Owned (Ruleset.errors rule1)) :: ins).
      split; [reflexivity|]. intros errs2. simpl. now rewrite Hy.
Qed.

Lemma lookup_apply_inserts (ins : list (string * Validator.errors_entry)) :
  forall (errs : gmap string Validator.errors_entry) (key : string),
    apply_inserts ins errs !! key
    = match last_binding key ins with
      | Some entry => Some entry
      | None => errs !! key
      end.
Proof.
  induction ins as [|[k entry] ins IH]; intros errs key; [reflexivity|].
  change (apply_inserts ((k, entry) :: ins) errs)
    with (apply_inserts ins (<[k := entry]> errs)).
  rewrite IH. simpl. destruct (last_binding key ins); [reflexivity|].
  destruct (String.eqb k key) eqn:E.
  - apply String.eqb_eq in E. subst k. apply lookup_insert_eq.
  - apply String.eqb_neq in E. now apply lookup_insert_ne.
Qed.

(** Replaying a sequence of assignments on its own result changes nothing. *)
Lemma apply_inserts_twice (ins : list (string * Validator.errors_entry))
    (errs : gmap string Validator.errors_entry) :
  apply_inserts ins (apply_inserts ins errs) = apply_inserts ins errs.
Proof.
  apply map_eq. intros key. rewrite !lookup_apply_inserts.
  now destruct (last_binding key ins).
Qed.

Lemma dict_get_doubled (fields1 fields2 : RuleList.t) (key : string) :
  Forall2 doubled fields1 fields2 ->
  match dict_get key fields1, dict_get key fields2 with
  | Some ruleset1, Some ruleset2 =>
      Ruleset._errors ruleset2 = Ruleset._errors ruleset1 ++ Ruleset._errors ruleset1
  | None, None => True
  | _, _ => False
  end.
Proof.
  induction 1 as [|[n r] [n' r'] l l' [Hn He] _ IH]; simpl; [exact I|].
  simpl in Hn, He. subst n'. destruct (String.eqb n key); [exact He|exact IH].
Qed.

(** C9, as amended: [validate()] called a second time on the same
    Validator, the first call having met no configuration error, ends as the
    first did, with the same events, and leaves the same keys in the errors
    mapping.  The list of a key that holds the error list of a declared
    field's own Ruleset then holds the first call's messages twice (the
    accumulator of a Ruleset is never reset); the lists reported for the
    elements of a wildcard path and for dict sub-keys, which come from clones
    and from fresh Rulesets, are the same as after the first call. *)
Theorem C9_second_validate_repeats_the_messages_of_declared_fields
    (data : value) (rules : list (string * rules_arg)) (self self1 self2 : Validator.t)
    (log1 log2 : list event) (out1 out2 : result unit) :
  Validator.init data rules = Ok self ->
  Validator.validate self = (self1, log1, out1) ->
  configuration_error out1 = false ->
  Validator.validate self1 = (self2, log2, out2) ->
  out2 = out1 /\ log2 = log1 /\
  Validator._errors self2 = Validator._errors self1 /\
  (forall key messages,
     Validator._errors self1 !! key = Some (Validator.Owned messages) ->
     Validator.errors self1 !! key = Some messages /\
     Validator.errors self2 !! key = Some messages) /\
  (forall key,
     Validator._errors self1 !! key = Some Validator.FieldErrors ->
     exists messages,
       messages <> [] /\
       Validator.errors self1 !! key = Some messages /\
       Validator.errors self2 !! key = Some (messages ++ messages)) /\
  (forall key,
     Validator._errors self1 !! key = None ->
     Validator.errors self1 !! key = None /\ Validator.errors self2 !! key = None).
Proof.
  intros Hinit Hv1 Hc Hv2.
  unfold Validator.init in Hinit.
  destruct (RuleList.init rules) as [rule_list|e] eqn:Hlist; simpl in Hinit; [|discriminate].
  injection Hinit as <-.
  pose proof (rule_list_fresh _ _ Hlist) as Hfresh.
  pose proof (rule_list_built _ _ Hlist) as Hbuilt.
  unfold Validator.validate in Hv1. simpl in Hv1.
  destruct (Validator.validate_fields data rule_list ∅ [])
    as [[[[fields1 errs1] extra1] logf] outf] eqn:Hfields.
  destruct (validate_fields_spec _ _ Hfresh _ _ _ _ _ _ _ (List.Forall_nil _) Hfields)
    as [Hnvf Hokf].
  destruct outf as [[]|ef].
  2:{ injection Hv1 as <- <- <-. exfalso. simpl in Hc.
      apply (Hnvf ef eq_refl). now destruct ef. }
  destruct (Hokf eq_refl) as (_ & _ & Hfresh_extra & _).
  destruct (Validator.validate_extra_rules extra1 errs1) as [[errsx logx] outx] eqn:Hextra.
  destruct (validate_extra_rules_spec _ Hfresh_extra _ _ _ _ Hextra) as [Hnvx _].
  injection Hv1 as <- <- <-.
  destruct outx as [[]|ex].
  2:{ exfalso. simpl in Hc. apply (Hnvx ex eq_refl). now destruct ex. }
  assert (Halias : forall key,
            errsx !! key = Some Validator.FieldErrors ->
            exists ruleset1,
              dict_get key fields1 = Some ruleset1 /\ Ruleset._errors ruleset1 <> []).
  { intros key Hkey.
    apply (validate_extra_rules_aliases _ _ _ _ _ _ Hextra) in Hkey.
    destruct (validate_fields_aliases _ _ Hfresh (rule_list_NoDup _ _ Hlist)
                _ _ _ _ _ _ key (List.Forall_nil _) Hfields Hkey)
      as [Hempty|Hfound]; [|exact Hfound].
    rewrite lookup_empty in Hempty. discriminate Hempty. }
  destruct (validate_fields_twice _ _ Hbuilt _ _ _ _ _ _ Hfields)
    as (insf & more & -> & -> & Hfields2).
  destruct (validate_extra_rules_inserts _ _ _ _ _ Hextra) as (insx & -> & Hextra2).
  destruct (Hfields2 (apply_inserts insx (apply_inserts insf ∅)) []) as (fields2 & Hf2 & Hd).
  unfold Validator.validate in Hv2. simpl in Hv2. rewrite Hf2, Hextra2 in Hv2.
  rewrite <- (apply_inserts_app insf insx ∅) in Hv2.
  rewrite <- (apply_inserts_app insf insx (apply_inserts (insf ++ insx) ∅)) in Hv2.
  rewrite apply_inserts_twice in Hv2.
  injection Hv2 as <- <- <-.
  rewrite <- (apply_inserts_app insf insx ∅).
  rewrite <- (apply_inserts_app insf insx ∅) in Halias.
  set (errs := apply_inserts (insf ++ insx) ∅) in *.
  split; [reflexivity|]. split; [reflexivity|]. split; [reflexivity|].
  unfold Validator.errors. simpl.
  split; [|split].
  - intros key messages Hkey. rewrite !map_lookup_imap, Hkey. now split.
  - intros key Hkey. rewrite !map_lookup_imap, Hkey. simpl.
    pose proof (dict_get_doubled _ _ key Hd) as Hdk.
    destruct (Halias key Hkey) as (r1 & Hget1 & Hne). rewrite Hget1 in Hdk |- *.
    destruct (dict_get key fields2) as [r2|]; [|contradiction].
    exists (Ruleset.errors r1). split; [exact Hne|]. split; [reflexivity|].
    unfold Ruleset.errors. now rewrite Hdk.
  - intros key Hkey. rewrite !map_lookup_imap, Hkey. now split.
Qed.
End TwiceFacts.

(** C9 as stated fails: with the rules {"a": "required"} and the data {},
    errors() holds one message for "a" after the first [validate()] and the
    same message twice after the second. *)
Lemma C9_counterexample :
  exists self1 self2,
    @validate_twice plain_externals optional_data required_a_rules = Ok (self1, self2) /\
    Validator.errors self1 = {[ "a" := ["en.required{attribute=a}"] ]} /\
    Validator.errors self2
    = {[ "a" := ["en.required{attribute=a}"; "en.required{attribute=a}"] ]} /\
    Validator.errors self2 <> Validator.errors self1.
Proof.
  destruct (@validate_twice plain_externals optional_data required_a_rules)
    as [[self1 self2]|e] eqn:E; vm_compute in E; [|discriminate E].
  injection E as <- <-. do 2 eexists. split; [reflexivity|].
  split; [vm_compute; reflexivity|]. split; [vm_compute; reflexivity|].
  intros He. apply (f_equal (fun m : gmap string (list string) => m !! "a")) in He.
  vm_compute in He. discriminate He.
Qed.

(** The amended statement of C9 at the same input: the entry of "a" is the
    list of the field's own Ruleset, and it is doubled. *)
Lemma C9_witness :
  exists self self1 log1 out1 self2 log2 out2,
    Validator.init optional_data required_a_rules = Ok self /\
    @Validator.validate plain_externals self = (self1, log1, out1) /\
    configuration_error out1 = false /\
    @Validator.validate plain_externals self1 = (self2, log2, out2) /\
    Validator._errors self1 !! "a" = Some Validator.FieldErrors /\
    out2 = out1 /\
    exists messages,
      messages <> [] /\
      Validator.errors self1 !! "a" = Some messages /\
      Validator.errors self2 !! "a" = Some (messages ++ messages).
Proof.
  destruct (Validator.init optional_data required_a_rules) as [self|e] eqn:Hinit;
    [|vm_compute in Hinit; discriminate Hinit].
  destruct (@Validator.validate plain_externals self) as [[self1 log1] out1] eqn:Hv1.
  destruct (@Validator.validate plain_externals self1) as [[self2 log2] out2] eqn:Hv2.
  assert (Hfacts : configuration_error out1 = false /\
                   Validator._errors self1 !! "a" = Some Validator.FieldErrors).
  { vm_compute in Hinit. injection Hinit as <-. vm_compute in Hv1.
    injection Hv1 as <- <- <-. split; vm_compute; reflexivity. }
  destruct Hfacts as [Hc Ha].
  destruct (@C9_second_validate_repeats_the_messages_of_declared_fields plain_externals
              optional_data required_a_rules self self1 self2 log1 log2 out1 out2
              Hinit Hv1 Hc Hv2) as (Hout & _ & _ & _ & Hfield & _).
  exists self, self1, log1, out1, self2, log2, out2.
  split; [first [exact Hinit|reflexivity]|]. split; [first [exact Hv1|reflexivity]|].
  split; [exact Hc|]. split; [first [exact Hv2|reflexivity]|].
  split; [exact Ha|]. split; [exact Hout|]. exact (Hfield "a" Ha).
Defined.

(** * Further properties *)

Lemma split_lacks (sep : ascii) (s : string) : lacks sep s = true -> Str.split sep s = [s].
Proof.
  induction s as [|c s IH]; simpl; [reflexivity|].
  intros Hl. apply andb_true_iff in Hl as [Hc Hs]. apply negb_true_iff in Hc.
  rewrite Hc, (IH Hs). reflexivity.
Qed.

Lemma split_app_sep (sep : ascii) (a b : string) :
  lacks sep a = true ->
  Str.split sep (a +:+ String sep b) = a :: Str.split sep b.
Proof.
  induction a as [|c a IH]; simpl.
  - intros _. now rewrite Ascii.eqb_refl.
  - intros Hl. apply andb_true_iff in Hl as [Hc Ha]. apply negb_true_iff in Hc.
    rewrite Hc, (IH Ha). reflexivity.
Qed.

Lemma join_split (sep : ascii) (s : string) :
  Str.join (String sep "") (Str.split sep s) = s.
Proof.
  induction s as [|c s IH]; simpl; [reflexivity|].
  destruct (Ascii.eqb c sep) eqn:E.
  - apply Ascii.eqb_eq in E. subst c.
    destruct (Str.split sep s) as [|w ws] eqn:Hs; simpl in *; [now subst|].
    now rewrite IH.
  - destruct (Str.split sep s) as [|w ws] eqn:Hs; simpl in *; [now subst|].
    destruct ws; simpl in *; now rewrite <- IH.
Qed.

Lemma split_join (sep : ascii) (l : list string) :
  l <> [] ->
  forallb (lacks sep) l = true ->
  Str.split sep (Str.join (String sep "") l) = l.
Proof.
  induction l as [|w ws IH]; [congruence|]. intros _ Hl. simpl in Hl.
  apply andb_true_iff in Hl as [Hw Hws].
  destruct ws as [|w' ws'].
  - simpl. now apply split_lacks.
  - change (Str.join (String sep "") (w :: w' :: ws'))
      with (w +:+ String sep "" +:+ Str.join (String sep "") (w' :: ws')).
    change (String sep "" +:+ Str.join (String sep "") (w' :: ws'))
      with (String sep (Str.join (String sep "") (w' :: ws'))).
    rewrite split_app_sep by exact Hw. f_equal. apply IH; [discriminate|exact Hws].
Qed.

Lemma join_empty (sep : string) (l : list string) :
  Str.join sep l = "" -> sep <> "" -> l = [] \/ l = [""].
Proof.
  destruct l as [|w [|w' ws]]; simpl; [now left|intros ->; now right|].
  intros Hj Hsep. destruct w; simpl in Hj; [|discriminate].
  destruct sep; [congruence|discriminate].
Qed.

(** X3: a token [name:p1,...,pn] parses back to its name and its
    parameters: the name is what stands before the first colon, colons
    inside the parameters are kept, and a token without parameters (with or
    without a trailing colon) has none. *)
Theorem X3_token_parses_back (name : string) (params : list string) :
  lacks ":" name = true ->
  forallb (lacks ",") params = true ->
  params <> [] -> params <> [""] ->
  token_name (name +:+ ":" +:+ Str.join "," params) = name /\
  token_params (name +:+ ":" +:+ Str.join "," params) = params /\
  token_name name = name /\ token_params name = [] /\
  token_params (name +:+ ":") = [].
Proof.
  intros Hname Hparams Hne Hne'. unfold token_name, token_params.
  change (name +:+ ":" +:+ Str.join "," params)
    with (name +:+ String ":" (Str.join "," params)).
  change (name +:+ ":") with (name +:+ String ":" "").
  rewrite (split_app_sep ":" name (Str.join "," params) Hname).
  rewrite (split_app_sep ":" name "" Hname).
  rewrite (split_lacks ":" name Hname). simpl hd. simpl tl.
  rewrite (join_split ":" (Str.join "," params)).
  split; [reflexivity|]. split; [|repeat split].
  unfold Ruleset._split_rule_params.
  destruct (String.eqb (Str.join "," params) "") eqn:E.
  - apply String.eqb_eq in E. apply join_empty in E as [E|E]; [congruence|congruence|discriminate].
  - apply (split_join "," params Hne Hparams).
Qed.

Lemma X3_witness :
  lacks ":" "date" = true /\
  forallb (lacks ",") ["%H:%M"; "%d/%m"] = true /\
  token_name "date:%H:%M,%d/%m" = "date" /\
  token_params "date:%H:%M,%d/%m" = ["%H:%M"; "%d/%m"].
Proof.
  assert (H1 : lacks ":" "date" = true) by reflexivity.
  assert (H2 : forallb (lacks ",") ["%H:%M"; "%d/%m"] = true) by reflexivity.
  destruct (X3_token_parses_back "date" ["%H:%M"; "%d/%m"] H1 H2
              ltac:(discriminate) ltac:(discriminate)) as (Hn & Hp & _).
  repeat split; assumption.
Defined.

(** ** Parsing a rule expression *)

Lemma parse_loop_known (tokens : list string) :
  forall parsed stray,
    Forall names_rule_class tokens ->
    exists res, Ruleset._parse_loop tokens parsed stray = Ok (res, stray).
Proof.
  induction tokens as [|token tokens IH]; intros parsed stray Hall; simpl.
  - now exists parsed.
  - inversion Hall as [|? ? [c Hc] Hrest]; subst.
    unfold token_name in Hc. rewrite Hc. apply IH, Hrest.
Qed.

Lemma parse_loop_stray (tokens : list string) :
  forall parsed stray res,
    Ruleset._parse_loop tokens parsed stray = Ok (res, false) ->
    stray = false /\ Forall names_rule_class tokens.
Proof.
  induction tokens as [|token tokens IH]; intros parsed stray res; simpl.
  - intros [= _ ->]. split; [reflexivity|constructor].
  - destruct (globals_get (Ruleset.class_name (hd "" (Str.split ":" token))))
      as [[c| |]|] eqn:Hc; try discriminate.
    + intros Hl. destruct (IH _ _ _ Hl) as [-> Hall]. split; [reflexivity|].
      constructor; [now exists c|exact Hall].
    + intros Hl. now destruct (IH _ _ _ Hl).
Qed.

(** X1: a rule expression builds a Ruleset exactly when the name of every
    one of its tokens (what stands before the first colon of the token) is
    the name of a built-in rule class. *)
Theorem X1_init_succeeds_iff_every_token_names_a_rule_class (rules : rules_arg) :
  (exists ruleset, Ruleset.init rules = Ok ruleset)
  <-> Forall names_rule_class (tokens_of rules).
Proof.
  unfold Ruleset.init, Ruleset._parse. fold (tokens_of rules). split.
  - intros [ruleset Hinit].
    destruct (Ruleset._parse_loop (tokens_of rules) [] false) as [[res stray]|e] eqn:Hl;
      simpl in Hinit; [|discriminate].
    destruct stray; [discriminate|]. now destruct (parse_loop_stray _ _ _ _ Hl).
  - intros Hall. destruct (parse_loop_known _ [] false Hall) as [res ->]. simpl. eauto.
Qed.




Lemma map_fst_setitem {A : Type} (d : list (string * A)) (key : string) (x : A) :
  map fst (setitem d key x) = add_name (map fst d) key.
Proof.
  unfold add_name. induction d as [|[k y] d IH]; simpl; [reflexivity|].
  rewrite (String.eqb_sym key k).
  destruct (String.eqb k key) eqn:E; simpl.
  - apply String.eqb_eq in E. now subst.
  - rewrite IH. now destruct (existsb (String.eqb key) (map fst d)).
Qed.

Lemma dict_get_map_snd {A B : Type} (f : string * A -> B) (d : list (string * A))
    (key : string) :
  dict_get key (map (fun item => (fst item, f item)) d)
  = option_map (fun x => f (key, x)) (dict_get key d).
Proof.
  induction d as [|[k y] d IH]; simpl; [reflexivity|].
  destruct (String.eqb k key) eqn:E; [|exact IH].
  apply String.eqb_eq in E. now subst.
Qed.

Lemma map_fst_map_snd {A B : Type} (f : string * A -> B) (d : list (string * A)) :
  map fst (map (fun item => (fst item, f item)) d) = map fst d.
Proof. induction d as [|[k y] d IH]; simpl; [reflexivity|now rewrite IH]. Qed.

Lemma parse_loop_names (tokens : list string) :
  forall parsed stray res stray',
    Forall names_rule_class tokens ->
    Ruleset._parse_loop tokens parsed stray = Ok (res, stray') ->
    map fst res = fold_left add_name (map token_name tokens) (map fst parsed) /\
    forall name,
      match last_token name tokens with
      | None => dict_get name res = dict_get name parsed
      | Some token =>
          exists c, globals_get (Ruleset.class_name name) = Some (GRuleClass c) /\
            dict_get name res = Some (Rule.init c (map PStr (token_params token)))
      end.
Proof.
  induction tokens as [|token tokens IH]; intros parsed stray res stray' Hall; simpl.
  - intros [= <- _]. split; [reflexivity|reflexivity].
  - inversion Hall as [|? ? [c Hc] Hrest]; subst.
    unfold token_name in Hc. rewrite Hc. intros Hl.
    destruct (IH _ _ _ _ Hrest Hl) as [Hnames Hget]. split.
    + rewrite Hnames, map_fst_setitem. reflexivity.
    + intros name. specialize (Hget name).
      destruct (last_token name tokens) as [found|]; [exact Hget|].
      unfold token_name. destruct (String.eqb (hd "" (Str.split ":" token)) name) eqn:E.
      * apply String.eqb_eq in E. subst name. exists c. split; [exact Hc|].
        rewrite Hget. apply dict_get_setitem_eq.
      * rewrite Hget. apply dict_get_setitem_ne. intros Heq.
        rewrite Heq, String.eqb_refl in E. discriminate E.
Qed.

Lemma add_name_NoDup (seen : list string) (name : string) :
  List.NoDup seen -> List.NoDup (add_name seen name).
Proof.
  intros Hnd. unfold add_name. destruct (existsb (String.eqb name) seen) eqn:E; [exact Hnd|].
  apply List.NoDup_rev in Hnd. rewrite <- (rev_involutive (seen ++ [name])).
  apply List.NoDup_rev. rewrite rev_app_distr. simpl. constructor; [|exact Hnd].
  intros Hin. apply in_rev in Hin.
  assert (existsb (String.eqb name) seen = true); [|congruence].
  apply existsb_exists. exists name. split; [exact Hin|apply String.eqb_refl].
Qed.

Lemma fold_add_name_NoDup (names : list string) :
  forall seen, List.NoDup seen -> List.NoDup (fold_left add_name names seen).
Proof.
  induction names as [|name names IH]; intros seen Hnd; simpl; [exact Hnd|].
  apply IH, add_name_NoDup, Hnd.
Qed.

Lemma In_add_name (seen : list string) (name x : string) :
  In x (add_name seen name) <-> In x seen \/ x = name.
Proof.
  unfold add_name. destruct (existsb (String.eqb name) seen) eqn:E.
  - split; [now left|]. intros [Hin| ->]; [exact Hin|].
    apply existsb_exists in E as (y & Hy & Heq). apply String.eqb_eq in Heq. now subst.
  - rewrite in_app_iff. simpl. intuition.
Qed.

Lemma In_fold_add_name (names : list string) :
  forall seen x, In x (fold_left add_name names seen) <-> In x seen \/ In x names.
Proof.
  induction names as [|name names IH]; intros seen x; simpl; [intuition|].
  rewrite IH, In_add_name. intuition.
Qed.

Lemma init_parsed (rules : rules_arg) (ruleset : Ruleset.t) :
  Ruleset.init rules = Ok ruleset ->
  exists parsed,
    Ruleset._parse_loop (tokens_of rules) [] false = Ok (parsed, false) /\
    Forall names_rule_class (tokens_of rules) /\
    ruleset = Ruleset._set_rules_metadata {| Ruleset._rules := parsed; Ruleset._errors := [] |}.
Proof.
  unfold Ruleset.init, Ruleset._parse. fold (tokens_of rules).
  destruct (Ruleset._parse_loop (tokens_of rules) [] false) as [[parsed stray]|e] eqn:Hl;
    simpl; [|discriminate].
  destruct stray; [discriminate|]. intros [= <-]. exists parsed.
  split; [reflexivity|]. split; [|reflexivity]. now destruct (parse_loop_stray _ _ _ _ Hl).
Qed.

Lemma init_names (rules : rules_arg) (ruleset : Ruleset.t) :
  Ruleset.init rules = Ok ruleset ->
  map fst (Ruleset._rules ruleset) = first_occurrences (map token_name (tokens_of rules)).
Proof.
  intros Hinit. destruct (init_parsed _ _ Hinit) as (parsed & Hl & Hall & ->).
  destruct (parse_loop_names _ _ _ _ _ Hall Hl) as [Hnames _].
  unfold Ruleset._set_rules_metadata. cbn [Ruleset._rules].
  rewrite (map_fst_map_snd (fun item => Rule.set_metadata (snd item) _)). exact Hnames.
Qed.

Lemma init_get_rule (rules : rules_arg) (ruleset : Ruleset.t) (name : string) :
  Ruleset.init rules = Ok ruleset ->
  match last_token name (tokens_of rules) with
  | None => Ruleset.get_rule ruleset name = None
  | Some token =>
      exists c, globals_get (Ruleset.class_name name) = Some (GRuleClass c) /\
        Ruleset.get_rule ruleset name
        = Some {| Rule.cls := c; Rule._params := map PStr (token_params token);
                  Rule._metadata := declared_metadata ruleset |}
  end.
Proof.
  intros Hinit. destruct (init_parsed _ _ Hinit) as (parsed & Hl & Hall & Heq).
  destruct (parse_loop_names _ _ _ _ _ Hall Hl) as [_ Hget]. specialize (Hget name).
  unfold Ruleset.get_rule.
  destruct (last_token name (tokens_of rules)) as [token|].
  - destruct Hget as (c & Hc & Hget). exists c. split; [exact Hc|].
    assert (Hin : exists rule, dict_get name (Ruleset._rules ruleset) = Some rule /\
                               Rule.cls rule = c /\
                               Rule._params rule = map PStr (token_params token)).
    { subst ruleset. unfold Ruleset._set_rules_metadata. cbn [Ruleset._rules].
      rewrite (dict_get_map_snd (fun item => Rule.set_metadata (snd item) _)), Hget.
      simpl. eexists. split; [reflexivity|]. split; reflexivity. }
    destruct Hin as (rule & Hrule & Hcls & Hparams). rewrite Hrule. f_equal.
    destruct (init_spec _ _ Hinit) as [_ Hspec].
    destruct (Hspec name rule (dict_get_In _ _ _ Hrule)) as (_ & _ & Hmeta).
    destruct rule as [c' params' metadata']. simpl in *. now subst.
  - subst ruleset. unfold Ruleset._set_rules_metadata. cbn [Ruleset._rules].
    rewrite (dict_get_map_snd (fun item => Rule.set_metadata (snd item) _)), Hget.
    reflexivity.
Qed.

(** X4: the rules of a Ruleset are keyed by the names of the tokens, each name
    once and at the place of its first occurrence; under a name stands the
    rule of the last token with that name: its class is the one the name
    resolves to and its parameters are the parameters of that token, as
    strings. *)
Theorem X4_rules_are_keyed_by_name_and_the_last_token_wins
    (rules : rules_arg) (ruleset : Ruleset.t) :
  Ruleset.init rules = Ok ruleset ->
  map fst (Ruleset.get_rules ruleset) = first_occurrences (map token_name (tokens_of rules)) /\
  List.NoDup (map fst (Ruleset.get_rules ruleset)) /\
  forall name,
    match last_token name (tokens_of rules) with
    | None => Ruleset.get_rule ruleset name = None
    | Some token =>
        exists c, globals_get (Ruleset.class_name name) = Some (GRuleClass c) /\
          Ruleset.get_rule ruleset name
          = Some {| Rule.cls := c; Rule._params := map PStr (token_params token);
                    Rule._metadata := declared_metadata ruleset |}
    end.
Proof.
  intros Hinit. assert (Hnames := init_names _ _ Hinit).
  unfold Ruleset.get_rules. split; [exact Hnames|]. split.
  - rewrite Hnames. apply fold_add_name_NoDup. constructor.
  - intros name. exact (init_get_rule rules ruleset name Hinit).
Qed.

Lemma X4_witness :
  exists ruleset,
    Ruleset.init (RulesStr "min:3|required|min:5") = Ok ruleset /\
    map fst (Ruleset.get_rules ruleset) = ["min"; "required"] /\
    option_map Rule.get_params (Ruleset.get_rule ruleset "min") = Some [PStr "5"].
Proof.
  destruct (Ruleset.init (RulesStr "min:3|required|min:5")) as [ruleset|e] eqn:Hinit;
    [|discriminate Hinit].
  exists ruleset. split; [reflexivity|].
  destruct (X4_rules_are_keyed_by_name_and_the_last_token_wins _ _ Hinit)
    as (Hnames & _ & Hget).
  split; [exact Hnames|]. specialize (Hget "min"). simpl in Hget.
  destruct Hget as (c & _ & ->). reflexivity.
Defined.

Lemma first_value_type_skip (seen : list string) (name : string) (rest : list string) :
  ValueType_of name = None \/ In name seen ->
  Ruleset.first_value_type (seen ++ name :: rest) = Ruleset.first_value_type (seen ++ rest).
Proof.
  induction seen as [|m seen IH]; simpl.
  - intros [Hnone|[]]. now rewrite Hnone.
  - intros Hcase. destruct (ValueType_of m) eqn:Hm; [reflexivity|].
    apply IH. destruct Hcase as [Hnone|[->|Hin]]; [now left|now left|now right].
Qed.

Lemma first_value_type_fold (names : list string) :
  forall seen,
    Ruleset.first_value_type (fold_left add_name names seen)
    = Ruleset.first_value_type (seen ++ names).
Proof.
  induction names as [|name names IH]; intros seen; simpl.
  - now rewrite app_nil_r.
  - rewrite IH. unfold add_name. destruct (existsb (String.eqb name) seen) eqn:E.
    + symmetry. apply first_value_type_skip. right.
      apply existsb_exists in E as (y & Hy & Heq). apply String.eqb_eq in Heq. now subst.
    + now rewrite <- app_assoc.
Qed.

Lemma contains_existsb {A : Type} (d : list (string * A)) (key : string) :
  contains d key = existsb (String.eqb key) (map fst d).
Proof.
  unfold contains. induction d as [|[k y] d IH]; simpl; [reflexivity|].
  rewrite (String.eqb_sym key k). destruct (String.eqb k key); [reflexivity|exact IH].
Qed.

Lemma existsb_eqb_In (name : string) (l l' : list string) :
  (forall x, In x l <-> In x l') ->
  existsb (String.eqb name) l = existsb (String.eqb name) l'.
Proof.
  intros Hiff. apply eq_true_iff_eq. rewrite !existsb_exists. split.
  - intros (x & Hx & Heq). exists x. split; [now apply Hiff|exact Heq].
  - intros (x & Hx & Heq). exists x. split; [now apply Hiff|exact Heq].
Qed.

Lemma has_rule_init (rules : rules_arg) (ruleset : Ruleset.t) (name : string) :
  Ruleset.init rules = Ok ruleset ->
  Ruleset.has_rule ruleset name
  = existsb (String.eqb name) (map token_name (tokens_of rules)).
Proof.
  intros Hinit. unfold Ruleset.has_rule. rewrite contains_existsb, (init_names _ _ Hinit).
  apply existsb_eqb_In. intros x. unfold first_occurrences. rewrite In_fold_add_name.
  simpl. intuition.
Qed.

Lemma get_value_type_init (rules : rules_arg) (ruleset : Ruleset.t) :
  Ruleset.init rules = Ok ruleset ->
  Ruleset.get_value_type ruleset
  = Ruleset.first_value_type (map token_name (tokens_of rules)).
Proof.
  intros Hinit. unfold Ruleset.get_value_type. rewrite (init_names _ _ Hinit).
  unfold first_occurrences. now rewrite first_value_type_fold.
Qed.

(** X5: the metadata every rule of a Ruleset carries is read off the rule
    expression: the value type is the first token name that is the name of a
    value type (string, integer, numeric, list, dict), wherever it stands,
    and string when there is none; the field is required (nullable) exactly
    when a token is named "required" ("nullable"), as written. *)
Theorem X5_metadata_is_read_off_the_expression
    (rules : rules_arg) (ruleset : Ruleset.t) (name : string) (rule : Rule.t) :
  Ruleset.init rules = Ok ruleset ->
  In (name, rule) (Ruleset.get_rules ruleset) ->
  Ruleset.get_value_type ruleset
  = Ruleset.first_value_type (map token_name (tokens_of rules)) /\
  Rule.get_value_type rule
  = Some (Ruleset.first_value_type (map token_name (tokens_of rules))) /\
  Rule.is_required rule
  = Some (existsb (String.eqb "required") (map token_name (tokens_of rules))) /\
  Rule.is_nullable rule
  = Some (existsb (String.eqb "nullable") (map token_name (tokens_of rules))).
Proof.
  intros Hinit Hin. destruct (init_spec _ _ Hinit) as [_ Hspec].
  destruct (Hspec name rule Hin) as (_ & _ & Hmeta).
  unfold Rule.get_value_type, Rule.is_required, Rule.is_nullable. rewrite Hmeta.
  unfold declared_metadata. simpl.
  rewrite !(has_rule_init _ _ _ Hinit), (get_value_type_init _ _ Hinit).
  repeat split.
Qed.

Lemma X5_witness :
  exists ruleset rule,
    Ruleset.init (RulesStr "min:2|Required|list|string") = Ok ruleset /\
    In ("min", rule) (Ruleset.get_rules ruleset) /\
    Ruleset.get_value_type ruleset = LIST /\
    Rule.get_value_type rule = Some LIST /\
    Rule.is_required rule = Some false.
Proof.
  destruct (Ruleset.init (RulesStr "min:2|Required|list|string")) as [ruleset|e] eqn:Hinit;
    [|discriminate Hinit].
  destruct (Ruleset.get_rule ruleset "min") as [rule|] eqn:Hrule.
  - exists ruleset, rule. split; [reflexivity|].
    assert (Hin : In ("min", rule) (Ruleset.get_rules ruleset))
      by exact (dict_get_In _ _ _ Hrule).
    split; [exact Hin|].
    destruct (X5_metadata_is_read_off_the_expression _ _ _ _ Hinit Hin)
      as (Htype & Hrtype & Hreq & _).
    split; [exact Htype|]. split; [exact Hrtype|exact Hreq].
  - exfalso. vm_compute in Hinit. injection Hinit as <-. discriminate Hrule.
Defined.

(** ** One call of [Ruleset.validate] *)

Section RulesetValidateFacts.
Context `{Externals}.

Lemma unset_set_settled (rule : Rule.t) (value_exists : bool) (v : value) :
  settled_metadata rule ->
  Rule.unset_metadata (Rule.set_metadata rule [m_value_exists value_exists; m_value v])
    [k_value_exists; k_value] = rule.
Proof.
  destruct rule as [c params [vt r n ve mv]]. unfold settled_metadata. simpl.
  intros [-> ->]. reflexivity.
Qed.

Lemma validate_rule_restores (attribute : string) (v : value) (value_exists : bool)
    (rule_name : string) (rule rule' : Rule.t) (log : list event) (appended : option string) :
  settled_metadata rule ->
  Ruleset.validate_rule attribute v value_exists rule_name rule = (rule', log, Ok appended) ->
  rule' = rule.
Proof.
  intros Hs. unfold Ruleset.validate_rule.
  destruct (Rule.is_skippable _).
  - intros [= <- _ _]. now apply unset_set_settled.
  - destruct (passes _ attribute v _) as [[|]|e].
    + intros [= <- _ _]. now apply unset_set_settled.
    + destruct (message _ attribute v _) as [msg|e]; [|discriminate].
      intros [= <- _ _]. now apply unset_set_settled.
    + discriminate.
Qed.

Lemma validate_rules_restores (attribute : string) (v : value) (value_exists : bool)
    (rules : list (string * Rule.t)) :
  forall errs rules' errs' log,
    Forall (fun item => settled_metadata (snd item)) rules ->
    Ruleset.validate_rules attribute v value_exists rules errs = (rules', errs', log, Ok tt) ->
    rules' = rules.
Proof.
  induction rules as [|[rule_name rule] rules IH]; intros errs rules' errs' log Hall; simpl.
  - now intros [= <- _ _].
  - inversion Hall as [|? ? Hrule Hrest]; subst. simpl in Hrule.
    destruct (Ruleset.validate_rule attribute v value_exists rule_name rule)
      as [[rule1 log1] [appended|e]] eqn:Hv; [|discriminate].
    destruct (Ruleset.validate_rules attribute v value_exists rules _)
      as [[[rest1 errs1] log2] out] eqn:Hr.
    intros [= <- _ _ ->]. rewrite (validate_rule_restores _ _ _ _ _ _ _ _ Hrule Hv).
    now rewrite (IH _ _ _ _ Hrest Hr).
Qed.

Lemma init_settled (rules : rules_arg) (ruleset : Ruleset.t) :
  Ruleset.init rules = Ok ruleset ->
  Forall (fun item => settled_metadata (snd item)) (Ruleset._rules ruleset).
Proof.
  intros Hinit. destruct (init_spec _ _ Hinit) as [_ Hspec].
  apply List.Forall_forall. intros [name rule] Hin.
  destruct (Hspec name rule Hin) as (_ & _ & Hmeta).
  unfold settled_metadata. simpl. rewrite Hmeta. split; reflexivity.
Qed.

(** X6: one call of validate on a Ruleset whose rules are those a rule
    expression builds, whatever its accumulator holds: the messages of the
    call are appended to the accumulator, in the order of the log; when
    the call ends without a configuration error, the rules are exactly as
    before (the temporary metadata is removed), the call raises
    ValidationError exactly when the accumulator is non-empty afterwards and
    returns normally exactly when the accumulator was empty and no rule
    failed.  So a Ruleset that holds a message fails on every later call. *)
Theorem X6_validate_appends_messages_and_restores_the_rules
    (rules : rules_arg) (built_ruleset ruleset' : Ruleset.t) (errs : list string)
    (attribute : string) (v : value) (value_exists : bool)
    (log : list event) (out : result unit) :
  Ruleset.init rules = Ok built_ruleset ->
  Ruleset.validate
    {| Ruleset._rules := Ruleset.get_rules built_ruleset; Ruleset._errors := errs |}
    attribute v value_exists = (ruleset', log, out) ->
  Ruleset.errors ruleset' = errs ++ messages_of log /\
  (configuration_error out = false ->
   Ruleset.get_rules ruleset' = Ruleset.get_rules built_ruleset /\
   (out = Raise ValidationError <-> errs ++ messages_of log <> []) /\
   (out = Ok tt <-> errs = [] /\ messages_of log = []) /\
   (errs <> [] -> out = Raise ValidationError)).
Proof.
  intros Hinit Hv. unfold Ruleset.errors, Ruleset.get_rules in *.
  assert (Herrs : Ruleset._errors ruleset' = errs ++ messages_of log).
  { unfold Ruleset.validate in Hv. cbn [Ruleset._rules Ruleset._errors] in Hv.
    destruct (Ruleset.validate_rules attribute v value_exists _ errs)
      as [[[rules1 errs1] log1] out1] eqn:Hr.
    injection Hv as <- <- _. simpl.
    now destruct (validate_rules_events _ _ _ _ _ _ _ _ _ Hr). }
  split; [exact Herrs|]. intros Hout.
  destruct (validate_completes _ _ _ _ _ _ _ Hv Hout) as [Hr Hout'].
  cbn [Ruleset._rules Ruleset._errors] in Hr.
  assert (Hrules := validate_rules_restores _ _ _ _ _ _ _ _ (init_settled _ _ Hinit) Hr).
  split; [exact Hrules|].
  unfold Ruleset.has_error in Hout'. rewrite Herrs in Hout'.
  destruct (errs ++ messages_of log) as [|msg rest] eqn:Happ; subst out.
  - apply app_eq_nil in Happ as [-> ->].
    split; [split; [discriminate|congruence]|].
    split; [split; [intros _; now split|reflexivity]|congruence].
  - split; [split; [discriminate|reflexivity]|].
    split; [split; [discriminate|]|reflexivity].
    intros [-> Hm]. rewrite Hm in Happ. discriminate.
Qed.

Lemma validate_rules_skipped (attribute : string) (v : value) (value_exists : bool)
    (rules : list (string * Rule.t)) :
  forall errs,
    Forall (fun item => settled_metadata (snd item)) rules ->
    (forall rule_name rule, In (rule_name, rule) rules ->
       Rule.is_skippable (Rule.set_metadata rule [m_value_exists value_exists; m_value v])
       = true) ->
    Ruleset.validate_rules attribute v value_exists rules errs = (rules, errs, [], Ok tt).
Proof.
  induction rules as [|[rule_name rule] rules IH]; intros errs Hall Hskip; simpl;
    [reflexivity|].
  inversion Hall as [|? ? Hrule Hrest]; subst. simpl in Hrule.
  rewrite (validate_rule_skipped _ _ _ _ _ (Hskip rule_name rule (or_introl eq_refl))).
  rewrite (unset_set_settled _ _ _ Hrule).
  rewrite (IH errs Hrest); [reflexivity|].
  intros n r Hin. apply (Hskip n r). now right.
Qed.

(** X7: on a Ruleset a rule expression builds, a None value (an absent
    field or an explicit null) of a field that is nullable or not required
    passes whatever the other rules are: no predicate is called, no message
    is produced, nothing is raised (not even by a rule that lacks its
    parameter), and the Ruleset is left as it was. *)
Theorem X7_None_of_an_optional_field_passes_untouched
    (rules : rules_arg) (ruleset : Ruleset.t) (attribute : string) (value_exists : bool) :
  Ruleset.init rules = Ok ruleset ->
  Ruleset.has_rule ruleset "nullable" = true \/ Ruleset.has_rule ruleset "required" = false ->
  Ruleset.validate ruleset attribute VNone value_exists = (ruleset, [], Ok tt).
Proof.
  intros Hinit Hopt. destruct (init_spec _ _ Hinit) as [Herrs Hspec].
  unfold Ruleset.validate.
  rewrite (validate_rules_skipped attribute VNone value_exists (Ruleset._rules ruleset)
             (Ruleset._errors ruleset) (init_settled _ _ Hinit)).
  - unfold Ruleset.has_error. simpl. rewrite Herrs.
    destruct ruleset as [rs es]. simpl in *. now subst.
  - intros n r Hin. destruct (Hspec n r Hin) as (_ & _ & Hmeta).
    rewrite (is_skippable_declared ruleset r VNone value_exists Hmeta). simpl.
    destruct Hopt as [-> | ->]; [reflexivity|].
    now destruct (Ruleset.has_rule ruleset "nullable").
Qed.

Lemma validate_rules_In (attribute : string) (v : value) (value_exists : bool)
    (rules : list (string * Rule.t)) :
  forall errs rules' errs' log rule_name rule,
    Ruleset.validate_rules attribute v value_exists rules errs = (rules', errs', log, Ok tt) ->
    In (rule_name, rule) rules ->
    forall ev,
      In ev (snd (fst (Ruleset.validate_rule attribute v value_exists rule_name rule))) ->
      In ev log.
Proof.
  induction rules as [|[n r] rules IH]; intros errs rules' errs' log rule_name rule; simpl;
    [intros _ []|].
  destruct (Ruleset.validate_rule attribute v value_exists n r)
    as [[rule1 log1] [appended|e]] eqn:Hv; [|discriminate].
  destruct (Ruleset.validate_rules attribute v value_exists rules _)
    as [[[rest1 errs1] log2] out] eqn:Hr.
  intros [= <- <- <- ->] [[= <- <-]|Hin] ev Hev; apply in_or_app.
  - left. now rewrite Hv in Hev.
  - right. exact (IH _ _ _ _ _ _ Hr Hin ev Hev).
Qed.

Lemma validate_rules_log_inv (attribute : string) (v : value) (value_exists : bool)
    (rules : list (string * Rule.t)) :
  forall errs rules' errs' log out a n msg,
    Ruleset.validate_rules attribute v value_exists rules errs = (rules', errs', log, out) ->
    In (EvMessage a n msg) log ->
    exists rule,
      In (n, rule) rules /\
      In (EvMessage a n msg)
         (snd (fst (Ruleset.validate_rule attribute v value_exists n rule))).
Proof.
  induction rules as [|[n r] rules IH]; intros errs rules' errs' log out a n' msg; simpl.
  - now intros [= _ _ <- _] [].
  - assert (Hnames : forall rule' log1 res,
              Ruleset.validate_rule attribute v value_exists n r = (rule', log1, res) ->
              In (EvMessage a n' msg) log1 -> n' = n).
    { unfold Ruleset.validate_rule. intros rule' log1 res.
      destruct (Rule.is_skippable _); [now intros [= _ <- _] []|].
      destruct (passes _ attribute v _) as [[|]|e].
      - intros [= _ <- _] [[=]|[]].
      - destruct (message _ attribute v _) as [m|e].
        + intros [= _ <- _] [[=]|[[= _ <- _]|[]]]. reflexivity.
        + intros [= _ <- _] [[=]|[]].
      - intros [= _ <- _] [[=]|[]]. }
    destruct (Ruleset.validate_rule attribute v value_exists n r)
      as [[rule1 log1] [appended|e]] eqn:Hv.
    + destruct (Ruleset.validate_rules attribute v value_exists rules _)
        as [[[rest1 errs1] log2] out2] eqn:Hr.
      intros [= _ _ <- _] Hin. apply in_app_or in Hin as [Hin|Hin].
      * assert (n' = n) by exact (Hnames _ _ _ eq_refl Hin). subst n'.
        exists r. split; [now left|]. now rewrite Hv.
      * destruct (IH _ _ _ _ _ _ _ _ Hr Hin) as (rule & Hrule & Hev).
        exists rule. split; [now right|exact Hev].
    + intros [= _ _ <- _] Hin.
      assert (n' = n) by exact (Hnames _ _ _ eq_refl Hin). subst n'.
      exists r. split; [now left|]. now rewrite Hv.
Qed.

Lemma validate_rule_required (ruleset : Ruleset.t) (rule : Rule.t) (rule_name attribute : string)
    (v : value) (value_exists : bool) (a n msg : string) :
  Rule.cls rule = cRequired ->
  Rule._metadata rule = declared_metadata ruleset ->
  Ruleset.has_rule ruleset "required" = true ->
  In (EvMessage a n msg)
     (snd (fst (Ruleset.validate_rule attribute v value_exists rule_name rule)))
  <-> (a = attribute /\ n = rule_name /\
       msg = trans "en.required" [("attribute", PStr attribute)] /\
       ((v = VNone /\ Ruleset.has_rule ruleset "nullable" = false) \/
        v = VStr "" \/ v = VList [] \/ v = VDict [])).
Proof.
  intros Hcls Hmeta Hreq. unfold Ruleset.validate_rule.
  rewrite (is_skippable_declared ruleset rule v value_exists Hmeta), Hreq.
  destruct rule as [c params metadata]. simpl in Hcls, Hmeta. subst c metadata.
  unfold passes, message, Rule.set_metadata, Rule.unset_metadata, Rule.get_params.
  cbn [Rule.cls Rule._params Rule._metadata].
  unfold RequiredRule.passes, RequiredRule.message, Rule.is_nullable, declared_metadata.
  cbn [Rule._metadata fold_left Rule.set_item meta_nullable py_true].
  destruct (Ruleset.has_rule ruleset "nullable");
    destruct v as [|b|z|q|[|c s]|[|x l]|[|kv d]]; simpl;
    (split;
     [ intros Hin;
       repeat match goal with
              | Hin : _ \/ _ |- _ => destruct Hin as [Hin|Hin]
              | Hin : False |- _ => destruct Hin
              | Hin : EvPasses _ _ = EvMessage _ _ _ |- _ => discriminate Hin
              | Hin : EvMessage _ _ _ = EvMessage _ _ _ |- _ =>
                  injection Hin as <- <- <-
              end;
       repeat split; auto
     | intros (-> & -> & -> & Hcase);
       repeat match goal with
              | Hcase : _ \/ _ |- _ => destruct Hcase as [Hcase|Hcase]
              | Hcase : _ /\ _ |- _ => destruct Hcase as [? ?]
              end;
       try discriminate; auto ]).
Qed.

(** X8: on a Ruleset that a rule expression with a token "required" builds,
    a call of validate that ends without a configuration error reports the
    required message for the field exactly when the value is None and the
    field is not nullable, or the value is the empty string, the empty list
    or the empty dict.  Every number and Boolean passes, 0 and False
    included. *)
Theorem X8_required_reports_exactly_None_and_the_empty_values
    (rules : rules_arg) (ruleset ruleset' : Ruleset.t) (attribute : string) (v : value)
    (value_exists : bool) (log : list event) (out : result unit) :
  Ruleset.init rules = Ok ruleset ->
  Ruleset.has_rule ruleset "required" = true ->
  Ruleset.validate ruleset attribute v value_exists = (ruleset', log, out) ->
  configuration_error out = false ->
  In (EvMessage attribute "required" (trans "en.required" [("attribute", PStr attribute)])) log
  <-> ((v = VNone /\ Ruleset.has_rule ruleset "nullable" = false) \/
       v = VStr "" \/ v = VList [] \/ v = VDict []).
Proof.
  intros Hinit Hreq Hv Hout. destruct (init_spec _ _ Hinit) as [_ Hspec].
  destruct (validate_completes _ _ _ _ _ _ _ Hv Hout) as [Hr _].
  assert (Hrule : forall rule, In ("required", rule) (Ruleset._rules ruleset) ->
            Rule.cls rule = cRequired /\ Rule._metadata rule = declared_metadata ruleset).
  { intros rule Hin. destruct (Hspec _ _ Hin) as (Hcls & _ & Hmeta).
    split; [|exact Hmeta].
    change (globals_get (Ruleset.class_name "required"))
      with (Some (GRuleClass cRequired)) in Hcls.
    congruence. }
  split.
  - intros Hin. destruct (validate_rules_log_inv _ _ _ _ _ _ _ _ _ _ _ _ Hr Hin)
      as (rule & Hrin & Hev).
    destruct (Hrule rule Hrin) as [Hcls Hmeta].
    now apply (validate_rule_required ruleset rule) in Hev.
  - intros Hcase. assert (Hreq' := Hreq). unfold Ruleset.has_rule, contains in Hreq'.
    destruct (dict_get "required" (Ruleset._rules ruleset)) as [rule|] eqn:Hget;
      [|discriminate].
    apply dict_get_In in Hget. destruct (Hrule rule Hget) as [Hcls Hmeta].
    apply (validate_rules_In _ _ _ _ _ _ _ _ _ _ Hr Hget).
    apply (proj2 (validate_rule_required ruleset rule "required" attribute v value_exists
                    _ _ _ Hcls Hmeta Hreq)).
    split; [reflexivity|]. split; [reflexivity|]. split; [reflexivity|exact Hcase].
Qed.

End RulesetValidateFacts.

Lemma X7_witness :
  exists ruleset,
    Ruleset.init (RulesStr "integer|min|same") = Ok ruleset /\
    Ruleset.has_rule ruleset "required" = false /\
    @Ruleset.validate plain_externals ruleset "age" VNone false = (ruleset, [], Ok tt).
Proof.
  destruct (Ruleset.init (RulesStr "integer|min|same")) as [ruleset|e] eqn:Hinit;
    [|discriminate Hinit].
  assert (Hreq : Ruleset.has_rule ruleset "required" = false).
  { vm_compute in Hinit. injection Hinit as <-. reflexivity. }
  exists ruleset. split; [reflexivity|]. split; [exact Hreq|].
  exact (@X7_None_of_an_optional_field_passes_untouched plain_externals
           (RulesStr "integer|min|same") ruleset "age" false Hinit (or_intror Hreq)).
Defined.

Lemma X6_witness :
  exists ruleset ruleset' log,
    Ruleset.init (RulesStr "string|min:2") = Ok ruleset /\
    @Ruleset.validate plain_externals
      {| Ruleset._rules := Ruleset.get_rules ruleset; Ruleset._errors := ["earlier"] |}
      "name" (VStr "abc") true = (ruleset', log, Raise ValidationError) /\
    messages_of log = [] /\
    Ruleset.errors ruleset' = ["earlier"] /\
    Ruleset.get_rules ruleset' = Ruleset.get_rules ruleset.
Proof.
  destruct (Ruleset.init (RulesStr "string|min:2")) as [ruleset|e] eqn:Hinit;
    [|discriminate Hinit].
  destruct (@Ruleset.validate plain_externals
              {| Ruleset._rules := Ruleset.get_rules ruleset; Ruleset._errors := ["earlier"] |}
              "name" (VStr "abc") true) as [[ruleset' log] out] eqn:Hv.
  destruct (@X6_validate_appends_messages_and_restores_the_rules plain_externals
              _ _ _ _ _ _ _ _ _ Hinit Hv) as [Herrs Hrest].
  assert (Hlog : messages_of log = [] /\ out = Raise ValidationError).
  { vm_compute in Hinit. injection Hinit as <-. vm_compute in Hv.
    injection Hv as _ <- <-. split; reflexivity. }
  destruct Hlog as [Hlog ->]. destruct (Hrest eq_refl) as (Hrules & _).
  rewrite Hlog in Herrs.
  exists ruleset, ruleset', log. split; [reflexivity|]. split; [exact Hv|].
  split; [exact Hlog|]. split; [exact Herrs|exact Hrules].
Defined.

Lemma X8_witness :
  exists ruleset ruleset' log out,
    Ruleset.init (RulesStr "required|integer") = Ok ruleset /\
    Ruleset.has_rule ruleset "required" = true /\
    @Ruleset.validate plain_externals ruleset "n" (VInt 0) true = (ruleset', log, out) /\
    configuration_error out = false /\
    ~ In (EvMessage "n" "required" (render "en.required" [("attribute", PStr "n")])) log.
Proof.
  destruct (Ruleset.init (RulesStr "required|integer")) as [ruleset|e] eqn:Hinit;
    [|discriminate Hinit].
  assert (Hreq : Ruleset.has_rule ruleset "required" = true).
  { vm_compute in Hinit. injection Hinit as <-. reflexivity. }
  destruct (@Ruleset.validate plain_externals ruleset "n" (VInt 0) true)
    as [[ruleset' log] out] eqn:Hv.
  assert (Hout : configuration_error out = false).
  { vm_compute in Hinit. injection Hinit as <-. vm_compute in Hv.
    injection Hv as _ _ <-. reflexivity. }
  exists ruleset, ruleset', log, out.
  split; [reflexivity|]. split; [exact Hreq|]. split; [first [exact Hv|reflexivity]|].
  split; [exact Hout|].
  intros Hin.
  apply (@X8_required_reports_exactly_None_and_the_empty_values plain_externals
           _ _ _ _ _ _ _ _ Hinit Hreq Hv Hout) in Hin.
  destruct Hin as [[Hin _]|[Hin|[Hin|Hin]]]; discriminate Hin.
Defined.

(** ** The predicates of the built-in rules *)

Section RuleFacts.
Context `{Externals}.

(** X9: the type predicates form a chain and exclude each other: every value
    that passes boolean passes integer, every value that passes integer
    passes numeric, and every value that passes numeric passes required (0
    and False included); at most one of string, numeric, list and dict
    passes a value, and None passes none of them. *)
Theorem X9_type_predicates_chain_and_exclude_each_other
    (self : Rule.t) (attribute : string) (v : value) (params : list param) :
  (BooleanRule.passes self attribute v params = Ok true ->
   IntegerRule.passes self attribute v params = Ok true) /\
  (IntegerRule.passes self attribute v params = Ok true ->
   NumericRule.passes self attribute v params = Ok true) /\
  (NumericRule.passes self attribute v params = Ok true ->
   RequiredRule.passes self attribute v params = Ok true) /\
  (length (filter is_Ok_true
             [StringRule.passes self attribute v params;
              NumericRule.passes self attribute v params;
              ListRule.passes self attribute v [];
              DictRule.passes self attribute v params]) <= 1)%nat /\
  (v = VNone ->
   filter is_Ok_true
     [StringRule.passes self attribute v params;
      NumericRule.passes self attribute v params;
      ListRule.passes self attribute v [];
      DictRule.passes self attribute v params] = []).
Proof.
  unfold BooleanRule.passes, IntegerRule.passes, NumericRule.passes, RequiredRule.passes,
    StringRule.passes, ListRule.passes, DictRule.passes.
  destruct v as [|b|z|q|s|[|x l]|d]; simpl;
    repeat split; try discriminate; try reflexivity; auto.
Qed.

Lemma check_items_forallb (item_type : ValueType) (items : list value) :
  item_type <> LIST ->
  ListRule.check_items item_type items = Ok (forallb (has_item_type item_type) items).
Proof.
  intros Hne. induction items as [|item items IH]; [reflexivity|].
  destruct item_type; try congruence; simpl;
    match goal with |- context [if ?b then _ else _] => destruct b end;
    simpl; first [exact IH|reflexivity].
Qed.

(** X10: the predicate of list.  A value that is no list fails and the
    empty list passes, whatever the parameters are; without a parameter
    every list passes; with the name of a value type other than list as
    first parameter, a list passes exactly when every item is of that type
    (bool counting as integer and numeric); on a list that is not empty a
    first parameter that names no value type raises ValueError, and the
    parameter "list" raises NotImplementedError. *)
Theorem X10_list_checks_every_item_against_the_first_parameter
    (self : Rule.t) (attribute : string) (params : list param) :
  (forall v, is_list v = false -> ListRule.passes self attribute v params = Ok false) /\
  ListRule.passes self attribute (VList []) params = Ok true /\
  (forall items, ListRule.passes self attribute (VList items) [] = Ok true) /\
  (forall name item_type items,
     ValueType_of name = Some item_type -> item_type <> LIST ->
     ListRule.passes self attribute (VList items) (PStr name :: params)
     = Ok (forallb (has_item_type item_type) items)) /\
  (forall name item items,
     ValueType_of name = None ->
     ListRule.passes self attribute (VList (item :: items)) (PStr name :: params)
     = Raise ValueError) /\
  (forall item items,
     ListRule.passes self attribute (VList (item :: items)) (PStr "list" :: params)
     = Raise NotImplementedError).
Proof.
  split; [|split; [|split; [|split; [|split]]]].
  - intros v Hv. unfold ListRule.passes. destruct v; try discriminate; now destruct params.
  - unfold ListRule.passes. now destruct params.
  - intros items. unfold ListRule.passes. now destruct items.
  - intros name item_type items Hname Hne. unfold ListRule.passes.
    destruct items as [|item items]; [reflexivity|].
    rewrite Hname. exact (check_items_forallb item_type (item :: items) Hne).
  - intros name item items Hname. unfold ListRule.passes. now rewrite Hname.
  - intros item items. reflexivity.
Qed.

Lemma existsb_eq_param_str (s : string) (params : list string) :
  existsb (eq_param (VStr s)) (map PStr params) = existsb (String.eqb s) params.
Proof. induction params as [|p params IH]; simpl; [reflexivity|now rewrite IH]. Qed.

(** X11: on a Ruleset a rule expression builds, a string value passes in
    exactly when it is one of the comma-separated parameters of the (last)
    token named "in", compared as written, and passes not_in exactly when it
    is none of the parameters of the token named "not_in". *)
Theorem X11_a_string_passes_in_iff_it_is_a_parameter
    (rules : rules_arg) (ruleset : Ruleset.t) (attribute s : string) :
  Ruleset.init rules = Ok ruleset ->
  (forall token, last_token "in" (tokens_of rules) = Some token ->
     exists rule,
       Ruleset.get_rule ruleset "in" = Some rule /\
       passes rule attribute (VStr s) (Rule.get_params rule)
       = Ok (existsb (String.eqb s) (token_params token))) /\
  (forall token, last_token "not_in" (tokens_of rules) = Some token ->
     exists rule,
       Ruleset.get_rule ruleset "not_in" = Some rule /\
       passes rule attribute (VStr s) (Rule.get_params rule)
       = Ok (negb (existsb (String.eqb s) (token_params token)))).
Proof.
  intros Hinit. split; intros token Htoken.
  - assert (Hget := init_get_rule rules ruleset "in" Hinit). rewrite Htoken in Hget.
    destruct Hget as (c & Hc & Hget).
    change (globals_get (Ruleset.class_name "in")) with (Some (GRuleClass cIn)) in Hc.
    injection Hc as <-. eexists. split; [exact Hget|].
    unfold passes, Rule.get_params, InRule.passes. cbn [Rule.cls Rule._params].
    now rewrite existsb_eq_param_str.
  - assert (Hget := init_get_rule rules ruleset "not_in" Hinit). rewrite Htoken in Hget.
    destruct Hget as (c & Hc & Hget).
    change (globals_get (Ruleset.class_name "not_in")) with (Some (GRuleClass cNotIn)) in Hc.
    injection Hc as <-. eexists. split; [exact Hget|].
    unfold passes, Rule.get_params, NotInRule.passes. cbn [Rule.cls Rule._params].
    now rewrite existsb_eq_param_str.
Qed.

(** X12: the four date comparisons on a value that is no relative keyword.
    When the value and the first parameter both denote a date, before and
    after_or_equal are complements, as are after and before_or_equal, and
    before and after never both pass; both fail exactly when the two dates
    fall on the same day.  When the value denotes no date, or the parameter
    is missing or denotes no date, all four fail: the error is swallowed,
    and before and after_or_equal are no complements any more. *)
Theorem X12_date_comparisons_are_complements_only_on_dates
    (self : Rule.t) (attribute : string) (v : value) :
  is_parse_special_key v = false ->
  (forall p params date other,
     Sandglass v None = Ok date ->
     Sandglass (VStr p) None = Ok other ->
     exists before after,
       BeforeRule.passes self attribute v (PStr p :: params) = Ok before /\
       AfterOrEqualRule.passes self attribute v (PStr p :: params) = Ok (negb before) /\
       AfterRule.passes self attribute v (PStr p :: params) = Ok after /\
       BeforeOrEqualRule.passes self attribute v (PStr p :: params) = Ok (negb after) /\
       before && after = false /\
       (before || after = false <-> start_of_day date = start_of_day other)) /\
  (forall params,
     (exists e, Sandglass v None = Raise e) \/ params = [] \/
     (exists p more e, params = PStr p :: more /\ Sandglass (VStr p) None = Raise e) ->
     BeforeRule.passes self attribute v params = Ok false /\
     AfterOrEqualRule.passes self attribute v params = Ok false /\
     AfterRule.passes self attribute v params = Ok false /\
     BeforeOrEqualRule.passes self attribute v params = Ok false).
Proof.
  intros Hkey. split.
  - intros p params date other Hdate Hother.
    exists (Z.ltb (start_of_day date) (start_of_day other)),
           (Z.gtb (start_of_day date) (start_of_day other)).
    unfold BeforeRule.passes, AfterOrEqualRule.passes, AfterRule.passes,
      BeforeOrEqualRule.passes, compare_days.
    rewrite Hkey, Hdate. simpl. rewrite Hother. simpl.
    rewrite Z.geb_leb, Z.gtb_ltb, Z.leb_antisym, Z.ltb_antisym, !negb_involutive.
    rewrite (Z.leb_antisym (start_of_day other)).
    repeat split.
    + destruct (Z.ltb_spec (start_of_day other) (start_of_day date));
        destruct (Z.leb_spec (start_of_day other) (start_of_day date));
        simpl; try reflexivity; lia.
    + destruct (Z.ltb_spec (start_of_day other) (start_of_day date));
        destruct (Z.leb_spec (start_of_day other) (start_of_day date));
        simpl; try discriminate; lia.
    + intros Heq. rewrite Heq, Z.leb_refl, Z.ltb_irrefl. reflexivity.
  - intros params Hcase.
    unfold BeforeRule.passes, AfterOrEqualRule.passes, AfterRule.passes,
      BeforeOrEqualRule.passes, compare_days. rewrite Hkey.
    destruct Hcase as [[e He]|[->|(p & more & e & -> & He)]].
    + rewrite He. repeat split.
    + destruct (Sandglass v None); repeat split.
    + destruct (Sandglass v None); simpl; [rewrite He|]; repeat split.
Qed.

Lemma check_items_raises (item_type : ValueType) (items : list value) (e : exn) :
  ListRule.check_items item_type items = Raise e -> e = NotImplementedError.
Proof.
  induction items as [|item items IH]; simpl; [discriminate|].
  destruct item_type;
    match goal with
    | |- (if ?b then _ else _) = _ -> _ => destruct b; [exact IH|discriminate]
    | |- _ => now intros [= <-]
    end.
Qed.

Lemma join_params_raises (params : list param) (e : exn) :
  join_params params = Raise e -> e = TypeError.
Proof.
  unfold join_params. destruct (strings_of params) as [ss|e'] eqn:Hs; [discriminate|].
  simpl. intros [= <-]. revert Hs.
  induction params as [|[s|d] params IH]; simpl; try discriminate.
  - destruct (strings_of params); [discriminate|]. simpl. intros [= <-]. now apply IH.
  - now intros [= <-].
Qed.

(** X13: a rule of the classes min, max, same, after, after_or_equal, before
    and before_or_equal that was given no parameter makes validation raise
    IndexError on every value that is not skipped: min, max and same in the
    predicate, the date comparisons in the message (their predicate swallows
    the error and fails).  The rules of the other classes never raise
    IndexError. *)
Theorem X13_a_missing_parameter_raises_IndexError
    (rule : Rule.t) (rule_name attribute : string) (v : value) (value_exists : bool) :
  Rule.is_skippable (Rule.set_metadata rule [m_value_exists value_exists; m_value v]) = false ->
  (needs_parameter (Rule.cls rule) = true -> Rule.get_params rule = [] ->
   exists rule',
     Ruleset.validate_rule attribute v value_exists rule_name rule
     = (rule', [EvPasses attribute rule_name], Raise IndexError)) /\
  (needs_parameter (Rule.cls rule) = false ->
   snd (Ruleset.validate_rule attribute v value_exists rule_name rule) <> Raise IndexError).
Proof.
  intros Hskip. unfold Ruleset.validate_rule. rewrite Hskip.
  destruct rule as [c params metadata].
  unfold Rule.get_params, Rule.set_metadata, passes, message.
  cbn [Rule.cls Rule._params Rule._metadata]. split.
  - intros Hc ->. destruct c; try discriminate Hc; clear Hc;
      try (eexists; reflexivity);
      unfold AfterRule.passes, AfterRule.message, AfterOrEqualRule.passes,
        AfterOrEqualRule.message, BeforeRule.passes, BeforeRule.message,
        BeforeOrEqualRule.passes, BeforeOrEqualRule.message, compare_days;
      (destruct (is_parse_special_key v); [|destruct (Sandglass v None)]);
      simpl; eexists; reflexivity.
  - intros Hc. destruct c; try discriminate Hc; clear Hc.
    + unfold RequiredRule.passes, RequiredRule.message.
      destruct (is_Number v || is_bool v); [discriminate|].
      destruct (_ || _); discriminate.
    + discriminate.
    + unfold StringRule.passes, StringRule.message. destruct (is_str v); discriminate.
    + unfold IntegerRule.passes, IntegerRule.message. destruct (is_int v); discriminate.
    + unfold NumericRule.passes, NumericRule.message. destruct (is_Number v); discriminate.
    + unfold BooleanRule.passes, BooleanRule.message. destruct (is_bool v); discriminate.
    + unfold InRule.passes, InRule.message. destruct (existsb _ _); discriminate.
    + unfold NotInRule.passes, NotInRule.message. destruct (existsb _ _); discriminate.
    + unfold EmailRule.passes, EmailRule.message.
      destruct (if truthy v then v else VStr ""); try discriminate.
      destruct (regex_match _ _); discriminate.
    + destruct (ListRule.passes _ attribute v params) as [[|]|e] eqn:Hp; try discriminate.
      * unfold ListRule.message. destruct params; discriminate.
      * simpl. intros [= ->]. revert Hp. unfold ListRule.passes.
        destruct v as [| | | | |[|x l]|]; try discriminate.
        destruct params as [|[name|d] params]; try discriminate.
        destruct (ValueType_of name) as [t|]; [|discriminate].
        intros Hitems. apply (check_items_raises t (x :: l)) in Hitems. discriminate Hitems.
    + unfold DictRule.passes, DictRule.message. destruct (is_dict v); discriminate.
    + unfold DateRule.passes, DateRule.message.
      destruct (is_parse_special_key v); [|destruct (except_Exception _ _); [discriminate|]];
        (destruct params; [discriminate|]);
        (destruct (join_params _) as [format|e] eqn:Hj; [discriminate|]);
        apply join_params_raises in Hj; subst e; discriminate.
Qed.

(** X14: min and max are consistent.  When a value passes min with the bound
    a and max with the bound b, its size (the length of a string or list,
    the value of an integer) lies between them, so a <= b: with a minimum
    above the maximum no value passes both. *)
Theorem X14_min_and_max_bound_the_same_size
    (self : Rule.t) (attribute : string) (v : value)
    (p_min p_max : param) (more more' : list param) (a b : Q) :
  float p_min = Ok (FNum a) ->
  float p_max = Ok (FNum b) ->
  MinRule.passes self attribute v (p_min :: more) = Ok true ->
  MaxRule.passes self attribute v (p_max :: more') = Ok true ->
  (exists size : Z, (a <= inject_Z size)%Q /\ (inject_Z size <= b)%Q) /\ (a <= b)%Q.
Proof.
  intros Ha Hb. unfold MinRule.passes, MaxRule.passes. simpl. rewrite Ha, Hb. simpl.
  intros Hmin Hmax.
  assert (Hsize : exists size : Z, (a <= inject_Z size)%Q /\ (inject_Z size <= b)%Q).
  { destruct (Rule.get_value_type self) as [[| | | |]|]; try discriminate;
      destruct v; try discriminate;
      injection Hmin as Hmin; injection Hmax as Hmax;
      apply Qle_bool_iff in Hmin; apply Qle_bool_iff in Hmax; eauto. }
  split; [exact Hsize|]. destruct Hsize as (size & H1 & H2). now apply (Qle_trans _ _ _ H1).
Qed.

(** X15: email on a value that is no string.  A value that counts as false
    (None, False, 0, the empty string, list or dict) is matched as the empty
    string; any other value that is no string makes validation raise
    TypeError instead of failing. *)
Theorem X15_email_raises_TypeError_on_a_non_string
    (rule : Rule.t) (rule_name attribute : string) (v : value) (value_exists : bool) :
  Rule.cls rule = cEmail ->
  (truthy v = true -> is_str v = false ->
   exists rule',
     Ruleset.validate_rule attribute v value_exists rule_name rule
     = (rule', [EvPasses attribute rule_name], Raise TypeError)) /\
  (truthy v = false ->
   passes rule attribute v (Rule.get_params rule) = Ok (regex_match EmailRule.regex "")).
Proof.
  intros Hcls. split.
  - intros Htruthy Hstr. unfold Ruleset.validate_rule.
    assert (Hskip : Rule.is_skippable
                      (Rule.set_metadata rule [m_value_exists value_exists; m_value v]) = false).
    { unfold Rule.is_skippable, Rule.value_is_None. simpl.
      destruct v; try discriminate; reflexivity. }
    rewrite Hskip. unfold passes. cbn [Rule.set_metadata Rule.cls]. rewrite Hcls.
    unfold EmailRule.passes. rewrite Htruthy.
    destruct v; try discriminate; eexists; reflexivity.
  - intros Htruthy. unfold passes. rewrite Hcls. unfold EmailRule.passes.
    now rewrite Htruthy.
Qed.

End RuleFacts.

Lemma X11_witness :
  exists ruleset rule,
    Ruleset.init (RulesStr "string|in:a,b") = Ok ruleset /\
    Ruleset.get_rule ruleset "in" = Some rule /\
    @passes plain_externals rule "x" (VStr "b") (Rule.get_params rule) = Ok true /\
    @passes plain_externals rule "x" (VStr "B") (Rule.get_params rule) = Ok false.
Proof.
  destruct (Ruleset.init (RulesStr "string|in:a,b")) as [ruleset|e] eqn:Hinit;
    [|discriminate Hinit].
  destruct (@X11_a_string_passes_in_iff_it_is_a_parameter plain_externals
              _ _ "x" "b" Hinit) as [Hin _].
  destruct (@X11_a_string_passes_in_iff_it_is_a_parameter plain_externals
              _ _ "x" "B" Hinit) as [Hin' _].
  destruct (Hin "in:a,b" eq_refl) as (rule & Hrule & Hpasses).
  destruct (Hin' "in:a,b" eq_refl) as (rule' & Hrule' & Hpasses').
  assert (rule' = rule) by congruence. subst rule'.
  exists ruleset, rule. split; [reflexivity|]. split; [exact Hrule|].
  split; [exact Hpasses|exact Hpasses'].
Defined.

Lemma X12_witness :
  @is_parse_special_key plain_externals (VStr "30") = false /\
  (exists before,
     @BeforeRule.passes plain_externals string_rule "day" (VStr "30") [PStr "50"] = Ok before /\
     @AfterOrEqualRule.passes plain_externals string_rule "day" (VStr "30") [PStr "50"]
     = Ok (negb before)) /\
  @BeforeRule.passes plain_externals string_rule "day" (VStr "soon") [PStr "50"] = Ok false /\
  @AfterOrEqualRule.passes plain_externals string_rule "day" (VStr "soon") [PStr "50"]
  = Ok false.
Proof.
  assert (Hkey : @is_parse_special_key plain_externals (VStr "30") = false) by reflexivity.
  assert (Hkey' : @is_parse_special_key plain_externals (VStr "soon") = false) by reflexivity.
  destruct (@X12_date_comparisons_are_complements_only_on_dates plain_externals
              string_rule "day" (VStr "30") Hkey) as [Hdates _].
  destruct (@X12_date_comparisons_are_complements_only_on_dates plain_externals
              string_rule "day" (VStr "soon") Hkey') as [_ Hnone].
  destruct (Hdates "50" [] 30%Z 50%Z eq_refl eq_refl)
    as (before & after & Hb & Hae & _).
  destruct (Hnone [PStr "50"] (or_introl (ex_intro _ ValueError eq_refl)))
    as (Hb' & Hae' & _).
  split; [exact Hkey|]. split; [exists before; split; [exact Hb|exact Hae]|].
  split; [exact Hb'|exact Hae'].
Defined.

Lemma X13_witness :
  Rule.is_skippable
    (Rule.set_metadata (Rule.init cBefore []) [m_value_exists true; m_value (VStr "30")])
  = false /\
  exists rule',
    @Ruleset.validate_rule plain_externals "day" (VStr "30") true "before"
      (Rule.init cBefore [])
    = (rule', [EvPasses "day" "before"], Raise IndexError).
Proof.
  assert (Hskip : Rule.is_skippable
            (Rule.set_metadata (Rule.init cBefore [])
               [m_value_exists true; m_value (VStr "30")]) = false) by reflexivity.
  split; [exact Hskip|].
  exact (proj1 (@X13_a_missing_parameter_raises_IndexError plain_externals
                  (Rule.init cBefore []) "before" "day" (VStr "30") true Hskip)
           eq_refl eq_refl).
Defined.

Lemma X14_witness :
  @MinRule.passes plain_externals numeric_min_rule "x" (VInt 3) [PStr "1"] = Ok true /\
  @MaxRule.passes plain_externals numeric_min_rule "x" (VInt 3) [PStr "5"] = Ok true /\
  (inject_Z 1 <= inject_Z 5)%Q.
Proof.
  assert (Hmin : @MinRule.passes plain_externals numeric_min_rule "x" (VInt 3) [PStr "1"]
                 = Ok true) by reflexivity.
  assert (Hmax : @MaxRule.passes plain_externals numeric_min_rule "x" (VInt 3) [PStr "5"]
                 = Ok true) by reflexivity.
  split; [exact Hmin|]. split; [exact Hmax|].
  exact (proj2 (@X14_min_and_max_bound_the_same_size plain_externals numeric_min_rule "x"
                  (VInt 3) (PStr "1") (PStr "5") [] [] (inject_Z 1) (inject_Z 5)
                  eq_refl eq_refl Hmin Hmax)).
Defined.

Lemma X15_witness :
  exists rule',
    @Ruleset.validate_rule plain_externals "mail" (VInt 5) true "email" (Rule.init cEmail [])
    = (rule', [EvPasses "mail" "email"], Raise TypeError).
Proof.
  exact (proj1 (@X15_email_raises_TypeError_on_a_non_string plain_externals
                  (Rule.init cEmail []) "email" "mail" (VInt 5) true eq_refl)
           eq_refl eq_refl).
Defined.

(** ** The Validator *)

Section ValidatorLoopFacts.
Context `{Externals}.

Lemma extract_same_heads (d d' : details) :
  same_heads d d' ->
  forall attribute i,
    Validator._extract_list_details attribute i d
    = Validator._extract_list_details attribute i d'.
Proof.
  induction 1 as [v e| |j d d' rest rest' Hd IH]; intros attribute i;
    [reflexivity|reflexivity|]. simpl. apply IH.
Qed.

Lemma extract_shape :
  forall (d : details) (attribute : string) (i : nat),
    (exists v value_exists,
       snd (Validator._extract_list_details attribute i d) = Single v value_exists) \/
    snd (Validator._extract_list_details attribute i d) = Multi [].
Proof.
  fix IH 1. intros [v e|[|[j d'] rest]] attribute i.
  - left. now exists v, e.
  - now right.
  - simpl. apply IH.
Qed.

(** X16: under a nested wildcard only the first element of every inner list
    is validated.  What the loop over the elements of a wildcard path does
    depends on each element only through its index and the first elements of
    the lists below it, so the elements after the first of an inner list are
    never looked at; and an element below which an inner list is empty makes
    the loop raise ValueError. *)
Theorem X16_only_the_first_element_of_an_inner_list_is_validated
    (attribute : string) (ruleset : Ruleset.t) (value_details : list (nat * details))
    (errs : gmap string Validator.errors_entry) (extra_rules : list Validator.extra_rule) :
  (forall value_details',
     Forall2 (fun x y => fst x = fst y /\ same_heads (snd x) (snd y))
       value_details value_details' ->
     Validator.validate_items attribute ruleset value_details errs extra_rules
     = Validator.validate_items attribute ruleset value_details' errs extra_rules) /\
  (forall i d rest,
     (exists v value_exists,
        snd (Validator._extract_list_details attribute i d) = Single v value_exists) \/
     (snd (Validator._extract_list_details attribute i d) = Multi [] /\
      Validator.validate_items attribute ruleset ((i, d) :: rest) errs extra_rules
      = (errs, extra_rules, [], Raise ValueError))).
Proof.
  split.
  - intros value_details' Hall. revert errs extra_rules.
    induction Hall as [|[i d] [i' d'] items items' [Hi Hd] Hrest IH]; intros errs extra_rules;
      [reflexivity|].
    simpl in Hi, Hd. subst i'. simpl.
    rewrite (extract_same_heads d d' Hd attribute i).
    destruct (Validator._extract_list_details attribute i d')
      as [item_attribute [item_value ex|inner]]; [|reflexivity].
    destruct (Ruleset.validate _ item_attribute item_value ex) as [[clone log1] [[]|e1]].
    + destruct (Validator._get_extra_rules item_attribute item_value clone) as [more|e];
        [|reflexivity].
      now rewrite IH.
    + destruct e1; try reflexivity. now rewrite IH.
  - intros i d rest. destruct (extract_shape d attribute i) as [Hsingle|Hempty];
      [now left|right].
    split; [exact Hempty|]. simpl.
    destruct (Validator._extract_list_details attribute i d) as [item_attribute item_details].
    simpl in Hempty. now subst item_details.
Qed.

Lemma validate_raises_nonempty (ruleset ruleset' : Ruleset.t) (attribute : string)
    (v : value) (value_exists : bool) (log : list event) :
  Ruleset.validate ruleset attribute v value_exists = (ruleset', log, Raise ValidationError) ->
  Ruleset._errors ruleset' <> [].
Proof.
  unfold Ruleset.validate.
  destruct (Ruleset.validate_rules attribute v value_exists _ _)
    as [[[rules errs] log'] out] eqn:Hr.
  intros [= <- _ Hout]. simpl. destruct out as [[]|e]; simpl in Hout.
  - unfold Ruleset.has_error in Hout. simpl in Hout. destruct errs; discriminate.
  - injection Hout as ->. exfalso.
    now apply (validate_rules_not_validation _ _ _ _ _ _ _ _ _ Hr).
Qed.

Lemma owned_nonempty_insert (errs : gmap string Validator.errors_entry) (key : string)
    (messages : list string) :
  owned_nonempty errs -> messages <> [] ->
  owned_nonempty (<[key := Validator.Owned messages]> errs).
Proof.
  intros Hown Hne k l. destruct (decide (key = k)) as [->|Hk].
  - rewrite lookup_insert_eq. now intros [= <-].
  - rewrite lookup_insert_ne by exact Hk. apply Hown.
Qed.

Lemma owned_nonempty_alias (errs : gmap string Validator.errors_entry) (key : string) :
  owned_nonempty errs -> owned_nonempty (<[key := Validator.FieldErrors]> errs).
Proof.
  intros Hown k l. destruct (decide (key = k)) as [->|Hk].
  - rewrite lookup_insert_eq. discriminate.
  - rewrite lookup_insert_ne by exact Hk. apply Hown.
Qed.

Lemma validate_items_owned (attribute : string) (ruleset : Ruleset.t)
    (value_details : list (nat * details)) :
  forall errs extra_rules errs' extra_rules' log out,
    Validator.validate_items attribute ruleset value_details errs extra_rules
    = (errs', extra_rules', log, out) ->
    owned_nonempty errs -> owned_nonempty errs'.
Proof.
  induction value_details as [|[i d] rest IH];
    intros errs extra_rules errs' extra_rules' log out; simpl.
  - now intros [= <- _ _ _].
  - destruct (Validator._extract_list_details attribute i d)
      as [item_attribute [item_value ex|items]]; [|now intros [= <- _ _ _]].
    destruct (Ruleset.validate _ item_attribute item_value ex)
      as [[clone log1] [[]|e1]] eqn:Hv.
    + destruct (Validator._get_extra_rules item_attribute item_value clone) as [more|e];
        [|now intros [= <- _ _ _]].
      destruct (Validator.validate_items attribute ruleset rest errs _)
        as [[[errs1 extra1] log2] out2] eqn:Hrest.
      intros [= <- _ _ _]. eapply IH, Hrest.
    + destruct e1; try now intros [= <- _ _ _].
      destruct (Validator.validate_items attribute ruleset rest _ extra_rules)
        as [[[errs1 extra1] log2] out2] eqn:Hrest.
      intros [= <- _ _ _] Hown. eapply IH; [exact Hrest|].
      apply owned_nonempty_insert; [exact Hown|].
      exact (validate_raises_nonempty _ _ _ _ _ _ Hv).
Qed.

Lemma validate_extra_rules_owned (extra_rules : list Validator.extra_rule) :
  forall errs errs' log out,
    Validator.validate_extra_rules extra_rules errs = (errs', log, out) ->
    owned_nonempty errs -> owned_nonempty errs'.
Proof.
  induction extra_rules as [|[[extra_attribute extra_rule] extra_value] rest IH];
    intros errs errs' log out; simpl.
  - now intros [= <- _ _].
  - destruct (Ruleset.validate extra_rule extra_attribute extra_value true)
      as [[rule1 log1] [[]|e1]] eqn:Hv.
    + destruct (Validator.validate_extra_rules rest errs) as [[errs1 log2] out2] eqn:Hrest.
      intros [= <- _ _]. eapply IH, Hrest.
    + destruct e1; try now intros [= <- _ _].
      destruct (Validator.validate_extra_rules rest _) as [[errs1 log2] out2] eqn:Hrest.
      intros [= <- _ _] Hown. eapply IH; [exact Hrest|].
      apply owned_nonempty_insert; [exact Hown|].
      exact (validate_raises_nonempty _ _ _ _ _ _ Hv).
Qed.

Lemma validate_field_owned (data : value) (attribute : string) (ruleset : Ruleset.t) :
  forall errs extra_rules ruleset1 errs' extra_rules' log out,
    Validator.validate_field data attribute ruleset errs extra_rules
    = (ruleset1, errs', extra_rules', log, out) ->
    owned_nonempty errs -> owned_nonempty errs'.
Proof.
  intros errs extra_rules ruleset1 errs' extra_rules' log out.
  unfold Validator.validate_field.
  destruct (Validator._modify_dependent_rules data ruleset) as [m1|e];
    [|now intros [= _ <- _ _ _]].
  destruct (JsonSchema.get_value_details data attribute) as [v ex|items].
  - destruct (Ruleset.validate m1 attribute v ex) as [[x1 log1] [[]|e1]].
    + destruct (Validator._get_extra_rules attribute v x1); now intros [= _ <- _ _ _].
    + destruct e1; try now intros [= _ <- _ _ _].
      intros [= _ <- _ _ _]. apply owned_nonempty_alias.
  - destruct (Validator.validate_items attribute m1 items errs extra_rules)
      as [[[errs1 extra1] log1] out1] eqn:Hitems.
    intros [= _ <- _ _ _]. eapply validate_items_owned, Hitems.
Qed.

Lemma validate_fields_owned (data : value) (fields : RuleList.t) :
  forall errs extra_rules fields1 errs' extra_rules' log out,
    Validator.validate_fields data fields errs extra_rules
    = (fields1, errs', extra_rules', log, out) ->
    owned_nonempty errs -> owned_nonempty errs'.
Proof.
  induction fields as [|[attribute ruleset] rest IH];
    intros errs extra_rules fields1 errs' extra_rules' log out; simpl.
  - now intros [= _ <- _ _ _].
  - destruct (Validator.validate_field data attribute ruleset errs extra_rules)
      as [[[[ruleset1 errs1] extra1] log1] [[]|e1]] eqn:Hfield.
    + destruct (Validator.validate_fields data rest errs1 extra1)
        as [[[[rest1 errs2] extra2] log2] out2] eqn:Hrest.
      intros [= _ <- _ _ _] Hown. eapply IH; [exact Hrest|].
      eapply validate_field_owned; [exact Hfield|exact Hown].
    + intros [= _ <- _ _ _]. eapply validate_field_owned, Hfield.
Qed.

(** X17: after validate() on a new Validator has ended without a
    configuration error, every key of errors() carries at least one
    message: no path is reported with an empty list. *)
Theorem X17_every_reported_path_carries_a_message
    (data : value) (rules : list (string * rules_arg)) (self self' : Validator.t)
    (log : list event) (out : result unit) :
  Validator.init data rules = Ok self ->
  Validator.validate self = (self', log, out) ->
  configuration_error out = false ->
  forall key messages, Validator.errors self' !! key = Some messages -> messages <> [].
Proof.
  intros Hinit Hv Hc.
  unfold Validator.init in Hinit.
  destruct (RuleList.init rules) as [rule_list|e] eqn:Hlist; simpl in Hinit; [|discriminate].
  injection Hinit as <-.
  pose proof (rule_list_fresh _ _ Hlist) as Hfresh.
  unfold Validator.validate in Hv. simpl in Hv.
  destruct (Validator.validate_fields data rule_list ∅ [])
    as [[[[fields1 errs1] extra1] logf] outf] eqn:Hfields.
  destruct (validate_fields_spec _ _ Hfresh _ _ _ _ _ _ _ (List.Forall_nil _) Hfields)
    as [Hnvf Hokf].
  destruct outf as [[]|ef].
  2:{ injection Hv as <- <- <-. exfalso. simpl in Hc.
      apply (Hnvf ef eq_refl). now destruct ef. }
  destruct (Validator.validate_extra_rules extra1 errs1) as [[errsx logx] outx] eqn:Hextra.
  injection Hv as <- <- <-.
  assert (Hown : owned_nonempty errsx).
  { eapply validate_extra_rules_owned; [exact Hextra|].
    eapply validate_fields_owned; [exact Hfields|].
    intros key messages. rewrite lookup_empty. discriminate. }
  intros key messages. unfold Validator.errors. simpl. rewrite map_lookup_imap.
  destruct (errsx !! key) as [[|owned]|] eqn:Hkey; simpl; [| |discriminate].
  - intros [= <-].
    apply (validate_extra_rules_aliases _ _ _ _ _ _ Hextra) in Hkey.
    destruct (validate_fields_aliases _ _ Hfresh (rule_list_NoDup _ _ Hlist)
                _ _ _ _ _ _ key (List.Forall_nil _) Hfields Hkey)
      as [Hempty|(ruleset1 & Hget & Hne)].
    + rewrite lookup_empty in Hempty. discriminate Hempty.
    + now rewrite Hget.
  - intros [= <-]. exact (Hown key owned Hkey).
Qed.

Lemma validate_required_only (attribute : string) (v : value) :
  exists required,
    Ruleset.init (RulesStr "required") = Ok required /\
    exists required' log,
      Ruleset.validate required attribute v true
      = (required', log,
         if is_missing v then Raise ValidationError else Ok tt) /\
      (is_missing v = true ->
       Ruleset.errors required' = [trans "en.required" [("attribute", PStr attribute)]]).
Proof.
  eexists. split; [reflexivity|].
  destruct v as [|b|z|q|[|c s]|[|x l]|[|kv d]];
    do 2 eexists; (split; [reflexivity|]); simpl; first [discriminate|reflexivity].
Qed.

Lemma validate_sub_keys (attribute : string) (v : value) (dict_parameters : list param) :
  forall errs,
    exists extra_rules errs' log,
      Validator.extra_rules_of attribute v dict_parameters = Ok extra_rules /\
      Validator.validate_extra_rules extra_rules errs = (errs', log, Ok tt) /\
      forall path,
        errs' !! path
        = if sub_key_missing attribute v dict_parameters path
          then Some (Validator.Owned [trans "en.required" [("attribute", PStr path)]])
          else errs !! path.
Proof.
  induction dict_parameters as [|p rest IH]; intros errs.
  - exists [], errs, []. repeat split.
  - destruct (validate_required_only (attribute +:+ "." +:+ str p) (Validator.get_or_None v p))
      as (required & Hinit & required' & log1 & Hv & Herrs).
    cbn [Validator.extra_rules_of]. rewrite Hinit. cbn [bind].
    destruct (is_missing (Validator.get_or_None v p)) eqn:Hmiss.
    + destruct (IH (<[attribute +:+ "." +:+ str p :=
                      Validator.Owned (Ruleset.errors required')]> errs))
        as (more & errs' & log2 & -> & Hrest & Hlookup).
      cbn [bind]. do 3 eexists. split; [reflexivity|].
      cbn [Validator.validate_extra_rules]. rewrite Hv, Hrest.
      split; [reflexivity|]. intros path. rewrite Hlookup.
      unfold sub_key_missing. cbn [existsb]. rewrite Hmiss, andb_true_r.
      fold (sub_key_missing attribute v rest path).
      destruct (sub_key_missing attribute v rest path); [now rewrite orb_true_r|].
      rewrite orb_false_r. rewrite (Herrs eq_refl).
      destruct (String.eqb (attribute +:+ "." +:+ str p) path) eqn:E.
      * apply String.eqb_eq in E. subst path. now rewrite lookup_insert_eq.
      * rewrite lookup_insert_ne; [reflexivity|].
        intros Heq. rewrite Heq, String.eqb_refl in E. discriminate E.
    + destruct (IH errs) as (more & errs' & log2 & -> & Hrest & Hlookup).
      cbn [bind]. do 3 eexists. split; [reflexivity|].
      cbn [Validator.validate_extra_rules]. rewrite Hv, Hrest.
      split; [reflexivity|]. intros path. rewrite Hlookup.
      unfold sub_key_missing. cbn [existsb]. rewrite Hmiss, andb_false_r. reflexivity.
Qed.

(** X18: the sub-keys of a dict rule.  For a Ruleset of value type dict, the
    extra rules generated for a value and validated after the main pass
    report a path exactly when it is the path attribute.key of a sub-key
    whose value is missing (the key is absent, or bound to None, the empty
    string, the empty list or the empty dict), with the one required message
    for that path; every other path keeps its entry, and nothing is raised.
    When the value is no dict at all, as for an absent optional field, every
    sub-key is reported. *)
Theorem X18_a_sub_key_is_reported_iff_its_value_is_missing
    (attribute : string) (v : value) (ruleset : Ruleset.t) (dict_rule : Rule.t)
    (errs : gmap string Validator.errors_entry) :
  Ruleset.get_value_type ruleset = DICT ->
  Ruleset.get_rule ruleset "dict" = Some dict_rule ->
  exists extra_rules errs' log,
    Validator._get_extra_rules attribute v ruleset = Ok extra_rules /\
    Validator.validate_extra_rules extra_rules errs = (errs', log, Ok tt) /\
    (forall path,
       errs' !! path
       = if sub_key_missing attribute v (Rule.get_params dict_rule) path
         then Some (Validator.Owned [trans "en.required" [("attribute", PStr path)]])
         else errs !! path) /\
    (is_dict v = false ->
     forall dict_parameter, In dict_parameter (Rule.get_params dict_rule) ->
       errs' !! (attribute +:+ "." +:+ str dict_parameter)
       = Some (Validator.Owned
                 [trans "en.required"
                    [("attribute", PStr (attribute +:+ "." +:+ str dict_parameter))]])).
Proof.
  intros Htype Hrule.
  destruct (validate_sub_keys attribute v (Rule.get_params dict_rule) errs)
    as (extra_rules & errs' & log & Hextra & Hv & Hlookup).
  exists extra_rules, errs', log.
  split.
  { unfold Validator._get_extra_rules. rewrite Htype, Hrule. exact Hextra. }
  split; [exact Hv|]. split; [exact Hlookup|].
  intros Hdict p Hin. rewrite Hlookup.
  assert (Hmiss : sub_key_missing attribute v (Rule.get_params dict_rule)
                    (attribute +:+ "." +:+ str p) = true).
  { unfold sub_key_missing. apply existsb_exists. exists p. split; [exact Hin|].
    rewrite String.eqb_refl. simpl.
    destruct v; try discriminate Hdict; reflexivity. }
  now rewrite Hmiss.
Qed.

End ValidatorLoopFacts.

Section WildcardFacts.
Context `{Externals}.

(** X20: a field whose path the resolver answers with a list (a wildcard
    path) is validated element by element on clones: the Ruleset of the
    field itself accumulates nothing, and no new entry of the errors mapping
    is bound to its accumulator.  When the list is empty nothing is checked at
    all, not even required: the errors, the extra rules and the log are as
    before, and the field ends as its dependent-rule step ends. *)
Theorem X20_a_wildcard_field_is_validated_on_clones
    (data : value) (attribute : string) (ruleset ruleset' : Ruleset.t)
    (items : list (nat * details))
    (errs errs' : gmap string Validator.errors_entry)
    (extra_rules extra_rules' : list Validator.extra_rule)
    (log : list event) (out : result unit) :
  JsonSchema.get_value_details data attribute = Multi items ->
  Validator.validate_field data attribute ruleset errs extra_rules
  = (ruleset', errs', extra_rules', log, out) ->
  Ruleset.errors ruleset' = Ruleset.errors ruleset /\
  (forall key,
     errs' !! key = Some Validator.FieldErrors -> errs !! key = Some Validator.FieldErrors) /\
  (items = [] ->
   errs' = errs /\ extra_rules' = extra_rules /\ log = [] /\
   out = (_ <- Validator._modify_dependent_rules data ruleset ;; Ok tt)).
Proof.
  intros Hdetails. unfold Validator.validate_field, Ruleset.errors.
  destruct (modify_dependent_rules_cases data ruleset)
    as [(m1 & -> & Herrs)|(e & -> & Hne)].
  - rewrite Hdetails.
    destruct (Validator.validate_items attribute m1 items errs extra_rules)
      as [[[errs1 extra1] log1] out1] eqn:Hitems.
    intros [= <- <- <- <- <-]. split; [exact Herrs|]. split.
    + intros key. apply (validate_items_aliases _ _ _ _ _ _ _ _ _ key Hitems).
    + intros ->. simpl in Hitems. injection Hitems as <- <- <- <-. repeat split.
  - intros [= <- <- <- <- <-]. split; [reflexivity|]. split; [auto|].
    intros _. repeat split.
Qed.

End WildcardFacts.

Lemma setitem_fresh {A : Type} (d : list (string * A)) (key : string) (x : A) :
  ~ In key (map fst d) -> setitem d key x = d ++ [(key, x)].
Proof.
  induction d as [|[k y] d IH]; simpl; [reflexivity|]. intros Hnot.
  destruct (String.eqb k key) eqn:E.
  - apply String.eqb_eq in E. subst k. exfalso. apply Hnot. now left.
  - rewrite IH; [reflexivity|]. intros Hin. apply Hnot. now right.
Qed.

Lemma rule_list_parse_order (rules : list (string * rules_arg)) :
  forall parsed res,
    List.NoDup (map fst parsed ++ map fst rules) ->
    RuleList._parse_loop rules parsed = Ok res ->
    exists items,
      res = parsed ++ items /\
      Forall2 (fun field item => fst item = fst field /\ Ruleset.init (snd field) = Ok (snd item))
        rules items.
Proof.
  induction rules as [|[attribute expression] rules IH]; intros parsed res Hnodup; simpl.
  - intros [= <-]. exists []. split; [now rewrite app_nil_r|constructor].
  - destruct (Ruleset.init expression) as [ruleset|e] eqn:Hinit; [|discriminate].
    simpl. intros Hloop.
    assert (Hfresh : ~ In attribute (map fst parsed)).
    { intros Hin. simpl in Hnodup. apply List.NoDup_remove_2 in Hnodup.
      apply Hnodup. apply in_or_app. now left. }
    rewrite (setitem_fresh _ _ _ Hfresh) in Hloop.
    assert (Hnodup' : List.NoDup (map fst (parsed ++ [(attribute, ruleset)]) ++ map fst rules)).
    { rewrite map_app, <- app_assoc. exact Hnodup. }
    destruct (IH _ _ Hnodup' Hloop) as (items & -> & Hall).
    exists ((attribute, ruleset) :: items). split; [now rewrite <- app_assoc|].
    constructor; [split; [reflexivity|exact Hinit]|exact Hall].
Qed.

Lemma rule_list_parse_raises (rules : list (string * rules_arg)) :
  forall parsed e,
    RuleList._parse_loop rules parsed = Raise e <->
    exists pre field post,
      rules = pre ++ field :: post /\
      Forall (fun f => exists ruleset, Ruleset.init (snd f) = Ok ruleset) pre /\
      Ruleset.init (snd field) = Raise e.
Proof.
  induction rules as [|[attribute expression] rules IH]; intros parsed e; simpl.
  - split; [discriminate|]. intros (pre & field & post & Heq & _). now destruct pre.
  - destruct (Ruleset.init expression) as [ruleset|e'] eqn:Hinit; simpl.
    + rewrite IH. split.
      * intros (pre & field & post & -> & Hpre & Hfield).
        exists ((attribute, expression) :: pre), field, post.
        split; [reflexivity|]. split; [|exact Hfield].
        constructor; [now exists ruleset|exact Hpre].
      * intros (pre & field & post & Heq & Hpre & Hfield).
        destruct pre as [|first pre]; simpl in Heq; injection Heq as <- ->.
        -- simpl in Hfield. congruence.
        -- exists pre, field, post. split; [reflexivity|]. split; [|exact Hfield].
           now inversion Hpre.
    + split.
      * intros [= ->]. exists [], (attribute, expression), rules.
        split; [reflexivity|]. split; [constructor|exact Hinit].
      * intros (pre & field & post & Heq & Hpre & Hfield).
        destruct pre as [|first pre]; simpl in Heq; injection Heq as <- ->.
        -- simpl in Hfield. congruence.
        -- inversion Hpre as [|? ? [ruleset Hok] ?]; subst. simpl in Hok. congruence.
Qed.

(** X19: constructing a Validator parses the rule expression of every field
    at once, and never looks at the data.  When it succeeds the fields stand
    in declaration order, each with the Ruleset its expression builds, the
    data is stored as given, the errors mapping is empty, and the same rules
    construct with any other data; it fails exactly with the exception of
    the first field whose expression does not build. *)
Theorem X19_construction_parses_every_field_in_order
    (data : value) (rules : list (string * rules_arg)) :
  List.NoDup (map fst rules) ->
  (forall self,
     Validator.init data rules = Ok self ->
     Validator._data self = data /\
     Validator._errors self = ∅ /\
     Forall2 (fun field item => fst item = fst field /\ Ruleset.init (snd field) = Ok (snd item))
       rules (Validator._rules self) /\
     forall data',
       Validator.init data' rules
       = Ok {| Validator._data := data'; Validator._rules := Validator._rules self;
               Validator._errors := ∅ |}) /\
  (forall e,
     Validator.init data rules = Raise e <->
     exists pre field post,
       rules = pre ++ field :: post /\
       Forall (fun f => exists ruleset, Ruleset.init (snd f) = Ok ruleset) pre /\
       Ruleset.init (snd field) = Raise e).
Proof.
  intros Hnodup. unfold Validator.init, RuleList.init, RuleList._parse. split.
  - intros self.
    destruct (RuleList._parse_loop rules []) as [rule_list|e] eqn:Hloop; [|discriminate].
    simpl. intros [= <-]. simpl.
    split; [reflexivity|]. split; [reflexivity|]. split; [|reflexivity].
    destruct (rule_list_parse_order rules [] rule_list Hnodup Hloop) as (items & -> & Hall).
    exact Hall.
  - intros e. rewrite <- (rule_list_parse_raises rules [] e).
    destruct (RuleList._parse_loop rules []) as [rule_list|e']; simpl.
    + split; discriminate.
    + split; intros [= ->]; reflexivity.
Qed.

Lemma X19_witness :
  List.NoDup (map fst aborting_rules) /\
  exists self,
    Validator.init aborting_data aborting_rules = Ok self /\
    map fst (Validator._rules self) = ["a"; "b"; "c"] /\
    Validator.init VNone aborting_rules
    = Ok {| Validator._data := VNone; Validator._rules := Validator._rules self;
            Validator._errors := ∅ |}.
Proof.
  assert (Hnodup : List.NoDup (map fst aborting_rules)).
  { simpl. repeat constructor; simpl; intuition discriminate. }
  split; [exact Hnodup|].
  destruct (Validator.init aborting_data aborting_rules) as [self|e] eqn:Hinit;
    [|vm_compute in Hinit; discriminate Hinit].
  exists self. split; [reflexivity|].
  destruct (proj1 (X19_construction_parses_every_field_in_order aborting_data aborting_rules
                     Hnodup) self Hinit) as (_ & _ & _ & Hany).
  split; [|exact (Hany VNone)].
  vm_compute in Hinit. injection Hinit as <-. reflexivity.
Defined.

Lemma X17_witness :
  exists self self' log out,
    Validator.init items_data items_rules = Ok self /\
    @Validator.validate plain_externals self = (self', log, out) /\
    configuration_error out = false /\
    forall key messages, Validator.errors self' !! key = Some messages -> messages <> [].
Proof.
  destruct (Validator.init items_data items_rules) as [self|e] eqn:Hinit;
    [|vm_compute in Hinit; discriminate Hinit].
  destruct (@Validator.validate plain_externals self) as [[self' log] out] eqn:Hv.
  assert (Hc : configuration_error out = false).
  { vm_compute in Hinit. injection Hinit as <-. vm_compute in Hv.
    injection Hv as <- <- <-. reflexivity. }
  exists self, self', log, out.
  split; [first [exact Hinit|reflexivity]|].
  split; [first [exact Hv|reflexivity]|]. split; [exact Hc|].
  exact (@X17_every_reported_path_carries_a_message plain_externals
           items_data items_rules self self' log out Hinit Hv Hc).
Defined.

Lemma X18_witness :
  exists ruleset dict_rule extra_rules errs' log,
    Ruleset.init (RulesStr "dict:name,age") = Ok ruleset /\
    Ruleset.get_value_type ruleset = DICT /\
    Ruleset.get_rule ruleset "dict" = Some dict_rule /\
    @Validator._get_extra_rules plain_externals "person" VNone ruleset = Ok extra_rules /\
    @Validator.validate_extra_rules plain_externals extra_rules ∅ = (errs', log, Ok tt) /\
    errs' !! "person.age"
    = Some (Validator.Owned [render "en.required" [("attribute", PStr "person.age")]]) /\
    errs' !! "person" = None.
Proof.
  destruct (Ruleset.init (RulesStr "dict:name,age")) as [ruleset|e] eqn:Hinit;
    [|discriminate Hinit].
  destruct (Ruleset.get_rule ruleset "dict") as [dict_rule|] eqn:Hrule;
    [|exfalso; vm_compute in Hinit; injection Hinit as <-; discriminate Hrule].
  assert (Htype : Ruleset.get_value_type ruleset = DICT).
  { vm_compute in Hinit. injection Hinit as <-. reflexivity. }
  assert (Hparams : Rule.get_params dict_rule = [PStr "name"; PStr "age"]).
  { vm_compute in Hinit. injection Hinit as <-. vm_compute in Hrule.
    injection Hrule as <-. reflexivity. }
  destruct (@X18_a_sub_key_is_reported_iff_its_value_is_missing plain_externals
              "person" VNone ruleset dict_rule ∅ Htype Hrule)
    as (extra_rules & errs' & log & Hextra & Hv & Hlookup & Hall).
  exists ruleset, dict_rule, extra_rules, errs', log.
  split; [reflexivity|]. split; [exact Htype|]. split; [first [exact Hrule|reflexivity]|].
  split; [exact Hextra|]. split; [exact Hv|]. split.
  - apply (Hall eq_refl (PStr "age")). rewrite Hparams. right. now left.
  - rewrite (Hlookup "person"), Hparams. reflexivity.
Defined.

Lemma X20_witness :
  exists ruleset ruleset' log,
    Ruleset.init (RulesStr "required") = Ok ruleset /\
    JsonSchema.get_value_details (VDict [("items", VList [])]) "items.*.price" = Multi [] /\
    @Validator.validate_field plain_externals (VDict [("items", VList [])]) "items.*.price"
      ruleset ∅ [] = (ruleset', ∅, [], log, Ok tt) /\
    log = [] /\
    Ruleset.errors ruleset' = Ruleset.errors ruleset.
Proof.
  destruct (Ruleset.init (RulesStr "required")) as [ruleset|e] eqn:Hinit;
    [|discriminate Hinit].
  destruct (@Validator.validate_field plain_externals (VDict [("items", VList [])])
              "items.*.price" ruleset ∅ [])
    as [[[[ruleset' errs'] extra'] log] out] eqn:Hv.
  destruct (@X20_a_wildcard_field_is_validated_on_clones plain_externals
              (VDict [("items", VList [])]) "items.*.price" ruleset ruleset' []
              ∅ errs' [] extra' log out eq_refl Hv) as (Herrs & _ & Hempty).
  destruct (Hempty eq_refl) as (-> & -> & -> & ->).
  assert (Hout : (_ <- Validator._modify_dependent_rules (VDict [("items", VList [])]) ruleset ;;
                  Ok tt) = Ok tt).
  { vm_compute in Hinit. injection Hinit as <-. reflexivity. }
  rewrite Hout in Hv.
  exists ruleset, ruleset', []. split; [reflexivity|]. split; [reflexivity|].
  split; [exact Hv|]. split; [reflexivity|exact Herrs].
Defined.

(** ** Iterating over a RuleList *)

Lemma nth_error_map_fst_app {A : Type} (pre suf : list (string * A)) (key : string) (x : A) :
  nth_error (map fst (pre ++ (key, x) :: suf)) (length pre) = Some key.
Proof. induction pre as [|kv pre IH]; simpl; [reflexivity|exact IH]. Qed.

Lemma dict_get_app_fresh {A : Type} (pre suf : list (string * A)) (key : string) (x : A) :
  ~ In key (map fst pre) -> dict_get key (pre ++ (key, x) :: suf) = Some x.
Proof.
  induction pre as [|[k y] pre IH]; simpl; intros Hnot.
  - now rewrite String.eqb_refl.
  - destruct (String.eqb k key) eqn:E.
    + apply String.eqb_eq in E. subst k. exfalso. apply Hnot. now left.
    + apply IH. intros Hin. apply Hnot. now right.
Qed.

Lemma drain_from (rule_list : RuleList.t) (suf : list (string * Ruleset.t)) :
  forall pre,
    rule_list = pre ++ suf ->
    List.NoDup (map fst rule_list) ->
    exists self_end,
      RuleListIter.drain (S (length suf))
        {| RuleListIter._rules := rule_list;
           RuleListIter._iter :=
             Some {| RuleListIter._iter_current_index := length pre;
                     RuleListIter._iter_fields := map fst rule_list;
                     RuleListIter._iter_fields_count := length (map fst rule_list) |} |}
      = (self_end, suf, true) /\
      RuleListIter._rules self_end = rule_list /\
      RuleListIter.__next__ self_end = (self_end, RuleListIter.StopIteration).
Proof.
  induction suf as [|[attribute ruleset] suf IH]; intros pre Heq Hnodup.
  - rewrite app_nil_r in Heq. subst pre.
    assert (Hnext : forall self,
              self = {| RuleListIter._rules := rule_list;
                        RuleListIter._iter :=
                          Some {| RuleListIter._iter_current_index := length rule_list;
                                  RuleListIter._iter_fields := map fst rule_list;
                                  RuleListIter._iter_fields_count :=
                                    length (map fst rule_list) |} |} ->
              RuleListIter.__next__ self = (self, RuleListIter.StopIteration)).
    { intros self ->. unfold RuleListIter.__next__. cbn [RuleListIter._iter
        RuleListIter._iter_current_index RuleListIter._iter_fields_count].
      rewrite length_map, Nat.ltb_irrefl. reflexivity. }
    eexists. cbn [RuleListIter.drain length]. rewrite (Hnext _ eq_refl).
    split; [reflexivity|]. split; [reflexivity|]. exact (Hnext _ eq_refl).
  - assert (Hfresh : ~ In attribute (map fst pre)).
    { rewrite Heq, map_app in Hnodup. simpl in Hnodup.
      apply List.NoDup_remove_2 in Hnodup. intros Hin. apply Hnodup.
      apply in_or_app. now left. }
    assert (Hlt : (length pre <? length (map fst rule_list))%nat = true).
    { apply Nat.ltb_lt. rewrite length_map, Heq, length_app. simpl. lia. }
    assert (Heq' : rule_list = (pre ++ [(attribute, ruleset)]) ++ suf)
      by now rewrite <- app_assoc.
    destruct (IH _ Heq' Hnodup) as (self_end & Hdrain & Hrules & Hstop).
    exists self_end. split; [|split; [exact Hrules|exact Hstop]].
    change (S (length ((attribute, ruleset) :: suf))) with (S (S (length suf))).
    cbn [RuleListIter.drain]. unfold RuleListIter.__next__ at 1.
    cbn [RuleListIter._iter RuleListIter._iter_current_index RuleListIter._iter_fields_count
         RuleListIter._iter_fields RuleListIter._rules].
    rewrite Hlt.
    replace (nth_error (map fst rule_list) (length pre)) with (Some attribute)
      by (rewrite Heq at 1; symmetry; apply nth_error_map_fst_app).
    replace (dict_get attribute rule_list) with (Some ruleset)
      by (rewrite Heq at 1; symmetry; now apply dict_get_app_fresh).
    replace (length pre + 1)%nat with (length (pre ++ [(attribute, ruleset)]))
      by (rewrite length_app; reflexivity).
    cbn [RuleListIter.drain] in Hdrain. cbn [RuleListIter.drain].
    now rewrite Hdrain.
Qed.

(** X21: iterating over the RuleList of a rules dict.  After __iter__,
    whatever cursor an earlier iteration has left on the object, the calls
    of __next__ return every field with its Ruleset exactly once, in
    declaration order, and then raise StopIteration: one call more than
    there are fields ends the loop; no call raises KeyError or IndexError;
    the rules are not changed, and once exhausted the object keeps raising
    StopIteration. *)
Theorem X21_iteration_yields_every_field_once_in_order
    (rules : list (string * rules_arg)) (rule_list : RuleList.t)
    (left_over : option RuleListIter.cursor) :
  RuleList.init rules = Ok rule_list ->
  exists self_end,
    RuleListIter.drain (S (length rule_list))
      (RuleListIter.__iter__
         {| RuleListIter._rules := rule_list; RuleListIter._iter := left_over |})
    = (self_end, rule_list, true) /\
    RuleListIter._rules self_end = rule_list /\
    RuleListIter.__next__ self_end = (self_end, RuleListIter.StopIteration).
Proof.
  intros Hinit.
  exact (drain_from rule_list rule_list [] eq_refl (rule_list_NoDup _ _ Hinit)).
Qed.

Lemma X21_witness :
  exists rule_list self_end,
    RuleList.init aborting_rules = Ok rule_list /\
    RuleListIter.drain 4
      (RuleListIter.__iter__
         {| RuleListIter._rules := rule_list; RuleListIter._iter := None |})
    = (self_end, rule_list, true) /\
    map fst rule_list = ["a"; "b"; "c"].
Proof.
  destruct (RuleList.init aborting_rules) as [rule_list|e] eqn:Hinit;
    [|vm_compute in Hinit; discriminate Hinit].
  destruct (X21_iteration_yields_every_field_once_in_order aborting_rules rule_list None Hinit)
    as (self_end & Hdrain & _).
  assert (Hnames : map fst rule_list = ["a"; "b"; "c"]).
  { vm_compute in Hinit. injection Hinit as <-. reflexivity. }
  assert (Hlength : length rule_list = 3%nat).
  { rewrite <- (length_map fst), Hnames. reflexivity. }
  rewrite Hlength in Hdrain.
  exists rule_list, self_end. split; [reflexivity|]. split; [exact Hdrain|exact Hnames].
Defined.

(** ** The format of the date rule *)

Lemma strings_of_map_PStr (l : list string) : strings_of (map PStr l) = Ok l.
Proof. induction l as [|s l IH]; simpl; [reflexivity|now rewrite IH]. Qed.

Lemma split_nonempty (sep : ascii) (s : string) : Str.split sep s <> [].
Proof.
  destruct s as [|c s]; simpl; [discriminate|].
  destruct (Ascii.eqb c sep); [discriminate|]. destruct (Str.split sep s); discriminate.
Qed.

Lemma token_params_after_name (name format : string) :
  lacks ":" name = true -> format <> "" ->
  token_params (name +:+ ":" +:+ format) = Str.split "," format.
Proof.
  intros Hname Hformat. unfold token_params.
  change (name +:+ ":" +:+ format) with (name +:+ String ":" format).
  rewrite (split_app_sep ":" name format Hname). simpl tl.
  rewrite (join_split ":" format). unfold Ruleset._split_rule_params.
  destruct (String.eqb format "") eqn:E; [|reflexivity].
  apply String.eqb_eq in E. contradiction.
Qed.

Section DateFormatFacts.
Context `{Externals}.

(** X22: the format of the date rule survives parsing.  A format may hold
    colons and commas, at which the token is split; the rule joins the
    pieces again, so for a token "date:<format>" with a format that is not
    empty, the format handed to the date service, and named in the message,
    is exactly the text after "date:"; a value that is no relative keyword
    passes exactly when the date service accepts it in that format. *)
Theorem X22_the_date_format_is_the_text_after_the_name
    (rules : rules_arg) (ruleset : Ruleset.t) (attribute format : string) (v : value) :
  Ruleset.init rules = Ok ruleset ->
  last_token "date" (tokens_of rules) = Some ("date:" +:+ format) ->
  format <> "" ->
  exists rule,
    Ruleset.get_rule ruleset "date" = Some rule /\
    message rule attribute v (Rule.get_params rule)
    = Ok (trans "en.date_format" [("attribute", PStr attribute); ("format", PStr format)]) /\
    (is_parse_special_key v = false ->
     passes rule attribute v (Rule.get_params rule)
     = Ok match Sandglass v (Some format) with
          | Ok _ => true
          | Raise _ => false
          end).
Proof.
  intros Hinit Htoken Hformat.
  assert (Hget := init_get_rule rules ruleset "date" Hinit). rewrite Htoken in Hget.
  destruct Hget as (c & Hc & Hget).
  change (globals_get (Ruleset.class_name "date")) with (Some (GRuleClass cDate)) in Hc.
  injection Hc as <-. eexists. split; [exact Hget|].
  change ("date:" +:+ format) with ("date" +:+ ":" +:+ format).
  rewrite (token_params_after_name "date" format eq_refl Hformat).
  unfold passes, message, Rule.get_params, DateRule.passes, DateRule.message.
  cbn [Rule.cls Rule._params].
  assert (Hjoin : join_params (map PStr (Str.split "," format)) = Ok format).
  { unfold join_params. rewrite strings_of_map_PStr. simpl.
    now rewrite (join_split "," format). }
  destruct (map PStr (Str.split "," format)) as [|p params] eqn:Hparams.
  { exfalso. apply (split_nonempty "," format). now destruct (Str.split "," format). }
  rewrite Hjoin. split; [reflexivity|]. intros ->. simpl.
  now destruct (Sandglass v (Some format)).
Qed.

End DateFormatFacts.

Lemma X22_witness :
  exists ruleset rule,
    Ruleset.init (RulesStr "required|date:%H:%M,%d") = Ok ruleset /\
    Ruleset.get_rule ruleset "date" = Some rule /\
    Rule.get_params rule = [PStr "%H:%M"; PStr "%d"] /\
    @message plain_externals rule "day" (VStr "30") (Rule.get_params rule)
    = Ok (render "en.date_format" [("attribute", PStr "day"); ("format", PStr "%H:%M,%d")]).
Proof.
  destruct (Ruleset.init (RulesStr "required|date:%H:%M,%d")) as [ruleset|e] eqn:Hinit;
    [|discriminate Hinit].
  destruct (@X22_the_date_format_is_the_text_after_the_name plain_externals
              (RulesStr "required|date:%H:%M,%d") ruleset "day" "%H:%M,%d" (VStr "30")
              Hinit eq_refl ltac:(discriminate)) as (rule & Hrule & Hmessage & _).
  exists ruleset, rule. split; [reflexivity|]. split; [exact Hrule|].
  split; [|exact Hmessage].
  vm_compute in Hinit. injection Hinit as <-. vm_compute in Hrule.
  injection Hrule as <-. reflexivity.
Defined.
